(** * clar test-suite generator ([_clar.py]): model and properties

    The generator walks a directory tree, strips comments from every [*.c]
    file, scans the text with regular expressions for test functions and
    event callbacks, accumulates them in a [ClarTestBuilder] and renders
    [clar_main.c] and [clar.h] from templates.

    Python [str] values are modelled as [string] (8-bit characters, as in
    Python 2, which the script targets), dictionaries as [gmap string _],
    lists as [list], [None]-or-dict values as [option], exceptions as the
    [Err] branch of a result type. [print] calls are not modelled. *)

From Stdlib Require Import Ascii String List Arith Lia Permutation Sorted.
From stdpp Require Import base option list gmap strings pretty sorting.

Local Open Scope string_scope.
Local Open Scope stdpp_scope.
Local Open Scope list_scope.

(** ** Strings *)

Module Str.

Definition newline : ascii := "010"%char.
Definition dquote : ascii := "034"%char.

Fixpoint take (n : nat) (s : string) : string :=
  match n, s with
  | S n', String c s' => String c (take n' s')
  | _, _ => ""
  end.

Fixpoint drop (n : nat) (s : string) : string :=
  match n, s with
  | S n', String _ s' => drop n' s'
  | _, _ => s
  end.

(** [s.startswith(p)] *)
Fixpoint startswith (p s : string) : bool :=
  match p, s with
  | "", _ => true
  | String a p', String b s' => Ascii.eqb a b && startswith p' s'
  | _, _ => false
  end.

(** [s.endswith(p)] *)
Definition endswith (p s : string) : bool :=
  if decide (drop (String.length s - String.length p) s = p) then
    Nat.leb (String.length p) (String.length s)
  else false.

(** [sep.join(l)] *)
Definition join (sep : string) (l : list string) : string := String.concat sep l.

(** [s.replace(a, b)] for a one-character [a] *)
Fixpoint replace_char (a : ascii) (b : string) (s : string) : string :=
  match s with
  | "" => ""
  | String c s' =>
      if Ascii.eqb c a then b +:+ replace_char a b s'
      else String c (replace_char a b s')
  end.

(** [s.split(sep)] for a one-character [sep]: the fields between the
    separators, empty fields included. *)
Fixpoint split_char (sep : ascii) (s : string) : list string :=
  match s with
  | "" => [""]
  | String c s' =>
      if Ascii.eqb c sep then "" :: split_char sep s'
      else match split_char sep s' with
           | [] => [String c ""]
           | w :: ws => String c w :: ws
           end
  end.

(** The whitespace of [str.strip()] and of the pattern class [\s]. *)
Definition is_space (c : ascii) : bool :=
  match c with
  | " " | "009" | "010" | "011" | "012" | "013" => true
  | _ => false
  end%char.

Fixpoint lstrip (s : string) : string :=
  match s with
  | String c s' => if is_space c then lstrip s' else s
  | "" => ""
  end.

Fixpoint rstrip (s : string) : string :=
  match s with
  | "" => ""
  | String c s' =>
      match rstrip s' with
      | "" => if is_space c then "" else String c ""
      | r => String c r
      end
  end.

(** [s.strip()] *)
Definition strip (s : string) : string := rstrip (lstrip s).

Definition is_digit (c : ascii) : bool :=
  Nat.leb 48 (nat_of_ascii c) && Nat.leb (nat_of_ascii c) 57.

(** The characters of the pattern class [\w]. *)
Definition is_word (c : ascii) : bool :=
  let n := nat_of_ascii c in
  (Nat.leb 48 n && Nat.leb n 57) || (Nat.leb 65 n && Nat.leb n 90)
  || (Nat.leb 97 n && Nat.leb n 122) || Nat.eqb n 95.

End Str.

(** ** Regular expressions

    The three patterns of the script use literals, character classes,
    the anchors [^] and [$] (always under [re.MULTILINE]), concatenation,
    alternation, greedy and lazy repetition and capturing groups. [run]
    is a backtracking matcher: it returns every way the pattern can match at
    the current position, in the order in which Python's matcher tries
    them, so the first element is the match [re] reports. *)

Module Re.

Inductive cclass : Type :=
| CAny                       (* [.] under [re.DOTALL] *)
| CDot                       (* [.] without [re.DOTALL]: not a newline *)
| CSpace                     (* [\s] *)
| CWord                      (* [\w] *)
| CNoneOf (l : list ascii).  (* [[^...]] *)

Definition cclass_mem (k : cclass) (c : ascii) : bool :=
  match k with
  | CAny => true
  | CDot => negb (Ascii.eqb c Str.newline)
  | CSpace => Str.is_space c
  | CWord => Str.is_word c
  | CNoneOf l => negb (existsb (Ascii.eqb c) l)
  end.

Inductive regex : Type :=
| Eps
| Chr (c : ascii)
| Cls (k : cclass)
| Bol                        (* [^] under [re.MULTILINE] *)
| Eol                        (* [$] under [re.MULTILINE] *)
| Cat (r1 r2 : regex)
| Alt (r1 r2 : regex)
| Star (greedy : bool) (r : regex)
| Grp (i : nat) (r : regex).

Definition Plus (greedy : bool) (r : regex) : regex := Cat r (Star greedy r).

(** A literal string, one [Chr] per character. *)
Fixpoint lit (s : string) : regex :=
  match s with
  | "" => Eps
  | String c s' => Cat (Chr c) (lit s')
  end.

Definition cats (rs : list regex) : regex := foldr Cat Eps rs.

(** A matcher position: the character before the position ([None] at the
    start of the text), the text still to be read, and the groups
    captured so far (most recent first). *)
Record mstate : Type := MState {
  prev : option ascii;
  rest : string;
  groups : list (nat * string)
}.

Definition advance (c : ascii) (s : string) (st : mstate) : mstate :=
  {| prev := Some c; rest := s; groups := groups st |}.

(** The text read between two positions of one match. *)
Definition consumed (st st' : mstate) : string :=
  Str.take (String.length (rest st) - String.length (rest st')) (rest st).

Definition set_group (i : nat) (st st' : mstate) : mstate :=
  {| prev := prev st'; rest := rest st';
     groups := (i, consumed st st') :: groups st' |}.

Definition at_bol (st : mstate) : bool :=
  match prev st with
  | None => true
  | Some c => Ascii.eqb c Str.newline
  end.

Definition at_eol (st : mstate) : bool :=
  match rest st with
  | "" => true
  | String c _ => Ascii.eqb c Str.newline
  end.

(** Repetition of [step]: an iteration that reads nothing is dropped, so
    at most [length (rest st)] iterations can follow one another. *)
Fixpoint star_loop (step : mstate -> list mstate) (greedy : bool)
    (n : nat) (st : mstate) : list mstate :=
  match n with
  | 0 => [st]
  | S n' =>
      let more :=
        flat_map
          (fun st' =>
             if Nat.ltb (String.length (rest st')) (String.length (rest st))
             then star_loop step greedy n' st' else [])
          (step st) in
      if greedy then more ++ [st] else st :: more
  end.

Fixpoint run (r : regex) (st : mstate) : list mstate :=
  match r with
  | Eps => [st]
  | Chr c =>
      match rest st with
      | String a s => if Ascii.eqb a c then [advance a s st] else []
      | "" => []
      end
  | Cls k =>
      match rest st with
      | String a s => if cclass_mem k a then [advance a s st] else []
      | "" => []
      end
  | Bol => if at_bol st then [st] else []
  | Eol => if at_eol st then [st] else []
  | Cat r1 r2 => flat_map (run r2) (run r1 st)
  | Alt r1 r2 => run r1 st ++ run r2 st
  | Star g r1 => star_loop (run r1) g (String.length (rest st)) st
  | Grp i r1 => set_group i st <$> run r1 st
  end.

(** The value of group [i] in a match, [''] when it took no part. *)
Fixpoint group_lookup (i : nat) (gs : list (nat * string)) : string :=
  match gs with
  | [] => ""
  | (j, t) :: gs' => if Nat.eqb j i then t else group_lookup i gs'
  end.

Definition group (i : nat) (st : mstate) : string :=
  group_lookup i (groups st).

(** The pieces [re.sub] and [re.findall] cut a text into: the
    non-overlapping matches, leftmost first, and the characters between
    them. *)
Inductive piece : Type :=
| Matched (text : string) (m : mstate)
| Plain (c : ascii).

Fixpoint pieces_from (r : regex) (n : nat) (p : option ascii) (s : string)
    : list piece :=
  match n with
  | 0 => []
  | S n' =>
      let st := {| prev := p; rest := s; groups := [] |} in
      let skip :=
        match s with
        | "" => []
        | String c s' => Plain c :: pieces_from r n' (Some c) s'
        end in
      match run r st with
      | st' :: _ =>
          if Nat.ltb (String.length (rest st')) (String.length s)
          then Matched (consumed st st') st'
                 :: pieces_from r n' (prev st') (rest st')
          else Matched "" st' :: skip
      | [] => skip
      end
  end.

Definition pieces (r : regex) (s : string) : list piece :=
  pieces_from r (S (String.length s)) None s.

(** [re.sub(r, repl, s)] with a function [repl] of the matched text. *)
Definition sub (r : regex) (repl : string -> string) (s : string) : string :=
  foldr (fun p acc =>
           match p with
           | Matched t _ => repl t +:+ acc
           | Plain c => String c acc
           end) "" (pieces r s).

(** [r.findall(s)]: the matches, from which the caller reads the groups. *)
Definition findall (r : regex) (s : string) : list mstate :=
  omap (fun p => match p with Matched _ m => Some m | Plain _ => None end)
       (pieces r s).

End Re.

Import Re.

(** ** The patterns of the script *)

Definition ws0 : regex := Star true (Cls CSpace).   (* [\s*] *)
Definition ws1 : regex := Plus true (Cls CSpace).   (* [\s+] *)
Definition word1 : regex := Plus true (Cls CWord).  (* [\w+] *)

(** [EVENT_CB_REGEX]: [^(void\s+clar_on_(\w+)\(\s*void\s*\))\s*\{] *)
Definition EVENT_CB_REGEX : regex :=
  cats [ Bol;
         Grp 1 (cats [ lit "void"; ws1; lit "clar_on_"; Grp 2 word1;
                       Chr "("; ws0; lit "void"; ws0; Chr ")" ]);
         ws0; Chr "{" ].

(** [SKIP_COMMENTS_REGEX], under [re.DOTALL], has four alternatives:
    a line comment [//.*?$], a block comment [/\*.*?\*/], a character
    literal ['(?:\\.|[^\\'])*'] and a string literal, which is the third
    alternative with the double quote in place of the single quote. *)
Definition quoted (q : ascii) : regex :=
  cats [ Chr q;
         Star true (Alt (Cat (Chr "\") (Cls CAny)) (Cls (CNoneOf ["\"; q])));
         Chr q ]%char.

Definition line_comment : regex :=
  cats [ lit "//"; Star false (Cls CAny); Eol ].

Definition block_comment : regex :=
  cats [ lit "/*"; Star false (Cls CAny); lit "*/" ].

Definition SKIP_COMMENTS_REGEX : regex :=
  Alt line_comment
      (Alt block_comment (Alt (quoted "'") (quoted Str.dquote))).


(** [TEST_FUNC_REGEX % suite_name]:
    [^(void\s+(test_%s__(\w+))\(\s*void\s*\))\s*\{], the pattern the suite
    name is pasted into. The name is not escaped, so it is read as pattern
    syntax. [name_pattern] interprets an ordinary character as itself and
    [.] as any character but a newline (the pattern is compiled without
    [re.DOTALL]); a name with another special character of the pattern
    syntax is outside this model ([None]). *)
Definition metachars : list ascii :=
  [ "."; "^"; "$"; "*"; "+"; "?"; "{"; "}"; "["; "]"; "\"; "|"; "("; ")" ]%char.

Definition is_meta (c : ascii) : bool := existsb (Ascii.eqb c) metachars.

Fixpoint name_pattern (s : string) : option regex :=
  match s with
  | "" => Some Eps
  | String c s' =>
      match name_pattern s' with
      | Some r =>
          if Ascii.eqb c "." then Some (Cat (Cls CDot) r)
          else if is_meta c then None
          else Some (Cat (Chr c) r)
      | None => None
      end
  end.

Definition TEST_FUNC_REGEX (name_re : regex) : regex :=
  cats [ Bol;
         Grp 1 (cats [ lit "void"; ws1;
                       Grp 2 (cats [ lit "test_"; name_re; lit "__";
                                     Grp 3 word1 ]);
                       Chr "("; ws0; lit "void"; ws0; Chr ")" ]);
         ws0; Chr "{" ].

(** ** Results and exceptions *)

Inductive error : Type :=
| RuntimeError (msg : string)
| IOError (file : string)          (* [open] of a file that cannot be read *)
| KeyError (key : string)          (* a template placeholder with no value *)
| ValueError                       (* a malformed template placeholder *)
| DecodeError (file : string)      (* a bundled file that does not unpack *)
| PatternNotModelled (name : string).

Inductive result (A : Type) : Type :=
| Ok (a : A)
| Err (e : error).
Arguments Ok {A} a.
Arguments Err {A} e.

Definition bind {A B : Type} (r : result A) (f : A -> result B) : result B :=
  match r with
  | Ok a => f a
  | Err e => Err e
  end.

Notation "x <- r ;; k" := (bind r (fun x => k))
  (at level 100, r at next level, right associativity).

Fixpoint mapM {A B : Type} (f : A -> result B) (l : list A) : result (list B) :=
  match l with
  | [] => Ok []
  | x :: l' => y <- f x ;; ys <- mapM f l' ;; Ok (y :: ys)
  end.

(** ** [string.Template]

    [Template(t).substitute] with keyword arguments: [$$] is a dollar sign, [$name] and
    [${name}] are replaced by the value of [name] ([KeyError] when there is
    none), any other [$] is a [ValueError]. A name is a letter or an
    underscore followed by letters, digits and underscores. *)

Module Template.

Definition id_char (c : ascii) : bool := Str.is_word c.

Definition id_start (c : ascii) : bool :=
  Str.is_word c && negb (Str.is_digit c).

Inductive mode : Type :=
| Text
| Dollar
| Named (id : string)
| BraceOpen
| Braced (id : string).

Fixpoint value (kw : list (string * string)) (id : string) : result string :=
  match kw with
  | [] => Err (KeyError id)
  | (k, v) :: kw' => if String.eqb k id then Ok v else value kw' id
  end.

Definition snoc (s : string) (c : ascii) : string := s +:+ String c "".

Fixpoint subst (kw : list (string * string)) (md : mode) (t : string)
    : result string :=
  match t with
  | "" =>
      match md with
      | Text => Ok ""
      | Named id => value kw id
      | Dollar | BraceOpen | Braced _ => Err ValueError
      end
  | String c t' =>
      match md with
      | Text =>
          if Ascii.eqb c "$" then subst kw Dollar t'
          else r <- subst kw Text t' ;; Ok (String c r)
      | Dollar =>
          if Ascii.eqb c "$" then r <- subst kw Text t' ;; Ok (String c r)
          else if id_start c then subst kw (Named (String c "")) t'
          else if Ascii.eqb c "{" then subst kw BraceOpen t'
          else Err ValueError
      | Named id =>
          if id_char c then subst kw (Named (snoc id c)) t'
          else
            v <- value kw id ;;
            if Ascii.eqb c "$" then r <- subst kw Dollar t' ;; Ok (v +:+ r)
            else r <- subst kw Text t' ;; Ok (v +:+ String c r)
      | BraceOpen =>
          if id_start c then subst kw (Braced (String c "")) t'
          else Err ValueError
      | Braced id =>
          if id_char c then subst kw (Braced (snoc id c)) t'
          else if Ascii.eqb c "}" then
            v <- value kw id ;; r <- subst kw Text t' ;; Ok (v +:+ r)
          else Err ValueError
      end
  end.

Definition substitute (t : string) (kw : list (string * string))
    : result string :=
  subst kw Text t.

End Template.

(** ** The data model *)

Record callback : Type := Callback {
  short_name : string;
  declaration : string;
  symbol : string
}.

Record suite : Type := Suite {
  name : string;
  categorize : option callback;
  initialize : option callback;
  cleanup : option callback;
  cb_count : nat
}.

Record ClarTestBuilder : Type := Builder {
  declarations : list string;
  suite_names : list string;
  callback_data : gmap string (list callback);
  suite_data : gmap string suite;
  event_callbacks : list string;
  clar_path : option string;
  path : string;
  modules : list string
}.

Definition VERSION : string := "0.10.0".

Definition CLAR_EVENTS : list string := [ "init"; "shutdown"; "test"; "suite" ].

(** [sorted(l)] and [l.sort(key=...)]: Python's sort is stable and compares
    [str] values character by character. *)
Fixpoint insert_by {A : Type} (key : A -> string) (x : A) (l : list A) : list A :=
  match l with
  | [] => [x]
  | y :: l' =>
      if String.leb (key x) (key y) then x :: l else y :: insert_by key x l'
  end.

Definition sort_by {A : Type} (key : A -> string) (l : list A) : list A :=
  foldr (insert_by key) [] l.

Definition sorted (l : list string) : list string := sort_by id l.


(** ** Scanning one file *)

(** One-character strings that cannot be written inside a literal. *)
Definition dq : string := String Str.dquote "".
Definition nl : string := String Str.newline "".
Definition tab : string := String "009"%char "".

(** [_skip_comments]: [_replacer] blanks a match that starts with a slash and
    returns every other match unchanged. *)
Definition _replacer (s : string) : string :=
  if Str.startswith "/" s then "" else s.

Definition _skip_comments (text : string) : string :=
  Re.sub SKIP_COMMENTS_REGEX _replacer text.

(** [EVENT_CB_REGEX.findall(contents)]: the pairs (declaration, event). *)
Definition scan_events (contents : string) : list (string * string) :=
  (fun m => (group 1 m, group 2 m)) <$> findall EVENT_CB_REGEX contents.

(** [regex.findall(contents)] for the pattern of [suite_name]: the triples
    (declaration, symbol, short_name). *)
Definition scan_tests (suite_name contents : string)
    : result (list (string * string * string)) :=
  match name_pattern suite_name with
  | Some r =>
      Ok ((fun m => (group 1 m, group 2 m, group 3 m))
            <$> findall (TEST_FUNC_REGEX r) contents)
  | None => Err (PatternNotModelled suite_name)
  end.

(** The body of the loop of [_process_events]. *)
Definition register_event (self : ClarTestBuilder) (found : string * string)
    : ClarTestBuilder :=
  let '(decl, event) := found in
  if decide (event ∈ CLAR_EVENTS) then
    {| declarations := declarations self ++ [decl];
       suite_names := suite_names self;
       callback_data := callback_data self;
       suite_data := suite_data self;
       event_callbacks := event_callbacks self ++ [event];
       clar_path := clar_path self;
       path := path self;
       modules := modules self |}
  else self.

(** [_process_events] *)
Definition _process_events (self : ClarTestBuilder) (contents : string)
    : ClarTestBuilder :=
  foldl register_event self (scan_events contents).

(** The local variables of [_process_declarations] while it loops over the
    scanned functions. *)
Record locals : Type := Locals {
  l_categorize : option callback;
  l_initialize : option callback;
  l_cleanup : option callback;
  l_callbacks : list callback
}.

Definition locals0 : locals :=
  {| l_categorize := None; l_initialize := None; l_cleanup := None;
     l_callbacks := [] |}.

(** The body of the [for] loop: an [if] on [categorize], then a separate
    [if]/[elif]/[else] chain on [initialize] and [cleanup]. *)
Definition classify (v : locals) (m : string * string * string) : locals :=
  let '(decl, sym, short) := m in
  let data := {| short_name := short; declaration := decl; symbol := sym |} in
  let v1 :=
    if String.eqb short "categorize" then
      {| l_categorize := Some data; l_initialize := l_initialize v;
         l_cleanup := l_cleanup v; l_callbacks := l_callbacks v |}
    else v in
  if String.eqb short "initialize" then
    {| l_categorize := l_categorize v1; l_initialize := Some data;
       l_cleanup := l_cleanup v1; l_callbacks := l_callbacks v1 |}
  else if String.eqb short "cleanup" then
    {| l_categorize := l_categorize v1; l_initialize := l_initialize v1;
       l_cleanup := Some data; l_callbacks := l_callbacks v1 |}
  else
    {| l_categorize := l_categorize v1; l_initialize := l_initialize v1;
       l_cleanup := l_cleanup v1; l_callbacks := l_callbacks v1 ++ [data] |}.

Definition classify_all (found : list (string * string * string)) : locals :=
  foldl classify locals0 found.

(** The declaration of an optional callback, as a list to append. *)
Definition decl_of (c : option callback) : list string :=
  match c with
  | Some d => [declaration d]
  | None => []
  end.

(** The rest of [_process_declarations], after the loop. *)
Definition register_suite (self : ClarTestBuilder) (suite_name : string)
    (v : locals) : ClarTestBuilder :=
  match l_callbacks v with
  | [] => self
  | callbacks =>
      let tests_in_suite := length callbacks in
      let suite :=
        {| name := suite_name;
           categorize := l_categorize v;
           initialize := l_initialize v;
           cleanup := l_cleanup v;
           cb_count := tests_in_suite |} in
      {| declarations :=
           declarations self ++ decl_of (l_categorize v)
             ++ decl_of (l_initialize v) ++ decl_of (l_cleanup v)
             ++ (declaration <$> callbacks);
         suite_names := suite_names self ++ [suite_name];
         callback_data :=
           <[suite_name := sort_by short_name callbacks]> (callback_data self);
         suite_data := <[suite_name := suite]> (suite_data self);
         event_callbacks := event_callbacks self;
         clar_path := clar_path self;
         path := path self;
         modules := modules self |}
  end.

(** [_process_declarations] *)
Definition _process_declarations (self : ClarTestBuilder)
    (suite_name contents : string) : result ClarTestBuilder :=
  found <- scan_tests suite_name contents ;;
  Ok (register_suite self suite_name (classify_all found)).

(** [_process_test_file] *)
Definition _process_test_file (self : ClarTestBuilder)
    (suite_name contents : string) : result ClarTestBuilder :=
  let contents := _skip_comments contents in
  let self := _process_events self contents in
  _process_declarations self suite_name contents.

(** ** Rendering *)

(** [str(n)] for a non-negative integer. *)
Definition str (n : nat) : string := pretty n.

(** [_render_cb] *)
Definition _render_cb (cb : callback) : string :=
  "{" +:+ dq +:+ short_name cb +:+ dq +:+ ", &" +:+ symbol cb +:+ "}".

Definition suite_template : string :=
  "
    {
        ${suite_index},
        " +:+ dq +:+ "${clean_name}" +:+ dq +:+ ",
        ${categorize},
        ${initialize},
        ${cleanup},
        ${cb_ptr}, ${cb_count}
    }
".

Definition render_role (c : option callback) : string :=
  match c with
  | Some cb => _render_cb cb
  | None => "{NULL, NULL}"
  end.

(** [_render_suite] *)
Definition _render_suite (s : suite) (index : nat) : result string :=
  r <- Template.substitute suite_template
         [ ("suite_index", str index);
           ("clean_name", Str.replace_char "_" "::" (name s));
           ("categorize", render_role (categorize s));
           ("initialize", render_role (initialize s));
           ("cleanup", render_role (cleanup s));
           ("cb_ptr", "_clar_cb_" +:+ name s);
           ("cb_count", str (cb_count s)) ] ;;
  Ok (Str.strip r).

Definition callbacks_template : string :=
  "
static const struct clar_func _clar_cb_${suite_name}[] = {
    ${callbacks}
};
".

Definition reserved (short : string) : bool :=
  String.eqb short "categorize" || String.eqb short "initialize"
  || String.eqb short "cleanup".

(** The entries of a suite's callback array, before they are joined. *)
Definition callback_entries (callbacks : list callback) : list string :=
  _render_cb <$> filter (fun cb => reserved (short_name cb) = false) callbacks.

(** [_render_callbacks] *)
Definition _render_callbacks (suite_name : string) (callbacks : list callback)
    : result string :=
  r <- Template.substitute callbacks_template
         [ ("suite_name", suite_name);
           ("callbacks",
            Str.join ("," +:+ nl +:+ tab) (callback_entries callbacks)) ] ;;
  Ok (Str.strip r).

(** The line of the override block for one event. *)
Definition override_macro (event : string) : string :=
  "#define clar_on_" +:+ event +:+ "() /* nop */".

(** The lines of the override block, before they are joined. *)
Definition event_overrides (self : ClarTestBuilder) : list string :=
  override_macro
    <$> filter (fun event => event ∉ event_callbacks self) CLAR_EVENTS.

(** [_render_event_overrides] *)
Definition _render_event_overrides (self : ClarTestBuilder) : string :=
  Str.join nl (event_overrides self).

(** ** The environment

    What the script reads from outside: the directory listing of [os.walk],
    [os.path.abspath], and, when no [--clar-path] is given, the table
    [CLAR_FILES] of bundled files (appended to the script when it is
    packaged, not part of the source) with its base64 and zlib decoding.
    The contents of the files are a separate store, because [render] writes
    to it. *)
Record env : Type := Env {
  os_walk : string -> list (string * list string);
  abspath : string -> string;
  CLAR_FILES : gmap string string;
  unpack : string -> option string
}.

(** [os.path.join(a, b)] *)
Definition os_path_join (a b : string) : string :=
  if Str.startswith "/" b then b
  else if decide (a = "") then b
  else if Str.endswith "/" a then a +:+ b
  else a +:+ "/" +:+ b.

(** [open(file).read()] *)
Definition read_file (fs : gmap string string) (file : string) : result string :=
  match fs !! file with
  | Some text => Ok text
  | None => Err (IOError file)
  end.

Fixpoint foldM {A B : Type} (f : B -> A -> result B) (b : B) (l : list A)
    : result B :=
  match l with
  | [] => Ok b
  | x :: l' => b' <- f b x ;; foldM f b' l'
  end.

(** [_load_file] *)
Definition _load_file (e : env) (fs : gmap string string)
    (self : ClarTestBuilder) (filename : string) : result string :=
  match clar_path self with
  | Some dir => read_file fs (os_path_join dir filename)
  | None =>
      match CLAR_FILES e !! filename with
      | Some content =>
          match unpack e content with
          | Some text => Ok text
          | None => Err (DecodeError filename)
          end
      | None => Err (KeyError filename)
      end
  end.

(** [_get_modules] *)
Definition _get_modules (e : env) (fs : gmap string string)
    (self : ClarTestBuilder) : result string :=
  texts <- mapM (_load_file e fs self) (modules self) ;;
  Ok (Str.join nl texts).

(** [_render_header] *)
Definition _render_header (e : env) (fs : gmap string string)
    (self : ClarTestBuilder) : result string :=
  template <- _load_file e fs self "clar.h" ;;
  let decls :=
    Str.join nl
      ((fun decl => "extern " +:+ decl +:+ ";")
         <$> sorted (declarations self)) in
  Template.substitute template [ ("extern_declarations", decls) ].

(** [enumerate(l)] *)
Definition enumerate {A : Type} (l : list A) : list (nat * A) :=
  imap (fun i x => (i, x)) l.

(** [self.suite_data[s]] and [self.callback_data[s]] *)
Definition item {A : Type} (d : gmap string A) (k : string) : result A :=
  match d !! k with
  | Some x => Ok x
  | None => Err (KeyError k)
  end.

(** The list [suite_data] of [_render_main]: one rendered descriptor for
    each suite name, in sorted order, with its position as index. *)
Definition suite_descriptors (self : ClarTestBuilder) : result (list string) :=
  mapM (fun '(i, s) => d <- item (suite_data self) s ;; _render_suite d i)
       (enumerate (sorted (suite_names self))).

(** The list [callbacks] of [_render_main]: one rendered array for each
    suite name, in sorted order. *)
Definition callback_arrays (self : ClarTestBuilder) : result (list string) :=
  mapM (fun s => cbs <- item (callback_data self) s ;; _render_callbacks s cbs)
       (sorted (suite_names self)).

(** [sum(len(cbs) for cbs in self.callback_data.values())] *)
Definition callback_count (self : ClarTestBuilder) : nat :=
  map_fold (fun _ cbs acc => length cbs + acc) 0 (callback_data self).

(** [_render_main] *)
Definition _render_main (e : env) (fs : gmap string string)
    (self : ClarTestBuilder) : result string :=
  template <- _load_file e fs self "clar.c" ;;
  suite_data <- suite_descriptors self ;;
  callbacks <- callback_arrays self ;;
  clar_modules <- _get_modules e fs self ;;
  Template.substitute template
    [ ("clar_modules", clar_modules);
      ("clar_callbacks", Str.join nl callbacks);
      ("clar_suites", Str.join ("," +:+ nl +:+ tab) suite_data);
      ("clar_suite_count", str (length suite_data));
      ("clar_callback_count", str (callback_count self));
      ("clar_event_overrides", _render_event_overrides self) ].

(** The two files [render] writes. *)
Definition main_file (self : ClarTestBuilder) : string :=
  os_path_join (path self) "clar_main.c".

Definition header_file (self : ClarTestBuilder) : string :=
  os_path_join (path self) "clar.h".

(** [render]: each [open(file, 'w')] empties the file before the text to
    write is computed, and an exception leaves the files as they are at
    that point. *)
Definition render (e : env) (fs : gmap string string) (self : ClarTestBuilder)
    : gmap string string * result unit :=
  let fs1 := <[main_file self := ""]> fs in
  match _render_main e fs1 self with
  | Err x => (fs1, Err x)
  | Ok text =>
      let fs2 := <[main_file self := text]> fs1 in
      let fs3 := <[header_file self := ""]> fs2 in
      match _render_header e fs3 self with
      | Err x => (fs3, Err x)
      | Ok header => (<[header_file self := header]> fs3, Ok ())
      end
  end.

(** ** The driver *)

(** The body of the inner loop of [__init__] for one file of a directory. *)
Definition load_test_file (fs : gmap string string) (self_path root : string)
    (self : ClarTestBuilder) (test_file : string) : result ClarTestBuilder :=
  let module_root :=
    filter (fun c => c ≠ "")
           (Str.split_char "/" (Str.drop (String.length self_path) root)) in
  let full_path := os_path_join root test_file in
  let test_name :=
    Str.join "_"
      (module_root ++ [Str.take (String.length test_file - 2) test_file]) in
  contents <- read_file fs full_path ;;
  _process_test_file self test_name contents.

(** The body of the outer loop, for one directory of the walk;
    [fnmatch.filter(files, "*.c")] keeps the names that end in [.c]. *)
Definition load_directory (fs : gmap string string) (self_path : string)
    (self : ClarTestBuilder) (entry : string * list string)
    : result ClarTestBuilder :=
  let '(root, files) := entry in
  let tests_in_module := filter (fun f => Str.endswith ".c" f = true) files in
  foldM (load_test_file fs self_path root) self tests_in_module.

Definition new_builder (e : env) (path : string) (clar_path : option string)
    (print_mode : string) : ClarTestBuilder :=
  {| declarations := [];
     suite_names := [];
     callback_data := ∅;
     suite_data := ∅;
     event_callbacks := [];
     clar_path :=
       match clar_path with
       | Some p => if decide (p = "") then None else Some (abspath e p)
       | None => None
       end;
     path := abspath e path;
     modules :=
       [ "clar_sandbox.c"; "clar_fixtures.c"; "clar_fs.c"; "clar_categorize.c";
         "clar_print_" +:+ print_mode +:+ ".c" ] |}.

(** [ClarTestBuilder.__init__] *)
Definition __init__ (e : env) (fs : gmap string string) (path : string)
    (clar_path : option string) (print_mode : string) : result ClarTestBuilder :=
  let self := new_builder e path clar_path print_mode in
  self <- foldM (load_directory fs (abspath e path)) self
            (os_walk e (abspath e path)) ;;
  if decide (suite_data self = ∅) then
    Err (RuntimeError ("No tests found under " +:+ dq +:+ path +:+ dq))
  else Ok self.

(** One iteration of the loop of [main]: build, then render. *)
Definition generate (e : env) (fs : gmap string string) (folder : string)
    (clar_path : option string) (print_mode : string)
    : gmap string string * result unit :=
  match __init__ e fs folder clar_path print_mode with
  | Err x => (fs, Err x)
  | Ok builder => render e fs builder
  end.

(** [main]: one builder and one [render] for each folder, in order; the
    first exception ends the run. [folders] is [args or ['.']]. *)
Fixpoint main_loop (e : env) (fs : gmap string string) (folders : list string)
    (clar_path : option string) (print_mode : string)
    : gmap string string * result unit :=
  match folders with
  | [] => (fs, Ok ())
  | folder :: folders' =>
      match generate e fs folder clar_path print_mode with
      | (fs', Ok _) => main_loop e fs' folders' clar_path print_mode
      | (fs', Err x) => (fs', Err x)
      end
  end.

Definition main (e : env) (fs : gmap string string) (args : list string)
    (clar_path : option string) (print_mode : string)
    : gmap string string * result unit :=
  main_loop e fs (match args with [] => [ "." ] | _ => args end)
    clar_path print_mode.

(** ** Notions used in the statements *)

(** The recognised event callbacks among the scanned ones. *)
Definition recognised (found : list (string * string)) : list (string * string) :=
  filter (fun p => p.2 ∈ CLAR_EVENTS) found.

Definition data_of (m : string * string * string) : callback :=
  {| short_name := m.2; declaration := m.1.1; symbol := m.1.2 |}.

(** The short names the [if]/[elif] chain keeps out of [callbacks]. *)
Definition chained (short : string) : bool :=
  String.eqb short "initialize" || String.eqb short "cleanup".

(** The sum, over the suites, of the callbacks whose short name is not
    reserved. *)
Definition ordinary_count (self : ClarTestBuilder) : nat :=
  map_fold
    (fun _ cbs acc =>
       length (filter (fun cb => reserved (short_name cb) = false) cbs) + acc)
    0 (callback_data self).

(** The text of a suite descriptor, written out. *)
Definition descriptor_text (s : suite) (index : nat) : string :=
  ("{" +:+ nl +:+
   "        " +:+ str index +:+ "," +:+ nl +:+
   "        " +:+ dq +:+ Str.replace_char "_" "::" (name s) +:+ dq +:+ "," +:+ nl +:+
   "        " +:+ render_role (categorize s) +:+ "," +:+ nl +:+
   "        " +:+ render_role (initialize s) +:+ "," +:+ nl +:+
   "        " +:+ render_role (cleanup s) +:+ "," +:+ nl +:+
   "        " +:+ "_clar_cb_" +:+ name s +:+ ", " +:+ str (cb_count s))
  +:+ (nl +:+ "    }").

(** The text of a callback array, written out. *)
Definition callbacks_text (suite_name : string) (callbacks : list callback)
    : string :=
  ("static const struct clar_func _clar_cb_" +:+ suite_name +:+ "[] = {" +:+ nl +:+
   "    " +:+ Str.join ("," +:+ nl +:+ tab) (callback_entries callbacks))
  +:+ (nl +:+ "};").

(** ** Sample inputs *)

(** A suite with a [categorize] function and one test. *)
Definition categorize_file : string :=
  "void test_s__categorize(void) {
}
void test_s__one(void) {
}
".

(** A file with an event callback and an [initialize] function, no test. *)
Definition events_only_file : string :=
  "void clar_on_init(void) {
}
void test_s__initialize(void) {
}
".

(** A tree [/t] that holds the single file [s.c]. *)
Definition one_file_env : env :=
  {| os_walk := fun _ => [ ("/t", [ "s.c" ]) ];
     abspath := fun p => p;
     CLAR_FILES := ∅;
     unpack := fun _ => None |}.

Definition one_file_fs (contents : string) : gmap string string :=
  {[ "/t/s.c" := contents ]}.

(** The order of [l.sort(key=...)]. *)
Definition key_le {A : Type} (key : A -> string) (x y : A) : Prop :=
  String.le (key x) (key y).

(** The suite name the driver derives for a file of the walk. *)
Definition suite_name_of (self_path root test_file : string) : string :=
  Str.join "_"
    (filter (fun c => c ≠ "")
            (Str.split_char "/" (Str.drop (String.length self_path) root))
     ++ [Str.take (String.length test_file - 2) test_file]).

(** The test files of a walk, in the order the driver reads them: the
    suite name and the path of each. *)
Definition walk_tests (self_path : string) (walk : list (string * list string))
    : list (string * string) :=
  flat_map
    (fun entry =>
       (fun f => (suite_name_of self_path entry.1 f, os_path_join entry.1 f))
         <$> filter (fun f => Str.endswith ".c" f = true) entry.2)
    walk.

Definition run_tests (e : env) (path : string) : list (string * string) :=
  walk_tests (abspath e path) (os_walk e (abspath e path)).

(** Reading and processing one test file. *)
Definition load_test (fs : gmap string string) (self : ClarTestBuilder)
    (t : string * string) : result ClarTestBuilder :=
  contents <- read_file fs t.2 ;;
  _process_test_file self t.1 contents.

(** The event names scanned in the files of a run, recognised or not. *)
Definition events_in_tree (fs : gmap string string)
    (tests : list (string * string)) : list string :=
  flat_map
    (fun t =>
       match fs !! t.2 with
       | Some contents => (scan_events (_skip_comments contents)).*2
       | None => []
       end)
    tests.

(** Every listed suite name has its record and its callback list. *)
Definition suites_registered (self : ClarTestBuilder) : Prop :=
  forall s, s ∈ suite_names self ->
    (exists d, suite_data self !! s = Some d /\ name d = s)
    /\ is_Some (callback_data self !! s).

(** A file with an [init] event callback and one test. *)
Definition init_event_file : string :=
  "void clar_on_init(void) {
}
void test_s__one(void) {
}
".

(** ** What a pattern matches

    [matches r st st']: the pattern [r] can read the text between the
    positions [st] and [st'], recording its groups on the way. [run]
    enumerates these positions in the order of preference. *)
Inductive matches : regex -> mstate -> mstate -> Prop :=
| matches_Eps st : matches Eps st st
| matches_Chr c s st :
    rest st = String c s -> matches (Chr c) st (advance c s st)
| matches_Cls k c s st :
    rest st = String c s -> cclass_mem k c = true ->
    matches (Cls k) st (advance c s st)
| matches_Bol st : at_bol st = true -> matches Bol st st
| matches_Eol st : at_eol st = true -> matches Eol st st
| matches_Cat r1 r2 st st' st'' :
    matches r1 st st' -> matches r2 st' st'' -> matches (Cat r1 r2) st st''
| matches_Alt_l r1 r2 st st' : matches r1 st st' -> matches (Alt r1 r2) st st'
| matches_Alt_r r1 r2 st st' : matches r2 st st' -> matches (Alt r1 r2) st st'
| matches_Star_0 g r st : matches (Star g r) st st
| matches_Star_S g r st st' st'' :
    matches r st st' ->
    String.length (rest st') < String.length (rest st) ->
    matches (Star g r) st' st'' ->
    matches (Star g r) st st''
| matches_Grp i r st st' :
    matches r st st' -> matches (Grp i r) st (set_group i st st').

(** All characters of a string are in a class. *)
Fixpoint all_in (p : ascii -> bool) (s : string) : bool :=
  match s with
  | "" => true
  | String c s' => p c && all_in p s'
  end.

(** A text segment fits a suite name read as a pattern: the same length,
    and at each place the same character, or any character but a newline
    where the name has a dot. *)
Fixpoint fits_name (suite_name seg : string) : Prop :=
  match suite_name, seg with
  | "", "" => True
  | String c n', String a seg' =>
      (if Ascii.eqb c "." then a <> Str.newline else a = c) /\ fits_name n' seg'
  | _, _ => False
  end.

(** A name without special characters of the pattern syntax. *)
Definition plain_name (suite_name : string) : Prop :=
  all_in (fun c => negb (is_meta c)) suite_name = true.

(** The text between two positions is [w]. *)
Definition reads (w : string) (st st' : mstate) : Prop :=
  rest st = w +:+ rest st'.

(** The text of a declaration [void <prefix><short>(void)], from its parts:
    the white space after the first [void] and around the second. *)
Definition decl_text (prefix short ws1 ws2 ws3 : string) : string :=
  "void" +:+ ws1 +:+ prefix +:+ short +:+ "(" +:+ ws2 +:+ "void" +:+ ws3 +:+ ")".

(** The symbol and the declaration of a test function. *)
Definition test_prefix (seg : string) : string := "test_" +:+ seg +:+ "__".

Definition test_symbol (seg short : string) : string := test_prefix seg +:+ short.

Definition test_decl (seg short ws1 ws2 ws3 : string) : string :=
  decl_text (test_prefix seg) short ws1 ws2 ws3.

(** The declaration of an event callback. *)
Definition event_decl (event ws1 ws2 ws3 : string) : string :=
  decl_text "clar_on_" event ws1 ws2 ws3.

Definition spaces (w : string) : Prop := all_in Str.is_space w = true.
Definition word_chars (w : string) : Prop := all_in Str.is_word w = true.

(** The callback array [_render_main] renders for the suite of one file:
    [_process_declarations] stores the sorted callback list under the suite
    name and [_render_callbacks] renders the stored list. *)
Definition rendered_callbacks (suite_name contents : string) : result string :=
  found <- scan_tests suite_name contents ;;
  _render_callbacks suite_name
    (sort_by short_name (l_callbacks (classify_all found))).

(** The entry of a callback whose symbol is built from its short name. *)
Definition entry_of (suite_name short : string) : string :=
  "{" +:+ dq +:+ short +:+ dq +:+ ", &" +:+ test_symbol suite_name short +:+ "}".

(** The file [a.b.c] gives the suite name [a.b]; two functions whose names
    differ where the suite name has its dot, in both orders. *)
Definition dotted_file_xy : string :=
  "void test_axb__t(void) {
}
void test_ayb__t(void) {
}
".

Definition dotted_file_yx : string :=
  "void test_ayb__t(void) {
}
void test_axb__t(void) {
}
".

(** From every position with text [y] the pattern can read up to the
    remaining text [x]. *)
Definition can_read (r : regex) (y x : string) : Prop :=
  forall st, rest st = y -> exists st', matches r st st' /\ rest st' = x.

(** ** Comments and literals, scanned directly

    [span_at s] is the comment or literal that starts at the head of [s], if
    any: its kind, its text and the text after it. It is the reference the
    matcher is compared with for [SKIP_COMMENTS_REGEX]. *)
Inductive span_kind : Type :=
| LineComment
| BlockComment
| CharLiteral
| StringLiteral.

(** The text up to the next newline (or the end), and the text from there. *)
Fixpoint line_end (x : string) : string * string :=
  match x with
  | "" => ("", "")
  | String c x' =>
      if Ascii.eqb c Str.newline then ("", x)
      else let '(b, r) := line_end x' in (String c b, r)
  end.

(** The text before the first [*/], and the text after it. *)
Fixpoint block_end (x : string) : option (string * string) :=
  match x with
  | "" => None
  | String c x' =>
      let later :=
        match block_end x' with
        | Some (b, r) => Some (String c b, r)
        | None => None
        end in
      match x' with
      | String d r => if Ascii.eqb c "*" && Ascii.eqb d "/" then Some ("", r) else later
      | "" => later
      end
  end.

(** The text before the closing quote [q], a backslash taking the next
    character with it, and the text after the quote. *)
Fixpoint quoted_end (q : ascii) (x : string) : option (string * string) :=
  match x with
  | "" => None
  | String c x' =>
      if Ascii.eqb c q then Some ("", x')
      else if Ascii.eqb c "\" then
        match x' with
        | "" => None
        | String d x'' =>
            match quoted_end q x'' with
            | Some (b, r) => Some (String c (String d b), r)
            | None => None
            end
        end
      else
        match quoted_end q x' with
        | Some (b, r) => Some (String c b, r)
        | None => None
        end
  end.

Definition quoted_span (k : span_kind) (q : ascii) (x : string)
    : option (span_kind * string * string) :=
  match quoted_end q x with
  | Some (b, r) => Some (k, String q b +:+ String q "", r)
  | None => None
  end.

Definition span_at (s : string) : option (span_kind * string * string) :=
  match s with
  | "" => None
  | String c x =>
      if Ascii.eqb c "/" then
        match x with
        | "" => None
        | String d y =>
            if Ascii.eqb d "/" then
              let '(b, r) := line_end y in Some (LineComment, "//" +:+ b, r)
            else if Ascii.eqb d "*" then
              match block_end y with
              | Some (b, r) => Some (BlockComment, "/*" +:+ b +:+ "*/", r)
              | None => None
              end
            else None
        end
      else if Ascii.eqb c "'" then quoted_span CharLiteral c x
      else if Ascii.eqb c Str.dquote then quoted_span StringLiteral c x
      else None
  end.

Definition is_comment (k : span_kind) : bool :=
  match k with
  | LineComment | BlockComment => true
  | CharLiteral | StringLiteral => false
  end.

(** The tokens of a text: the spans, leftmost first, and the characters
    outside them. *)
Inductive token : Type :=
| Span (k : span_kind) (text : string)
| Char (c : ascii).

Inductive tokenized : string -> list token -> Prop :=
| tokenized_nil : tokenized "" []
| tokenized_span s k t r toks :
    span_at s = Some (k, t, r) -> tokenized r toks ->
    tokenized s (Span k t :: toks)
| tokenized_char c s toks :
    span_at (String c s) = None -> tokenized s toks ->
    tokenized (String c s) (Char c :: toks).

Definition token_text (t : token) : string :=
  match t with
  | Span _ text => text
  | Char c => String c ""
  end.

(** What the normalizer leaves of a token. *)
Definition token_kept (t : token) : string :=
  match t with
  | Span k text => if is_comment k then "" else text
  | Char c => String c ""
  end.

Definition concat_strings (l : list string) : string := foldr String.append "" l.

(** The pattern element [.] under [re.DOTALL], and one item of a quoted
    literal: a backslash with the character after it, or a character that
    is neither a backslash nor the quote. *)
Definition ANY : regex := Cls CAny.

Definition ITEM (q : ascii) : regex :=
  Alt (Cat (Chr "\") (Cls CAny)) (Cls (CNoneOf ["\"; q]))%char.

(** The message of the error raised when a tree has no suite. *)
Definition no_tests_message (path : string) : string :=
  "No tests found under " +:+ dq +:+ path +:+ dq.

(** A run with [--clar-path /c]: the directory [/c] holds the main template
    and the five modules, but no [clar.h]; the tree [/t] holds one test
    file. *)
Definition no_header_fs : gmap string string :=
  list_to_map
    [ ("/t/s.c", init_event_file);
      ("/c/clar.c",
       "${clar_modules}${clar_callbacks}
${clar_suites}
${clar_suite_count} ${clar_callback_count}
${clar_event_overrides}
");
      ("/c/clar_sandbox.c", "");
      ("/c/clar_fixtures.c", "");
      ("/c/clar_fs.c", "");
      ("/c/clar_categorize.c", "");
      ("/c/clar_print_default.c", "") ].

(** The same with a header template. *)
Definition with_header_fs : gmap string string :=
  <["/c/clar.h" := "${extern_declarations}
"]> no_header_fs.

(** A tree with a file that defines no test. *)
Definition no_test_fs : gmap string string :=
  {[ "/t/s.c" := events_only_file ]}.

(** A tree [/t] with the files [b.c] and [a.c], discovered in this order. *)
Definition two_file_env : env :=
  {| os_walk := fun _ => [ ("/t", [ "b.c"; "a.c" ]) ];
     abspath := fun p => p;
     CLAR_FILES := ∅;
     unpack := fun _ => None |}.

Definition two_file_fs : gmap string string :=
  list_to_map
    [ ("/t/b.c", "void test_b__x(void) {
}
");
      ("/t/a.c", "void test_a__y(void) {
}
") ].

(** Two tests of the suite [s], in both orders. *)
Definition two_tests_ab : string :=
  "void test_s__a(void) {
}
void test_s__b(void) {
}
".

Definition two_tests_ba : string :=
  "void test_s__b(void) {
}
void test_s__a(void) {
}
".

(** The last character of a string. *)
Fixpoint last_char (s : string) : option ascii :=
  match s with
  | "" => None
  | String c "" => Some c
  | String _ s' => last_char s'
  end.

(** A position preceded by the text [x] (after the character [p], if [x] is
    empty) is the start of a line. *)
Definition line_start (p : option ascii) (x : string) : Prop :=
  match x with
  | "" => at_bol {| prev := p; rest := ""; groups := [] |} = true
  | _ => last_char x = Some Str.newline
  end.

Definition no_newline (s : string) : Prop :=
  all_in (fun c => negb (Ascii.eqb c Str.newline)) s = true.

(** The groups a match records, innermost last: for the test-function
    pattern the declaration, the symbol and the short name; for the event
    pattern the declaration and the event. *)
Definition test_groups (seg decl short : string) : list (nat * string) :=
  [ (1, decl); (2, test_symbol seg short); (3, short) ].

Definition event_groups (decl event : string) : list (nat * string) :=
  [ (1, decl); (2, event) ].

(** A file whose only definition is an event callback, after a comment and
    with the brace on a line of its own. *)
Definition commented_event_file : string :=
  "/* tear down */
void clar_on_shutdown(void)
{
}
".

(** A run with [--clar-path /c] on a tree [/t] whose single file [s.c] has
    a [categorize] function and one test; the main template shows the
    callback arrays, the number of suites and the callback total. *)
Definition categorize_fs : gmap string string :=
  list_to_map
    [ ("/t/s.c", categorize_file);
      ("/c/clar.c",
       "${clar_callbacks}
${clar_suite_count} ${clar_callback_count}
");
      ("/c/clar_sandbox.c", "");
      ("/c/clar_fixtures.c", "");
      ("/c/clar_fs.c", "");
      ("/c/clar_categorize.c", "");
      ("/c/clar_print_default.c", "") ].

(** ** Notions used in the further properties *)

(** A text without a given character. *)
Definition without (c : ascii) (s : string) : Prop :=
  all_in (fun a => negb (Ascii.eqb a c)) s = true.

(** A text in which the two characters [*/] do not follow one another. *)
Definition no_block_close (s : string) : Prop := block_end s = None.

(** The sum of the [cb_count] fields of the suite records. *)
Definition suite_cb_total (self : ClarTestBuilder) : nat :=
  map_fold (fun _ d acc => cb_count d + acc) 0 (suite_data self).

(** The callbacks in the three roles of a suite record. *)
Definition roles (d : suite) : list callback :=
  omap id [ categorize d; initialize d; cleanup d ].

(** The lines [_render_header] joins: one [extern] line for each registered
    declaration, in sorted order. *)
Definition extern_lines (self : ClarTestBuilder) : list string :=
  (fun decl => "extern " +:+ decl +:+ ";") <$> sorted (declarations self).

(** The scanned functions with a given short name, as callback records, in
    source order. *)
Definition named (short : string) (found : list (string * string * string))
    : list callback :=
  data_of <$> filter (fun m => m.2 = short) found.

(** * Properties *)

(** ** Strings *)

Module StrFacts.

Lemma app_nil_l (s : string) : "" +:+ s = s.
Proof. reflexivity. Qed.

Lemma app_cons (c : ascii) (a b : string) :
  String c a +:+ b = String c (a +:+ b).
Proof. reflexivity. Qed.

Lemma app_nil_r (s : string) : s +:+ "" = s.
Proof. induction s as [|c s IH]; [done|]. by rewrite app_cons, IH. Qed.

Lemma app_assoc (a b c : string) : (a +:+ b) +:+ c = a +:+ (b +:+ c).
Proof. induction a as [|x a IH]; [done|]. by rewrite !app_cons, IH. Qed.

Lemma length_app (a b : string) :
  String.length (a +:+ b) = String.length a + String.length b.
Proof. induction a as [|x a IH]; [done|]. rewrite app_cons. simpl. by rewrite IH. Qed.

Lemma take_app_length (a b : string) : Str.take (String.length a) (a +:+ b) = a.
Proof.
  induction a as [|x a IH]; [by destruct b|].
  rewrite app_cons. simpl. by rewrite IH.
Qed.

End StrFacts.

Lemma app_inv_tail (a b s : string) : a +:+ s = b +:+ s -> a = b.
Proof.
  revert b. induction a as [|x a IH]; intros [|y b] H.
  - done.
  - apply (f_equal String.length) in H.
    rewrite StrFacts.app_nil_l, StrFacts.app_cons in H. simpl in H.
    rewrite StrFacts.length_app in H. lia.
  - apply (f_equal String.length) in H.
    rewrite StrFacts.app_nil_l, StrFacts.app_cons in H. simpl in H.
    rewrite StrFacts.length_app in H. lia.
  - rewrite !StrFacts.app_cons in H. injection H as -> H. f_equal. by apply IH.
Qed.

Lemma span_unique (p : ascii -> bool) (w1 w2 : string) (c1 c2 : ascii)
    (x1 x2 : string) :
  all_in p w1 = true -> all_in p w2 = true -> p c1 = false -> p c2 = false ->
  w1 +:+ String c1 x1 = w2 +:+ String c2 x2 ->
  w1 = w2 /\ String c1 x1 = String c2 x2.
Proof.
  revert w2. induction w1 as [|a w1 IH]; intros [|b w2] H1 H2 Hc1 Hc2 H;
    simpl in H1, H2.
  - done.
  - rewrite StrFacts.app_nil_l, StrFacts.app_cons in H. injection H as -> _.
    apply andb_prop in H2 as [H2 _]. congruence.
  - rewrite StrFacts.app_nil_l, StrFacts.app_cons in H. injection H as -> _.
    apply andb_prop in H1 as [H1 _]. congruence.
  - rewrite !StrFacts.app_cons in H. injection H as -> H.
    apply andb_prop in H1 as [_ H1]. apply andb_prop in H2 as [_ H2].
    destruct (IH w2 H1 H2 Hc1 Hc2 H) as [-> ?]. done.
Qed.

Lemma last_char_cons (c : ascii) (s : string) :
  s <> "" -> last_char (String c s) = last_char s.
Proof. by destruct s. Qed.

(** ** Lists and results *)

Lemma elem_of_flat_map {A B : Type} (f : A -> list B) (l : list A) (y : B) :
  y ∈ flat_map f l <-> exists x, x ∈ l /\ y ∈ f x.
Proof.
  rewrite list_elem_of_In, in_flat_map.
  split; intros (x & H1 & H2); exists x; by rewrite ?list_elem_of_In in *.
Qed.

Lemma flat_map_singleton {A : Type} (l : list A) : flat_map (fun x => [x]) l = l.
Proof. induction l as [|x l IH]; simpl; [done|]. by rewrite IH. Qed.

Lemma flat_map_app' {A B : Type} (f : A -> list B) (l1 l2 : list A) :
  flat_map f (l1 ++ l2) = flat_map f l1 ++ flat_map f l2.
Proof. induction l1 as [|x l1 IH]; simpl; [done|]. by rewrite IH, app_assoc. Qed.

Lemma hd_app_cons {A : Type} (x : A) (l l' : list A) :
  (x :: l) ++ l' = x :: (l ++ l').
Proof. done. Qed.

Lemma filter_ext_elem_of {A : Type} (P Q : A -> Prop)
    `{!forall x, Decision (P x), !forall x, Decision (Q x)} (l : list A) :
  (forall x, x ∈ l -> P x <-> Q x) -> filter P l = filter Q l.
Proof.
  induction l as [|x l IH]; intros Hext; [done|].
  rewrite !filter_cons.
  assert (Hx : P x <-> Q x) by (apply Hext; left).
  rewrite IH by (intros y Hy; apply Hext; by right).
  destruct (decide (P x)), (decide (Q x)); tauto.
Qed.

Lemma filter_fmap {A B : Type} (f : A -> B) (P : B -> Prop)
    `{!forall y, Decision (P y)} (l : list A) :
  filter P (f <$> l) = f <$> filter (fun x => P (f x)) l.
Proof.
  induction l as [|x l IH]; [done|].
  rewrite fmap_cons, !filter_cons, IH. by destruct (decide (P (f x))).
Qed.

Lemma fmap_ext_elem_of {A B : Type} (f g : A -> B) (l : list A) :
  (forall x, x ∈ l -> f x = g x) -> f <$> l = g <$> l.
Proof.
  intros H. apply list_fmap_ext. intros i x Hx. apply H.
  by eapply list_elem_of_lookup_2.
Qed.

Lemma StronglySorted_filter {A : Type} (R : relation A) (P : A -> Prop)
    `{!forall x, Decision (P x)} (l : list A) :
  StronglySorted R l -> StronglySorted R (filter P l).
Proof.
  induction 1 as [|x l Hl IH Hx]; [constructor|].
  rewrite filter_cons. destruct (decide (P x)); [|done].
  constructor; [done|]. apply Forall_forall. intros y Hy.
  apply list_elem_of_filter in Hy as [_ Hy]. rewrite Forall_forall in Hx. auto.
Qed.

Lemma mapM_exists {A B : Type} (f : A -> result B) (l : list A) :
  (forall x, x ∈ l -> exists y, f x = Ok y) -> exists ys, mapM f l = Ok ys.
Proof.
  induction l as [|x l IH]; intros H; [by exists []|].
  destruct (H x) as [y Hy]; [left|].
  destruct IH as [ys Hys]; [intros z Hz; apply H; by right|].
  exists (y :: ys). simpl. by rewrite Hy, Hys.
Qed.

Lemma mapM_lookup {A B : Type} (f : A -> result B) (l : list A) (ys : list B) :
  mapM f l = Ok ys ->
  length ys = length l
  /\ forall i x, l !! i = Some x -> exists y, ys !! i = Some y /\ f x = Ok y.
Proof.
  revert ys. induction l as [|x l IH]; intros ys H.
  - simpl in H. injection H as <-. split; [done|]. intros i x Hx.
    by rewrite lookup_nil in Hx.
  - simpl in H. destruct (f x) as [y|] eqn:E; [|done]. simpl in H.
    destruct (mapM f l) as [ys'|]; [|done]. simpl in H. injection H as <-.
    destruct (IH ys' eq_refl) as [Hlen Hl]. split; [simpl; by rewrite Hlen|].
    intros [|i] z Hz; simpl in *.
    + injection Hz as <-. eauto.
    + by apply Hl.
Qed.

Lemma foldM_app {A B : Type} (f : B -> A -> result B) (b : B) (l1 l2 : list A) :
  foldM f b (l1 ++ l2) = (b' <- foldM f b l1 ;; foldM f b' l2).
Proof.
  revert b. induction l1 as [|x l1 IH]; intros b; simpl; [done|].
  destruct (f b x); simpl; [apply IH|done].
Qed.

Lemma foldM_fmap {A B C : Type} (f : B -> A -> result B) (g : C -> A) (b : B)
    (l : list C) :
  foldM f b (g <$> l) = foldM (fun b x => f b (g x)) b l.
Proof.
  revert b. induction l as [|x l IH]; intros b; simpl; [done|].
  destruct (f b (g x)); simpl; [apply IH|done].
Qed.

(** ** Sorting *)

Section sort_by.
Context {A : Type} (key : A -> string).

Lemma insert_by_Permutation (x : A) (l : list A) : insert_by key x l ≡ₚ x :: l.
Proof.
  induction l as [|y l IH]; simpl; [done|].
  destruct (String.leb (key x) (key y)); [done|].
  rewrite IH. apply Permutation_swap.
Qed.

Lemma sort_by_Permutation (l : list A) : sort_by key l ≡ₚ l.
Proof.
  induction l as [|x l IH]; simpl; [done|].
  by rewrite insert_by_Permutation, IH.
Qed.

Lemma key_le_total (x y : A) : key_le key x y \/ key_le key y x.
Proof. unfold key_le. destruct (total String.le (key x) (key y)); auto. Qed.

Lemma insert_by_HdRel (a x : A) (l : list A) :
  key_le key a x -> HdRel (key_le key) a l ->
  HdRel (key_le key) a (insert_by key x l).
Proof.
  intros Hax Hl. destruct l as [|y l]; simpl; [by constructor|].
  destruct (String.leb (key x) (key y)); constructor; [done|].
  by inversion Hl.
Qed.

Lemma insert_by_Sorted (x : A) (l : list A) :
  Sorted (key_le key) l -> Sorted (key_le key) (insert_by key x l).
Proof.
  induction 1 as [|y l Hl IH Hhd]; simpl; [by repeat constructor|].
  destruct (String.leb (key x) (key y)) eqn:E.
  - constructor; [by constructor|]. constructor. unfold key_le, String.le.
    by rewrite E.
  - constructor; [done|]. apply insert_by_HdRel; [|done].
    destruct (key_le_total x y) as [H|H]; [|done].
    unfold key_le, String.le in H. by rewrite E in H.
Qed.

Lemma sort_by_Sorted (l : list A) : Sorted (key_le key) (sort_by key l).
Proof.
  induction l as [|x l IH]; simpl; [constructor|]. by apply insert_by_Sorted.
Qed.

End sort_by.

Lemma sorted_Sorted (l : list string) : Sorted String.le (sorted l).
Proof. apply (sort_by_Sorted id). Qed.

Lemma sorted_Permutation (l : list string) : sorted l ≡ₚ l.
Proof. apply sort_by_Permutation. Qed.

(** Sorting forgets the order of its input. *)
Lemma sorted_perm (l1 l2 : list string) : l1 ≡ₚ l2 -> sorted l1 = sorted l2.
Proof.
  intros H. apply (Sorted_unique String.le); [apply sorted_Sorted..|].
  by rewrite !sorted_Permutation.
Qed.

(** The keys of the sorted list are the sorted keys. *)
Lemma sort_by_keys {A : Type} (key : A -> string) (l : list A) :
  key <$> sort_by key l = sorted (key <$> l).
Proof.
  apply (Sorted_unique String.le).
  - apply (Sorted_fmap _ (key_le key)); [done|]. apply sort_by_Sorted.
  - apply sorted_Sorted.
  - by rewrite sort_by_Permutation, sorted_Permutation.
Qed.

Global Instance key_le_Transitive {A : Type} (key : A -> string) :
  Transitive (key_le key).
Proof. intros x y z. unfold key_le. apply transitivity. Qed.

(** ** The rendered texts, in closed form *)

Lemma rstrip_cons (c : ascii) (t : string) :
  Str.rstrip t <> "" -> Str.rstrip (String c t) = String c (Str.rstrip t).
Proof. intros Ht. simpl. by destruct (Str.rstrip t). Qed.

Lemma rstrip_app (a t : string) :
  Str.rstrip t <> "" -> Str.rstrip (a +:+ t) = a +:+ Str.rstrip t.
Proof.
  intros Ht. induction a as [|c a IH]; [done|].
  rewrite !StrFacts.app_cons, rstrip_cons; [by rewrite IH|].
  rewrite IH. destruct a; [done|]. by rewrite StrFacts.app_cons.
Qed.

Lemma render_suite_text (s : suite) (index : nat) :
  _render_suite s index = Ok (descriptor_text s index).
Proof.
  unfold _render_suite, descriptor_text.
  generalize (str index), (Str.replace_char "_" "::" (name s)),
    (render_role (categorize s)), (render_role (initialize s)),
    (render_role (cleanup s)), (name s), (str (cb_count s)).
  intros v1 v2 v3 v4 v5 v6 v7.
  match goal with
  | |- bind (Template.substitute ?t ?kw) _ = Ok (?a +:+ ?z) =>
      assert (H : Template.substitute t kw
                  = Ok ((nl +:+ "    ") +:+ (a +:+ (z +:+ nl))))
        by (rewrite !StrFacts.app_assoc; vm_compute; reflexivity);
      rewrite H; simpl bind; f_equal; unfold Str.strip;
      change (Str.rstrip (a +:+ (z +:+ nl)) = a +:+ z)
  end.
  by rewrite rstrip_app.
Qed.

Lemma render_callbacks_text (suite_name : string) (callbacks : list callback) :
  _render_callbacks suite_name callbacks
  = Ok (callbacks_text suite_name callbacks).
Proof.
  unfold _render_callbacks, callbacks_text.
  generalize (Str.join ("," +:+ nl +:+ tab) (callback_entries callbacks)).
  intros v.
  match goal with
  | |- bind (Template.substitute ?t ?kw) _ = Ok (?a +:+ ?z) =>
      assert (H : Template.substitute t kw = Ok (nl +:+ (a +:+ (z +:+ nl))))
        by (rewrite !StrFacts.app_assoc; vm_compute; reflexivity);
      rewrite H; simpl bind; f_equal; unfold Str.strip;
      change (Str.rstrip (a +:+ (z +:+ nl)) = a +:+ z)
  end.
  by rewrite rstrip_app.
Qed.

(** ** The matcher finds only what the pattern matches *)

Lemma star_loop_sound (r : regex) (g : bool) :
  (forall st st', st' ∈ run r st -> matches r st st') ->
  forall n st st', st' ∈ star_loop (run r) g n st -> matches (Star g r) st st'.
Proof.
  intros IHr. induction n as [|n IH]; intros st st' H; simpl in H.
  - apply list_elem_of_singleton in H as ->. constructor.
  - assert (Hmore :
      st' ∈ flat_map
              (fun st1 =>
                 if Nat.ltb (String.length (rest st1)) (String.length (rest st))
                 then star_loop (run r) g n st1 else [])
              (run r st) -> matches (Star g r) st st').
    { rewrite elem_of_flat_map. intros (st1 & H1 & H2).
      destruct (Nat.ltb_spec (String.length (rest st1)) (String.length (rest st)));
        [|by apply elem_of_nil in H2].
      eapply matches_Star_S; eauto. }
    destruct g.
    + apply elem_of_app in H as [H|H]; [by apply Hmore|].
      apply list_elem_of_singleton in H as ->. constructor.
    + apply elem_of_cons in H as [->|H]; [constructor|by apply Hmore].
Qed.

Lemma run_sound (r : regex) (st st' : mstate) :
  st' ∈ run r st -> matches r st st'.
Proof.
  revert st st'. induction r as [|c|k| | |r1 IH1 r2 IH2|r1 IH1 r2 IH2|g r IH|i r IH];
    intros st st' H; simpl in H.
  - apply list_elem_of_singleton in H as ->. constructor.
  - destruct (rest st) as [|a s] eqn:E; [by apply elem_of_nil in H|].
    destruct (Ascii.eqb_spec a c) as [->|]; [|by apply elem_of_nil in H].
    apply list_elem_of_singleton in H as ->. by constructor.
  - destruct (rest st) as [|a s] eqn:E; [by apply elem_of_nil in H|].
    destruct (cclass_mem k a) eqn:Ek; [|by apply elem_of_nil in H].
    apply list_elem_of_singleton in H as ->. by constructor.
  - destruct (at_bol st) eqn:E; [|by apply elem_of_nil in H].
    apply list_elem_of_singleton in H as ->. by constructor.
  - destruct (at_eol st) eqn:E; [|by apply elem_of_nil in H].
    apply list_elem_of_singleton in H as ->. by constructor.
  - apply elem_of_flat_map in H as (st1 & H1 & H2). econstructor; eauto.
  - apply elem_of_app in H as [H|H]; [apply matches_Alt_l|apply matches_Alt_r]; auto.
  - by apply (star_loop_sound r g IH) in H.
  - apply list_elem_of_fmap in H as (st1 & -> & H1). constructor. auto.
Qed.

Lemma reads_trans (w1 w2 : string) (a b c : mstate) :
  reads w1 a b -> reads w2 b c -> reads (w1 +:+ w2) a c.
Proof. unfold reads. intros -> ->. by rewrite StrFacts.app_assoc. Qed.

Lemma consumed_reads (w : string) (st st' : mstate) :
  reads w st st' -> consumed st st' = w.
Proof.
  unfold reads, consumed. intros ->. rewrite StrFacts.length_app.
  replace (String.length w + String.length (rest st') - String.length (rest st'))
    with (String.length w) by lia.
  apply StrFacts.take_app_length.
Qed.

Lemma matches_Chr_inv (c : ascii) (st st' : mstate) :
  matches (Chr c) st st' ->
  reads (String c "") st st' /\ groups st' = groups st.
Proof. inversion 1; subst. unfold reads. simpl. by rewrite H1. Qed.

Lemma matches_Cls_inv (k : cclass) (st st' : mstate) :
  matches (Cls k) st st' ->
  exists c, cclass_mem k c = true
            /\ reads (String c "") st st' /\ groups st' = groups st.
Proof. inversion 1; subst. exists c. unfold reads. simpl. by rewrite H1. Qed.

Lemma matches_lit_inv (s : string) (st st' : mstate) :
  matches (lit s) st st' -> reads s st st' /\ groups st' = groups st.
Proof.
  revert st. induction s as [|c s IH]; intros st H; simpl in H.
  - by inversion H; subst.
  - inversion H as [| | | | |? ? ? st1 ? H1 H2| | | | |]; subst.
    apply matches_Chr_inv in H1 as [H1 G1]. apply IH in H2 as [H2 G2].
    split; [|congruence]. apply (reads_trans (String c "") s _ st1); done.
Qed.

Lemma matches_Star_Cls_inv (g : bool) (k : cclass) (st st' : mstate) :
  matches (Star g (Cls k)) st st' ->
  exists w, all_in (cclass_mem k) w = true
            /\ reads w st st' /\ groups st' = groups st.
Proof.
  intros H. remember (Star g (Cls k)) as r eqn:Er.
  induction H as [| | | | | | | |g' r' st|g' r' st st1 st2 H1 _ Hlt H2 IH2|];
    try discriminate Er.
  - exists "". done.
  - injection Er as -> ->.
    destruct (IH2 eq_refl) as (w & Hw & Hr & Hg).
    apply matches_Cls_inv in H1 as (c & Hc & Hr1 & Hg1).
    exists (String c w). split; [simpl; by rewrite Hc, Hw|].
    split; [|congruence]. apply (reads_trans (String c "") w _ st1); done.
Qed.

Lemma matches_Plus_Cls_inv (g : bool) (k : cclass) (st st' : mstate) :
  matches (Plus g (Cls k)) st st' ->
  exists w, w <> "" /\ all_in (cclass_mem k) w = true
            /\ reads w st st' /\ groups st' = groups st.
Proof.
  unfold Plus. inversion 1 as [| | | | |? ? ? st1 ? H1 H2| | | | |]; subst.
  apply matches_Cls_inv in H1 as (c & Hc & Hr1 & Hg1).
  apply matches_Star_Cls_inv in H2 as (w & Hw & Hr & Hg).
  exists (String c w). split; [done|]. split; [simpl; by rewrite Hc, Hw|].
  split; [|congruence]. apply (reads_trans (String c "") w _ st1); done.
Qed.

Lemma matches_Grp_inv (i : nat) (r : regex) (st st'' : mstate) :
  matches (Grp i r) st st'' ->
  exists st', matches r st st' /\ rest st'' = rest st'
              /\ groups st'' = (i, consumed st st') :: groups st'.
Proof. inversion 1; subst. eauto. Qed.

Lemma matches_Cat_inv (r1 r2 : regex) (st st'' : mstate) :
  matches (Cat r1 r2) st st'' ->
  exists st', matches r1 st st' /\ matches r2 st' st''.
Proof. inversion 1; subst. eauto. Qed.

Lemma matches_Eps_inv (st st' : mstate) : matches Eps st st' -> st' = st.
Proof. by inversion 1. Qed.

Lemma matches_Bol_inv (st st' : mstate) :
  matches Bol st st' -> st' = st /\ at_bol st = true.
Proof. by inversion 1. Qed.

Lemma matches_name_inv (suite_name : string) (r : regex) (st st' : mstate) :
  name_pattern suite_name = Some r ->
  matches r st st' ->
  exists seg, fits_name suite_name seg
              /\ reads seg st st' /\ groups st' = groups st.
Proof.
  revert r st. induction suite_name as [|c n IH]; intros r st Hr H; simpl in Hr.
  - injection Hr as <-. apply matches_Eps_inv in H as ->. by exists "".
  - destruct (name_pattern n) as [r'|]; [|done].
    destruct (Ascii.eqb c ".") eqn:Edot.
    + injection Hr as <-. apply matches_Cat_inv in H as (st1 & H1 & H2).
      apply matches_Cls_inv in H1 as (a & Ha & Hr1 & Hg1).
      destruct (IH r' st1 eq_refl H2) as (seg & Hfit & Hr2 & Hg2).
      exists (String a seg). split.
      * simpl. rewrite Edot. split; [|done]. simpl in Ha.
        destruct (Ascii.eqb_spec a Str.newline); done.
      * split; [|congruence]. apply (reads_trans (String a "") seg _ st1); done.
    + destruct (is_meta c); [done|]. injection Hr as <-.
      apply matches_Cat_inv in H as (st1 & H1 & H2).
      apply matches_Chr_inv in H1 as [Hr1 Hg1].
      destruct (IH r' st1 eq_refl H2) as (seg & Hfit & Hr2 & Hg2).
      exists (String c seg). split.
      * simpl. by rewrite Edot.
      * split; [|congruence]. apply (reads_trans (String c "") seg _ st1); done.
Qed.

Lemma fits_plain_name (suite_name seg : string) :
  plain_name suite_name -> fits_name suite_name seg -> seg = suite_name.
Proof.
  unfold plain_name. revert seg.
  induction suite_name as [|c n IH]; intros [|a seg] Hp Hf; simpl in *; try done.
  apply andb_prop in Hp as [Hc Hn]. destruct Hf as [Hf1 Hf2].
  destruct (Ascii.eqb_spec c ".") as [->|]; [done|].
  subst a. f_equal. by apply IH.
Qed.

Lemma plain_name_pattern (suite_name : string) :
  plain_name suite_name -> name_pattern suite_name = Some (lit suite_name).
Proof.
  unfold plain_name. induction suite_name as [|c n IH]; intros Hp; simpl in *;
    [done|].
  apply andb_prop in Hp as [Hc Hn]. rewrite (IH Hn).
  destruct (Ascii.eqb_spec c ".") as [->|]; [done|].
  by destruct (is_meta c).
Qed.

(** ** The matcher finds everything the pattern matches *)

Lemma star_loop_here (step : mstate -> list mstate) (g : bool) (n : nat)
    (st : mstate) :
  st ∈ star_loop step g n st.
Proof.
  destruct n as [|n]; simpl; [left|].
  destruct g; [apply elem_of_app; right|]; left.
Qed.

Lemma run_complete_star (r : regex) (st st' : mstate) :
  matches r st st' ->
  st' ∈ run r st
  /\ forall g r0 n,
       r = Star g r0 -> String.length (rest st) <= n ->
       st' ∈ star_loop (run r0) g n st.
Proof.
  induction 1 as [st|c s st E|k c s st E Hk|st E|st E
                 |r1 r2 st st1 st2 _ [IH1 _] _ [IH2 _]
                 |r1 r2 st st1 _ [IH _]|r1 r2 st st1 _ [IH _]
                 |g r st|g r st st1 st2 _ [IH1 _] Hlt _ [_ IH2]
                 |i r st st1 _ [IH _]].
  - split; [left|done].
  - split; [|done]. simpl. rewrite E, Ascii.eqb_refl. left.
  - split; [|done]. simpl. rewrite E, Hk. left.
  - split; [|done]. simpl. rewrite E. left.
  - split; [|done]. simpl. rewrite E. left.
  - split; [|done]. simpl. apply elem_of_flat_map. eauto.
  - split; [|done]. simpl. apply elem_of_app. auto.
  - split; [|done]. simpl. apply elem_of_app. auto.
  - split; [apply star_loop_here|]. intros g' r0 n [= -> ->] _.
    apply star_loop_here.
  - assert (Hloop : forall n, String.length (rest st) <= n ->
                      st2 ∈ star_loop (run r) g n st).
    { intros [|n] Hn; [lia|]. simpl.
      assert (Hmore :
        st2 ∈ flat_map
                (fun st0 =>
                   if Nat.ltb (String.length (rest st0)) (String.length (rest st))
                   then star_loop (run r) g n st0 else [])
                (run r st)).
      { apply elem_of_flat_map. exists st1. split; [done|].
        destruct (Nat.ltb_spec (String.length (rest st1))
                    (String.length (rest st))); [|lia].
        apply (IH2 g r n eq_refl). lia. }
      destruct g; [apply elem_of_app; by left|by right]. }
    split; [by apply Hloop|]. intros g' r0 n [= -> ->]. apply Hloop.
  - split; [|done]. simpl. by apply list_elem_of_fmap_2.
Qed.

Lemma run_complete (r : regex) (st st' : mstate) :
  matches r st st' -> st' ∈ run r st.
Proof. intros H. by apply run_complete_star in H as [H _]. Qed.

(** ** A definition of the expected shape is matched where it stands *)

Lemma matches_Chr_intro (c : ascii) (x : string) (st : mstate) :
  rest st = String c x -> exists st', matches (Chr c) st st' /\ rest st' = x.
Proof. intros H. exists (advance c x st). split; [by constructor|done]. Qed.

Lemma matches_lit_intro (s x : string) (st : mstate) :
  rest st = s +:+ x -> exists st', matches (lit s) st st' /\ rest st' = x.
Proof.
  revert st. induction s as [|c s IH]; intros st H.
  - exists st. split; [constructor|done].
  - rewrite StrFacts.app_cons in H.
    destruct (matches_Chr_intro c _ st H) as (st1 & H1 & E1).
    destruct (IH st1 E1) as (st2 & H2 & E2).
    exists st2. split; [|done]. simpl. econstructor; eauto.
Qed.

Lemma matches_Star_Cls_intro (g : bool) (k : cclass) (w x : string) (st : mstate) :
  all_in (cclass_mem k) w = true -> rest st = w +:+ x ->
  exists st', matches (Star g (Cls k)) st st' /\ rest st' = x.
Proof.
  revert st. induction w as [|c w IH]; intros st Hw H.
  - exists st. split; [constructor|done].
  - simpl in Hw. apply andb_prop in Hw as [Hc Hw].
    rewrite StrFacts.app_cons in H.
    destruct (IH (advance c (w +:+ x) st) Hw eq_refl) as (st2 & H2 & E2).
    exists st2. split; [|done].
    eapply matches_Star_S; [by constructor| |done].
    rewrite H. simpl. lia.
Qed.

Lemma matches_Plus_Cls_intro (g : bool) (k : cclass) (w x : string) (st : mstate) :
  w <> "" -> all_in (cclass_mem k) w = true -> rest st = w +:+ x ->
  exists st', matches (Plus g (Cls k)) st st' /\ rest st' = x.
Proof.
  intros Hne Hw H. destruct w as [|c w]; [done|].
  simpl in Hw. apply andb_prop in Hw as [Hc Hw].
  rewrite StrFacts.app_cons in H.
  destruct (matches_Star_Cls_intro g k w x (advance c (w +:+ x) st) Hw eq_refl)
    as (st2 & H2 & E2).
  exists st2. split; [|done]. unfold Plus. econstructor; [by constructor|done].
Qed.

Lemma can_read_Eps (x : string) : can_read Eps x x.
Proof. intros st H. exists st. split; [constructor|done]. Qed.

Lemma can_read_Chr (c : ascii) (x : string) :
  can_read (Chr c) (String c "" +:+ x) x.
Proof. intros st H. by apply matches_Chr_intro. Qed.

Lemma can_read_lit (s x : string) : can_read (lit s) (s +:+ x) x.
Proof. intros st H. by apply matches_lit_intro. Qed.

Lemma can_read_Star_Cls (g : bool) (k : cclass) (w x : string) :
  all_in (cclass_mem k) w = true -> can_read (Star g (Cls k)) (w +:+ x) x.
Proof. intros Hw st H. by apply matches_Star_Cls_intro with w. Qed.

Lemma can_read_Plus_Cls (g : bool) (k : cclass) (w x : string) :
  w <> "" -> all_in (cclass_mem k) w = true ->
  can_read (Plus g (Cls k)) (w +:+ x) x.
Proof. intros Hne Hw st H. by apply matches_Plus_Cls_intro with w. Qed.

Lemma can_read_Cat (r1 r2 : regex) (y z x : string) :
  can_read r1 y z -> can_read r2 z x -> can_read (Cat r1 r2) y x.
Proof.
  intros H1 H2 st Hst. destruct (H1 st Hst) as (st1 & M1 & E1).
  destruct (H2 st1 E1) as (st2 & M2 & E2). exists st2. split; [|done].
  econstructor; eauto.
Qed.

Lemma can_read_Grp (i : nat) (r : regex) (y x : string) :
  can_read r y x -> can_read (Grp i r) y x.
Proof.
  intros H st Hst. destruct (H st Hst) as (st1 & M1 & E1).
  exists (set_group i st st1). split; [by constructor|done].
Qed.

(** Reads a text through a pattern, one item of the pattern after the other;
    the white space and the names are taken from the context. *)
Ltac read_item :=
  first [ apply can_read_lit | apply can_read_Chr
        | by apply can_read_Star_Cls | by apply can_read_Plus_Cls
        | apply can_read_Grp; first [ read_item | read_chain ] ]
with read_chain :=
  first [ apply can_read_Eps | eapply can_read_Cat; [ read_item | read_chain ] ].

(** ** The comment pattern against the direct scan *)

Lemma run_Cat_Eps (r : regex) (st : mstate) : run (Cat r Eps) st = run r st.
Proof. simpl. apply flat_map_singleton. Qed.

Lemma lazy_any_step (n : nat) (st : mstate) :
  star_loop (run ANY) false (S n) st
  = st :: match rest st with
          | "" => []
          | String a s => star_loop (run ANY) false n (advance a s st)
          end.
Proof.
  cbn [star_loop]. f_equal. unfold ANY. cbn [run].
  destruct (rest st) as [|a s]; [done|].
  cbn [cclass_mem flat_map advance rest].
  assert (E : Nat.ltb (String.length s) (String.length (String a s)) = true)
    by (apply Nat.ltb_lt; simpl; lia).
  rewrite E. by rewrite app_nil_r.
Qed.

(** [.*?$]: the first line end. *)
Lemma lazy_any_eol (n : nat) (st : mstate) :
  String.length (rest st) <= n ->
  exists m l,
    flat_map (run (Cat Eol Eps)) (star_loop (run ANY) false n st) = m :: l
    /\ rest m = (line_end (rest st)).2.
Proof.
  revert st. induction n as [|n IH]; intros st Hn.
  - destruct (rest st) as [|a s] eqn:E; [|simpl in Hn; lia].
    exists st, []. simpl. unfold at_eol. by rewrite E.
  - destruct (rest st) as [|a s] eqn:E.
    + exists st. simpl. unfold at_eol. rewrite E. simpl. eauto.
    + rewrite lazy_any_step, E.
      cbn [flat_map]. rewrite run_Cat_Eps. simpl run. unfold at_eol. rewrite E.
      simpl line_end. destruct (Ascii.eqb a Str.newline).
      * simpl. eauto.
      * simpl app.
        destruct (IH (advance a s st)) as (m & l & Hm & Hr);
          [simpl in *; lia|].
        exists m, l. split; [done|]. rewrite Hr. simpl.
        by destruct (line_end s).
Qed.

Lemma run_close (st : mstate) :
  run (lit "*/") st
  = match rest st with
    | String c (String d r) =>
        if Ascii.eqb c "*" && Ascii.eqb d "/"
        then [advance d r (advance c (String d r) st)] else []
    | _ => []
    end.
Proof.
  simpl. destruct (rest st) as [|c [|d r]]; [done| |].
  - by destruct (Ascii.eqb c "*").
  - destruct (Ascii.eqb c "*"); [|done]. simpl.
    by destruct (Ascii.eqb d "/").
Qed.

(** [.*?\*/]: the first [*/]. *)
Lemma lazy_any_close (n : nat) (st : mstate) :
  String.length (rest st) <= n ->
  match block_end (rest st) with
  | Some (b, r) =>
      exists m l,
        flat_map (run (lit "*/")) (star_loop (run ANY) false n st) = m :: l
        /\ rest m = r
  | None => flat_map (run (lit "*/")) (star_loop (run ANY) false n st) = []
  end.
Proof.
  revert st. induction n as [|n IH]; intros st Hn.
  - destruct (rest st) as [|a s] eqn:E; [|simpl in Hn; lia].
    simpl. rewrite E. done.
  - rewrite lazy_any_step. cbn [flat_map]. rewrite run_close.
    destruct (rest st) as [|c x] eqn:E; [done|].
    specialize (IH (advance c x st)). simpl rest in IH.
    assert (Hx : String.length x <= n) by (simpl in Hn; lia).
    specialize (IH Hx). cbn [block_end].
    destruct x as [|d r].
    + simpl in IH. simpl. by rewrite IH.
    + destruct (Ascii.eqb c "*" && Ascii.eqb d "/").
      * simpl. eauto.
      * simpl app. destruct (block_end (String d r)) as [[b r']|]; [|done].
        done.
Qed.

Lemma run_item (q : ascii) (st : mstate) :
  Ascii.eqb q "\" = false ->
  run (ITEM q) st
  = match rest st with
    | "" => []
    | String c x =>
        if Ascii.eqb c "\" then
          match x with
          | "" => []
          | String d y => [advance d y (advance c x st)]
          end
        else if Ascii.eqb c q then []
        else [advance c x st]
    end.
Proof.
  intros Hq. unfold ITEM. simpl. destruct (rest st) as [|c x]; [done|].
  destruct (Ascii.eqb c "\") eqn:Ec.
  - simpl. rewrite app_nil_r. by destruct x.
  - simpl. by destruct (Ascii.eqb c q).
Qed.

Lemma greedy_step (step : mstate -> list mstate) (n : nat) (st st1 : mstate) :
  step st = [st1] ->
  String.length (rest st1) < String.length (rest st) ->
  star_loop step true (S n) st = star_loop step true n st1 ++ [st].
Proof.
  intros Hstep Hlt. cbn [star_loop]. rewrite Hstep. cbn [flat_map].
  apply Nat.ltb_lt in Hlt. rewrite Hlt. by rewrite app_nil_r.
Qed.

Lemma greedy_stop (step : mstate -> list mstate) (n : nat) (st : mstate) :
  step st = [] -> star_loop step true n st = [st].
Proof. intros Hstep. destruct n; [done|]. cbn [star_loop]. by rewrite Hstep. Qed.

(** [(?:\\.|[^\\q])*q]: the items up to the closing quote. *)
Lemma greedy_items_quote (q : ascii) (n : nat) (st : mstate) :
  Ascii.eqb q "\" = false ->
  String.length (rest st) <= n ->
  match quoted_end q (rest st) with
  | Some (b, r) =>
      exists m,
        flat_map (run (Cat (Chr q) Eps)) (star_loop (run (ITEM q)) true n st) = [m]
        /\ rest m = r
  | None =>
      flat_map (run (Cat (Chr q) Eps)) (star_loop (run (ITEM q)) true n st) = []
  end.
Proof.
  intros Hq. revert st. induction n as [|n IH]; intros st Hn.
  - destruct (rest st) as [|a s] eqn:E; [|simpl in Hn; lia].
    cbn [star_loop flat_map]. rewrite run_Cat_Eps. simpl. by rewrite E.
  - pose proof (run_item q st Hq) as Hitem.
    destruct (rest st) as [|c x] eqn:E.
    { rewrite greedy_stop by done. cbn [flat_map]. rewrite run_Cat_Eps.
      simpl. by rewrite E. }
    assert (Hk : run (Cat (Chr q) Eps) st
                 = if Ascii.eqb c q then [advance c x st] else []).
    { rewrite run_Cat_Eps. simpl. by rewrite E. }
    cbn [quoted_end].
    destruct (Ascii.eqb c q) eqn:Ecq.
    { assert (Ec : Ascii.eqb c "\" = false).
      { apply Ascii.eqb_eq in Ecq. by subst c. }
      rewrite Ec in Hitem. rewrite greedy_stop by done.
      cbn [flat_map]. rewrite Hk. simpl. eauto. }
    destruct (Ascii.eqb c "\") eqn:Ec.
    + destruct x as [|d y].
      { rewrite greedy_stop by done. cbn [flat_map]. by rewrite Hk. }
      rewrite (greedy_step _ _ _ _ Hitem) by (rewrite E; simpl; lia).
      rewrite flat_map_app'. cbn [flat_map]. rewrite Hk, !app_nil_r.
      specialize (IH (advance d y (advance c (String d y) st))).
      simpl rest in IH.
      assert (Hy : String.length y <= n) by (simpl in Hn; lia).
      specialize (IH Hy).
      by destruct (quoted_end q y) as [[b r]|].
    + rewrite (greedy_step _ _ _ _ Hitem) by (rewrite E; simpl; lia).
      rewrite flat_map_app'. cbn [flat_map]. rewrite Hk, !app_nil_r.
      specialize (IH (advance c x st)). simpl rest in IH.
      assert (Hx : String.length x <= n) by (simpl in Hn; lia).
      specialize (IH Hx).
      by destruct (quoted_end q x) as [[b r]|].
Qed.

Lemma flat_map_run_Cat_Eps (r : regex) (l : list mstate) :
  flat_map (run (Cat r Eps)) l = flat_map (run r) l.
Proof. apply flat_map_ext. intros st. apply run_Cat_Eps. Qed.

Lemma run_lit2 (a b : ascii) (st : mstate) :
  run (lit (String a (String b ""))) st
  = match rest st with
    | String c (String d r) =>
        if Ascii.eqb c a && Ascii.eqb d b
        then [advance d r (advance c (String d r) st)] else []
    | _ => []
    end.
Proof.
  simpl. destruct (rest st) as [|c [|d r]]; [done| |].
  - by destruct (Ascii.eqb c a).
  - destruct (Ascii.eqb c a); [|done]. simpl. by destruct (Ascii.eqb d b).
Qed.

Lemma run_Cat (r1 r2 : regex) (st : mstate) :
  run (Cat r1 r2) st = flat_map (run r2) (run r1 st).
Proof. done. Qed.

Lemma run_Chr (c : ascii) (st : mstate) :
  run (Chr c) st
  = match rest st with
    | String a s => if Ascii.eqb a c then [advance a s st] else []
    | "" => []
    end.
Proof. done. Qed.

Lemma run_Alt (r1 r2 : regex) (st : mstate) :
  run (Alt r1 r2) st = run r1 st ++ run r2 st.
Proof. done. Qed.

Lemma run_Star (g : bool) (r : regex) (st : mstate) :
  run (Star g r) st = star_loop (run r) g (String.length (rest st)) st.
Proof. done. Qed.

Lemma run_line_comment (st : mstate) :
  match rest st with
  | String c (String d y) =>
      if Ascii.eqb c "/" && Ascii.eqb d "/" then
        exists m l, run line_comment st = m :: l /\ rest m = (line_end y).2
      else run line_comment st = []
  | _ => run line_comment st = []
  end.
Proof.
  unfold line_comment, cats. cbn [foldr]. rewrite run_Cat, run_lit2.
  destruct (rest st) as [|c [|d y]]; [done..|].
  destruct (Ascii.eqb c "/" && Ascii.eqb d "/"); [|done].
  cbn [flat_map]. rewrite app_nil_r, run_Cat, run_Star.
  by apply (lazy_any_eol _ (advance d y (advance c (String d y) st))).
Qed.

Lemma run_block_comment (st : mstate) :
  match rest st with
  | String c (String d y) =>
      if Ascii.eqb c "/" && Ascii.eqb d "*" then
        match block_end y with
        | Some (b, r) => exists m l, run block_comment st = m :: l /\ rest m = r
        | None => run block_comment st = []
        end
      else run block_comment st = []
  | _ => run block_comment st = []
  end.
Proof.
  unfold block_comment, cats. cbn [foldr]. rewrite run_Cat, run_lit2.
  destruct (rest st) as [|c [|d y]]; [done..|].
  destruct (Ascii.eqb c "/" && Ascii.eqb d "*"); [|done].
  cbn [flat_map]. rewrite app_nil_r, run_Cat, run_Star, flat_map_run_Cat_Eps.
  by apply (lazy_any_close _ (advance d y (advance c (String d y) st))).
Qed.

Lemma run_quoted (q : ascii) (st : mstate) :
  Ascii.eqb q "\" = false ->
  match rest st with
  | String c x =>
      if Ascii.eqb c q then
        match quoted_end q x with
        | Some (b, r) => exists m, run (quoted q) st = [m] /\ rest m = r
        | None => run (quoted q) st = []
        end
      else run (quoted q) st = []
  | "" => run (quoted q) st = []
  end.
Proof.
  intros Hq. unfold quoted, cats. cbn [foldr]. rewrite run_Cat, run_Chr.
  fold (ITEM q). destruct (rest st) as [|c x]; [done|].
  destruct (Ascii.eqb c q); [|done].
  cbn [flat_map]. rewrite app_nil_r, run_Cat, run_Star.
  by apply (greedy_items_quote q _ (advance c x st)).
Qed.

(** At every position the first match of [SKIP_COMMENTS_REGEX] is the span
    the direct scan finds there, and there is no match where it finds none. *)
Lemma skip_head (st : mstate) :
  match span_at (rest st) with
  | Some (k, t, r) =>
      exists m l, run SKIP_COMMENTS_REGEX st = m :: l /\ rest m = r
  | None => run SKIP_COMMENTS_REGEX st = []
  end.
Proof.
  unfold SKIP_COMMENTS_REGEX. rewrite !run_Alt.
  pose proof (run_line_comment st) as Hl.
  pose proof (run_block_comment st) as Hb.
  pose proof (run_quoted "'" st eq_refl) as Hq1.
  pose proof (run_quoted Str.dquote st eq_refl) as Hq2.
  generalize dependent (run line_comment st). intros L Hl.
  generalize dependent (run block_comment st). intros B Hb.
  generalize dependent (run (quoted "'") st). intros Q1 Hq1.
  generalize dependent (run (quoted Str.dquote) st). intros Q2 Hq2.
  unfold span_at, quoted_span.
  destruct (rest st) as [|c x]; [by rewrite Hl, Hb, Hq1, Hq2|].
  destruct (Ascii.eqb_spec c "/") as [->|Hc].
  - simpl in Hq1, Hq2. rewrite Hq1, Hq2, !app_nil_r.
    destruct x as [|d y]; [by rewrite Hl, Hb|].
    simpl in Hl, Hb.
    destruct (Ascii.eqb d "/") eqn:Ed1.
    + destruct Hl as (m & l & -> & Hr). destruct (line_end y) as [b r].
      exists m. eexists. split; [apply hd_app_cons|done].
    + rewrite Hl. destruct (Ascii.eqb d "*"); [|done].
      destruct (block_end y) as [[b r]|]; [|done].
      destruct Hb as (m & l & -> & Hr). exists m, l. done.
  - assert (Hl' : L = []) by (by destruct x).
    assert (Hb' : B = []) by (by destruct x).
    rewrite Hl', Hb'. simpl app.
    destruct (Ascii.eqb_spec c "'") as [->|Hc1].
    + simpl in Hq2. rewrite Hq2, app_nil_r. simpl in Hq1.
      destruct (quoted_end "'" x) as [[b r]|]; [|done].
      destruct Hq1 as (m & -> & Hr). eauto.
    + rewrite Hq1. simpl app.
      destruct (Ascii.eqb_spec c Str.dquote) as [->|]; [|done].
      destruct (quoted_end Str.dquote x) as [[b r]|]; [|done].
      destruct Hq2 as (m & -> & Hr). eauto.
Qed.

(** ** What the direct scan finds *)

Lemma line_end_spec (x : string) :
  x = (line_end x).1 +:+ (line_end x).2
  /\ all_in (fun c => negb (Ascii.eqb c Str.newline)) (line_end x).1 = true
  /\ ((line_end x).2 = "" \/ exists r, (line_end x).2 = String Str.newline r).
Proof.
  induction x as [|c x (IH1 & IH2 & IH3)]; simpl; [auto|].
  destruct (Ascii.eqb_spec c Str.newline) as [->|Hc].
  - simpl. eauto.
  - destruct (line_end x) as [b r]. simpl in *.
    rewrite StrFacts.app_cons, <- IH1. split; [done|]. split; [|done].
    apply Ascii.eqb_neq in Hc. by rewrite Hc.
Qed.

Lemma block_end_spec (x b r : string) :
  block_end x = Some (b, r) -> x = b +:+ "*/" +:+ r.
Proof.
  revert b. induction x as [|c x IH]; intros b H; [done|].
  cbn [block_end] in H.
  assert (Hlater : match block_end x with
                   | Some (b0, r0) => Some (String c b0, r0)
                   | None => None
                   end = Some (b, r) -> String c x = b +:+ "*/" +:+ r).
  { destruct (block_end x) as [[b0 r0]|]; [|done]. intros [= <- <-].
    by rewrite StrFacts.app_cons, <- (IH b0 eq_refl). }
  destruct x as [|d y]; [by apply Hlater|].
  destruct (Ascii.eqb_spec c "*") as [->|]; [|by apply Hlater].
  destruct (Ascii.eqb_spec d "/") as [->|]; [|by apply Hlater].
  simpl in H. by injection H as <- <-.
Qed.

Lemma quoted_end_spec (q : ascii) (n : nat) (x b r : string) :
  String.length x <= n ->
  quoted_end q x = Some (b, r) -> x = b +:+ String q r.
Proof.
  revert x b. induction n as [|n IH]; intros x b Hn H.
  - destruct x; [done|simpl in Hn; lia].
  - destruct x as [|c x]; [done|]. simpl in H.
    destruct (Ascii.eqb_spec c q) as [->|]; [by injection H as <- <-|].
    destruct (Ascii.eqb c "\").
    + destruct x as [|d y]; [done|].
      destruct (quoted_end q y) as [[b0 r0]|] eqn:E; [|done].
      injection H as <- <-. rewrite !StrFacts.app_cons.
      rewrite <- (IH y b0); [done| |done]. simpl in Hn. lia.
    + destruct (quoted_end q x) as [[b0 r0]|] eqn:E; [|done].
      injection H as <- <-. rewrite !StrFacts.app_cons.
      rewrite <- (IH x b0); [done| |done]. simpl in Hn. lia.
Qed.

Lemma span_at_text (s t r : string) (k : span_kind) :
  span_at s = Some (k, t, r) ->
  s = t +:+ r /\ t <> "" /\ Str.startswith "/" t = is_comment k.
Proof.
  unfold span_at, quoted_span. destruct s as [|c x]; [done|].
  destruct (Ascii.eqb_spec c "/") as [->|Hc].
  - destruct x as [|d y]; [done|].
    destruct (Ascii.eqb_spec d "/") as [->|].
    + destruct (line_end_spec y) as [Hy _]. destruct (line_end y) as [b r'].
      intros [= <- <- <-]. simpl in Hy. split; [|done].
      rewrite StrFacts.app_assoc, <- Hy. done.
    + destruct (Ascii.eqb_spec d "*") as [->|]; [|done].
      destruct (block_end y) as [[b r']|] eqn:E; [|done].
      intros [= <- <- <-]. apply block_end_spec in E. split; [|done].
      rewrite !StrFacts.app_assoc, <- E. done.
  - assert (Hq : forall k', match quoted_end c x with
                       | Some (b, r0) => Some (k', String c b +:+ String c "", r0)
                       | None => None
                       end = Some (k, t, r) ->
                 k = k' /\ String c x = t +:+ r /\ t <> ""
                 /\ Str.startswith "/" t = false).
    { intros k'. destruct (quoted_end c x) as [[b r']|] eqn:E; [|done].
      intros [= <- <- <-].
      apply (quoted_end_spec c (String.length x)) in E; [|done].
      rewrite StrFacts.app_assoc, !StrFacts.app_cons, StrFacts.app_nil_l, <- E.
      split; [done|]. split; [done|]. split; [done|].
      cbn [Str.startswith].
      destruct (Ascii.eqb_spec "/" c) as [E'|]; [by subst c|done]. }
    destruct (Ascii.eqb c "'").
    + intros H. by destruct (Hq _ H) as (-> & ? & ? & ?).
    + destruct (Ascii.eqb c Str.dquote); [|done].
      intros H. by destruct (Hq _ H) as (-> & ? & ? & ?).
Qed.

Lemma concat_strings_cons (x : string) (l : list string) :
  concat_strings (x :: l) = x +:+ concat_strings l.
Proof. done. Qed.

Lemma tokenized_text (s : string) (toks : list token) :
  tokenized s toks -> concat_strings (token_text <$> toks) = s.
Proof.
  induction 1 as [|s k t r toks Hspan _ IH|c s toks _ _ IH];
    rewrite ?fmap_cons, ?concat_strings_cons.
  - done.
  - apply span_at_text in Hspan as [-> _]. by rewrite IH.
  - by rewrite IH.
Qed.

(** The pieces [re.sub] cuts a text into with [SKIP_COMMENTS_REGEX] are the
    tokens of the direct scan, and [_replacer] keeps of each what
    [token_kept] keeps. *)
Lemma skip_pieces (n : nat) (p : option ascii) (s : string) :
  String.length s < n ->
  exists toks,
    tokenized s toks
    /\ foldr (fun p acc =>
                match p with
                | Matched t _ => _replacer t +:+ acc
                | Plain c => String c acc
                end) "" (pieces_from SKIP_COMMENTS_REGEX n p s)
       = concat_strings (token_kept <$> toks).
Proof.
  revert p s. induction n as [|n IH]; intros p s Hn; [lia|].
  cbn [pieces_from].
  pose proof (skip_head {| prev := p; rest := s; groups := [] |}) as Hhead.
  cbn [rest] in Hhead.
  destruct (span_at s) as [[[k t] r]|] eqn:Hspan.
  - destruct Hhead as (m & l & -> & Hr).
    destruct (span_at_text _ _ _ _ Hspan) as (Hs & Ht & Hstart).
    assert (Hlt : String.length r < String.length s).
    { rewrite Hs, StrFacts.length_app. destruct t; [done|]. simpl. lia. }
    rewrite Hr. apply Nat.ltb_lt in Hlt as Hlt'. rewrite Hlt'.
    destruct (IH (prev m) r) as (toks & Htok & Hfold); [lia|].
    exists (Span k t :: toks). split; [by econstructor|].
    cbn [foldr]. rewrite Hfold, fmap_cons, concat_strings_cons.
    rewrite (consumed_reads t) by (unfold reads; simpl; by rewrite Hr).
    cbn [token_kept]. unfold _replacer. rewrite Hstart.
    by destruct (is_comment k).
  - rewrite Hhead. destruct s as [|c s].
    + exists []. split; [constructor|done].
    + destruct (IH (Some c) s) as (toks & Htok & Hfold); [simpl in Hn; lia|].
      exists (Char c :: toks). split; [by constructor|].
      cbn [foldr]. by rewrite Hfold, fmap_cons, concat_strings_cons.
Qed.

(** ** What the test-function pattern matches *)

Lemma test_regex_sound (suite_name : string) (r : regex) (st st' : mstate) :
  name_pattern suite_name = Some r ->
  matches (TEST_FUNC_REGEX r) st st' ->
  exists seg short ws1 ws2 ws3 ws4,
    fits_name suite_name seg
    /\ (short <> "" /\ word_chars short)
    /\ (ws1 <> "" /\ spaces ws1) /\ spaces ws2 /\ spaces ws3 /\ spaces ws4
    /\ at_bol st = true
    /\ reads (test_decl seg short ws1 ws2 ws3 +:+ ws4 +:+ "{") st st'
    /\ groups st'
       = (1, test_decl seg short ws1 ws2 ws3)
           :: (2, test_symbol seg short) :: (3, short) :: groups st.
Proof.
  intros Hname H. unfold TEST_FUNC_REGEX, cats in H. cbn [foldr] in H.
  apply matches_Cat_inv in H as (s0 & Hbol & H).
  apply matches_Bol_inv in Hbol as [-> Hbol].
  apply matches_Cat_inv in H as (s1 & H1 & H).
  apply matches_Cat_inv in H as (s2 & Hws4 & H).
  apply matches_Cat_inv in H as (s3 & Hbrace & H).
  apply matches_Eps_inv in H as ->.
  apply matches_Star_Cls_inv in Hws4 as (ws4 & Hs4 & Hr4 & Hg4).
  apply matches_Chr_inv in Hbrace as [Hrb Hgb].
  apply matches_Grp_inv in H1 as (t9 & H1 & Hrest1 & Hgrp1).
  apply matches_Cat_inv in H1 as (t1 & Hvoid & H1).
  apply matches_lit_inv in Hvoid as [Hr_void Hg_void].
  apply matches_Cat_inv in H1 as (t2 & Hws1 & H1).
  apply matches_Plus_Cls_inv in Hws1 as (ws1 & Hne1 & Hs1 & Hr_ws1 & Hg_ws1).
  apply matches_Cat_inv in H1 as (t3 & H2 & H1).
  apply matches_Cat_inv in H1 as (t4 & Hpar & H1).
  apply matches_Chr_inv in Hpar as [Hr_par Hg_par].
  apply matches_Cat_inv in H1 as (t5 & Hws2 & H1).
  apply matches_Star_Cls_inv in Hws2 as (ws2 & Hs2 & Hr_ws2 & Hg_ws2).
  apply matches_Cat_inv in H1 as (t6 & Hvoid2 & H1).
  apply matches_lit_inv in Hvoid2 as [Hr_void2 Hg_void2].
  apply matches_Cat_inv in H1 as (t7 & Hws3 & H1).
  apply matches_Star_Cls_inv in Hws3 as (ws3 & Hs3 & Hr_ws3 & Hg_ws3).
  apply matches_Cat_inv in H1 as (t8 & Hclose & H1).
  apply matches_Chr_inv in Hclose as [Hr_close Hg_close].
  apply matches_Eps_inv in H1 as ->.
  apply matches_Grp_inv in H2 as (u9 & H2 & Hrest2 & Hgrp2).
  apply matches_Cat_inv in H2 as (u1 & Htest & H2).
  apply matches_lit_inv in Htest as [Hr_test Hg_test].
  apply matches_Cat_inv in H2 as (u2 & Hseg & H2).
  destruct (matches_name_inv _ _ _ _ Hname Hseg) as (seg & Hfit & Hr_seg & Hg_seg).
  apply matches_Cat_inv in H2 as (u3 & Huu & H2).
  apply matches_lit_inv in Huu as [Hr_uu Hg_uu].
  apply matches_Cat_inv in H2 as (u4 & H3 & H2).
  apply matches_Eps_inv in H2 as ->.
  apply matches_Grp_inv in H3 as (v9 & H3 & Hrest3 & Hgrp3).
  apply matches_Plus_Cls_inv in H3 as (short & Hne & Hw & Hr_short & Hg_short).
  assert (R3 : reads short u3 u4) by (unfold reads in *; congruence).
  assert (R3' : reads short u3 t3) by (unfold reads in *; congruence).
  assert (RP : reads (test_prefix seg) t2 u3).
  { unfold test_prefix.
    apply (reads_trans _ _ _ u1); [done|].
    apply (reads_trans _ _ _ u2); done. }
  assert (R2 : reads (test_symbol seg short) t2 u4).
  { unfold test_symbol. apply (reads_trans _ _ _ u3); done. }
  assert (R1 : reads (test_decl seg short ws1 ws2 ws3) st t8).
  { unfold test_decl, decl_text.
    apply (reads_trans _ _ _ t1); [done|].
    apply (reads_trans _ _ _ t2); [done|].
    apply (reads_trans _ _ _ u3); [done|].
    apply (reads_trans _ _ _ t3); [done|].
    apply (reads_trans _ _ _ t4); [done|].
    apply (reads_trans _ _ _ t5); [done|].
    apply (reads_trans _ _ _ t6); [done|].
    apply (reads_trans _ _ _ t7); done. }
  exists seg, short, ws1, ws2, ws3, ws4.
  repeat (split; [done|]). split.
  - apply (reads_trans _ _ _ s1); [unfold reads in *; congruence|].
    apply (reads_trans _ _ _ s2); done.
  - rewrite Hgb, Hg4, Hgrp1, (consumed_reads _ _ _ R1).
    rewrite Hg_close, Hg_ws3, Hg_void2, Hg_ws2, Hg_par, Hgrp2.
    rewrite (consumed_reads _ _ _ R2), Hgrp3.
    assert (R3v : reads short u3 v9) by done.
    rewrite (consumed_reads _ _ _ R3v).
    by rewrite Hg_short, Hg_uu, Hg_seg, Hg_test, Hg_ws1, Hg_void.
Qed.

(** Every match [findall] returns is the first result of [run] at some
    position, started with no group. *)
Lemma pieces_from_matched (r : regex) (n : nat) (p : option ascii) (s t : string)
    (m : mstate) :
  Matched t m ∈ pieces_from r n p s ->
  exists p' s', hd_error (run r {| prev := p'; rest := s'; groups := [] |}) = Some m.
Proof.
  revert p s. induction n as [|n IH]; intros p s H; simpl in H.
  - by apply elem_of_nil in H.
  - assert (Hskip :
      Matched t m ∈ match s with
                    | "" => []
                    | String c s' => Plain c :: pieces_from r n (Some c) s'
                    end ->
      exists p' s', hd_error (run r {| prev := p'; rest := s'; groups := [] |})
                    = Some m).
    { destruct s as [|c s']; [by intros ?%elem_of_nil|].
      intros [?|?]%elem_of_cons; [done|]. eauto. }
    destruct (run r {| prev := p; rest := s; groups := [] |}) as [|st' l] eqn:E;
      [by apply Hskip|].
    destruct (Nat.ltb (String.length (rest st')) (String.length s)).
    + apply elem_of_cons in H as [[= -> ->]|H]; [|eauto].
      exists p, s. by rewrite E.
    + apply elem_of_cons in H as [[= -> ->]|H]; [|by apply Hskip].
      exists p, s. by rewrite E.
Qed.

Lemma findall_matches (r : regex) (s : string) (m : mstate) :
  m ∈ findall r s ->
  exists st, groups st = [] /\ matches r st m.
Proof.
  unfold findall. rewrite list_elem_of_omap. intros ([t m'|c] & Hin & Hm); [|done].
  injection Hm as ->. apply pieces_from_matched in Hin as (p & s' & Hhd).
  exists {| prev := p; rest := s'; groups := [] |}. split; [done|].
  apply run_sound. destruct (run r _) as [|x l]; [done|].
  injection Hhd as ->. left.
Qed.

(** The triples [scan_tests] returns are definitions of the expected shape,
    whose suite-name segment fits the name read as a pattern. *)
Lemma scan_tests_sound (suite_name contents : string)
    (found : list (string * string * string)) (decl sym short : string) :
  scan_tests suite_name contents = Ok found ->
  (decl, sym, short) ∈ found ->
  exists seg ws1 ws2 ws3,
    fits_name suite_name seg
    /\ (short <> "" /\ word_chars short)
    /\ (ws1 <> "" /\ spaces ws1) /\ spaces ws2 /\ spaces ws3
    /\ decl = test_decl seg short ws1 ws2 ws3
    /\ sym = test_symbol seg short.
Proof.
  unfold scan_tests. destruct (name_pattern suite_name) as [r|] eqn:Hname; [|done].
  intros [= <-] Hin. apply list_elem_of_fmap in Hin as (m & Heq & Hin).
  apply findall_matches in Hin as (st & Hg & Hm).
  destruct (test_regex_sound _ _ _ _ Hname Hm)
    as (seg & short' & ws1 & ws2 & ws3 & ws4 & Hfit & Hshort & Hws1 & Hws2
        & Hws3 & _ & _ & _ & Hgroups).
  unfold group in Heq. rewrite Hgroups in Heq. simpl in Heq.
  injection Heq as -> -> ->. exists seg, ws1, ws2, ws3. done.
Qed.

(** ** A match does not run over the start of a later definition *)

(** A part without newline lies before the end of [e], which ends in one. *)
Lemma skip_part_plain (L R e y : string) :
  no_newline L ->
  L +:+ R = e +:+ y -> e <> "" -> last_char e = Some Str.newline ->
  exists e', e = L +:+ e' /\ e' <> "" /\ last_char e' = Some Str.newline
             /\ R = e' +:+ y.
Proof.
  unfold no_newline. revert e. induction L as [|c L IH]; intros e HL H Hne Hlast.
  - exists e. done.
  - destruct e as [|d e0]; [done|]. rewrite !StrFacts.app_cons in H.
    injection H as <- H. simpl in HL. apply andb_prop in HL as [Hc HL].
    destruct e0 as [|d' e1].
    + simpl in Hlast. injection Hlast as ->. done.
    + rewrite last_char_cons in Hlast by done.
      destruct (IH _ HL H) as (e' & -> & ? & ? & ?); [done..|].
      exists e'. by rewrite StrFacts.app_cons.
Qed.

(** A white-space part followed by a non-space character either lies before
    the end of [e], or ends where [e] ends. *)
Lemma skip_part_spaces (a R e y : string) (c v : ascii) (R' y' : string) :
  spaces a ->
  R = String c R' -> Str.is_space c = false ->
  y = String v y' -> Str.is_space v = false ->
  a +:+ R = e +:+ y -> e <> "" -> last_char e = Some Str.newline ->
  (exists e', e = a +:+ e' /\ e' <> "" /\ last_char e' = Some Str.newline
              /\ R = e' +:+ y)
  \/ (e = a /\ R = y).
Proof.
  unfold spaces. intros Ha HR Hc Hy Hv. revert e.
  induction a as [|d a IH]; intros e H Hne Hlast.
  - left. exists e. done.
  - destruct e as [|d' e0]; [done|]. rewrite !StrFacts.app_cons in H.
    injection H as <- H. simpl in Ha. apply andb_prop in Ha as [Hd Ha].
    destruct e0 as [|d' e1].
    + rewrite StrFacts.app_nil_l in H. destruct a as [|d2 a'].
      * right. by rewrite StrFacts.app_nil_l in H.
      * rewrite Hy, StrFacts.app_cons in H. injection H as -> _.
        simpl in Ha. apply andb_prop in Ha as [Ha _]. congruence.
    + rewrite last_char_cons in Hlast by done.
      destruct (IH Ha _ H) as [(e' & -> & ? & ? & ?)|[-> ->]]; [done..| |].
      * left. exists e'. by rewrite StrFacts.app_cons.
      * by right.
Qed.

Lemma word_chars_no_newline (s : string) : word_chars s -> no_newline s.
Proof.
  unfold word_chars, no_newline. induction s as [|c s IH]; [done|].
  simpl. intros [Hc Hs]%andb_prop. rewrite IH by done.
  destruct (Ascii.eqb_spec c Str.newline) as [->|]; done.
Qed.

(** ** Declarations at the start of a line
    The two declaration patterns read the same shape around a fixed prefix,
    [test_<suite>__] or [clar_on_]. The lemmas of this part hold for every
    prefix, and those of the section for every pattern [R] that matches the
    texts of this shape and no other. *)

Lemma decl_unique (prefix short short' a1 a2 a3 a4 b1 b2 b3 b4 x x' : string)
    (c0 : ascii) (p0 : string) :
  prefix = String c0 p0 -> Str.is_space c0 = false ->
  word_chars short -> word_chars short' ->
  spaces a1 -> spaces a2 -> spaces a3 -> spaces a4 ->
  spaces b1 -> spaces b2 -> spaces b3 -> spaces b4 ->
  decl_text prefix short' a1 a2 a3 +:+ a4 +:+ "{" +:+ x'
  = decl_text prefix short b1 b2 b3 +:+ b4 +:+ "{" +:+ x ->
  short' = short /\ a1 = b1 /\ a2 = b2 /\ a3 = b3 /\ a4 = b4 /\ x' = x.
Proof.
  intros Hp Hc0 Hw Hw' Ha1 Ha2 Ha3 Ha4 Hb1 Hb2 Hb3 Hb4 H.
  unfold decl_text in H. rewrite !StrFacts.app_assoc in H.
  apply (inj (String.app "void")) in H.
  rewrite Hp, !(StrFacts.app_cons c0) in H.
  apply (span_unique Str.is_space) in H as [-> H]; [|done..].
  injection H as H. apply (inj (String.app p0)) in H.
  apply (span_unique Str.is_word _ _ "(" "(") in H as [-> H]; [|done..].
  injection H as H.
  apply (span_unique Str.is_space _ _ "v" "v") in H as [-> H]; [|done..].
  apply (inj (String.app "void")) in H.
  apply (span_unique Str.is_space _ _ ")" ")") in H as [-> H]; [|done..].
  injection H as H.
  apply (span_unique Str.is_space _ _ "{" "{") in H as [-> H]; [|done..].
  by injection H as ->.
Qed.

Lemma decl_no_overlap (prefix short' a1 a2 a3 a4 sp1 y0 r e : string)
    (c0 : ascii) (p0 : string) :
  prefix = String c0 p0 -> Str.is_space c0 = false ->
  Ascii.eqb c0 "v" = false -> Ascii.eqb c0 ")" = false ->
  no_newline prefix -> word_chars short' ->
  spaces a1 -> spaces a2 -> spaces a3 -> spaces a4 ->
  spaces sp1 ->
  (decl_text prefix short' a1 a2 a3 +:+ a4 +:+ "{") +:+ r
  = e +:+ "void" +:+ sp1 +:+ prefix +:+ y0 ->
  e <> "" -> last_char e = Some Str.newline ->
  exists e',
    e = (decl_text prefix short' a1 a2 a3 +:+ a4 +:+ "{") +:+ e'
    /\ e' <> "" /\ last_char e' = Some Str.newline
    /\ r = e' +:+ "void" +:+ sp1 +:+ prefix +:+ y0.
Proof.
  intros Hp Hc0 Hv Hpar Hn Hw Ha1 Ha2 Ha3 Ha4 Hsp1 H Hne Hlast.
  apply word_chars_no_newline in Hw.
  unfold decl_text in *. rewrite !StrFacts.app_assoc in H.
  apply skip_part_plain in H as (e1 & -> & Hne1 & Hl1 & H); [|done..].
  eapply (skip_part_spaces a1 _ e1 _ c0 "v") in H
    as [(e2 & -> & Hne2 & Hl2 & H)|[_ H]];
    [| |done|by rewrite Hp, StrFacts.app_cons|done..].
  2:{ rewrite Hp, StrFacts.app_cons in H. injection H as -> _.
      by rewrite Ascii.eqb_refl in Hv. }
  apply skip_part_plain in H as (e3 & -> & Hne3 & Hl3 & H); [|done..].
  apply skip_part_plain in H as (e4 & -> & Hne4 & Hl4 & H); [|done..].
  apply skip_part_plain in H as (e5 & -> & Hne5 & Hl5 & H); [|done..].
  eapply (skip_part_spaces a2 _ e5 _ "v" "v") in H
    as [(e6 & -> & Hne6 & Hl6 & H)|[_ H]]; [| |done..].
  2:{ apply (inj (String.app "void")) in H.
      rewrite Hp, StrFacts.app_cons in H.
      apply (span_unique Str.is_space _ _ ")" c0) in H as [_ H]; [|done..].
      injection H as <- _. by rewrite Ascii.eqb_refl in Hpar. }
  apply skip_part_plain in H as (e7 & -> & Hne7 & Hl7 & H); [|done..].
  eapply (skip_part_spaces a3 _ e7 _ ")" "v") in H
    as [(e8 & -> & Hne8 & Hl8 & H)|[_ H]]; [| |done..]; [|done].
  apply skip_part_plain in H as (e9 & -> & Hne9 & Hl9 & H); [|done..].
  eapply (skip_part_spaces a4 _ e9 _ "{" "v") in H
    as [(e10 & -> & Hne10 & Hl10 & H)|[_ H]]; [| |done..]; [|done].
  apply skip_part_plain in H as (e11 & -> & Hne11 & Hl11 & H); [|done..].
  exists e11. rewrite !StrFacts.app_assoc. done.
Qed.

Section declaration_scan.

Variable R : regex.
Variable prefix : string.
Variable c0 : ascii.
Variable p0 : string.
(** The groups a match records, from the declaration and the short name. *)
Variable recorded : string -> string -> list (nat * string).

Hypothesis prefix_head : prefix = String c0 p0.
Hypothesis head_not_space : Str.is_space c0 = false.
Hypothesis head_not_v : Ascii.eqb c0 "v" = false.
Hypothesis head_not_paren : Ascii.eqb c0 ")" = false.
Hypothesis prefix_no_newline : no_newline prefix.

Hypothesis R_sound : forall st m,
  matches R st m ->
  exists short ws1 ws2 ws3 ws4,
    (short <> "" /\ word_chars short)
    /\ (ws1 <> "" /\ spaces ws1) /\ spaces ws2 /\ spaces ws3 /\ spaces ws4
    /\ at_bol st = true
    /\ reads (decl_text prefix short ws1 ws2 ws3 +:+ ws4 +:+ "{") st m
    /\ groups m = recorded (decl_text prefix short ws1 ws2 ws3) short ++ groups st.

Hypothesis R_complete : forall short ws1 ws2 ws3 ws4 tail st,
  short <> "" -> word_chars short ->
  ws1 <> "" -> spaces ws1 -> spaces ws2 -> spaces ws3 -> spaces ws4 ->
  at_bol st = true ->
  rest st = decl_text prefix short ws1 ws2 ws3 +:+ ws4 +:+ "{" +:+ tail ->
  exists m, matches R st m.

(** Where a declaration stands at the start of a line, it is the first
    match. *)
Lemma decl_first (short sp1 sp2 sp3 sp4 tail : string) (st : mstate) :
  short <> "" -> word_chars short ->
  sp1 <> "" -> spaces sp1 -> spaces sp2 -> spaces sp3 -> spaces sp4 ->
  at_bol st = true ->
  rest st = decl_text prefix short sp1 sp2 sp3 +:+ sp4 +:+ "{" +:+ tail ->
  exists m,
    hd_error (run R st) = Some m
    /\ rest m = tail
    /\ groups m = recorded (decl_text prefix short sp1 sp2 sp3) short ++ groups st.
Proof.
  intros Hne Hw Hne1 Hs1 Hs2 Hs3 Hs4 Hbol Hrest.
  destruct (R_complete short sp1 sp2 sp3 sp4 tail st) as [m1 M]; try done.
  apply run_complete in M.
  destruct (run R st) as [|m l] eqn:E; [by apply elem_of_nil in M|].
  exists m. split; [done|].
  assert (M' : matches R st m) by (apply run_sound; rewrite E; left).
  destruct (R_sound st m M')
    as (short' & a1 & a2 & a3 & a4 & [_ Hw'] & [_ Ha1] & Ha2 & Ha3 & Ha4 & _
        & Hreads & Hgroups).
  unfold reads in Hreads. rewrite !StrFacts.app_assoc, Hrest in Hreads.
  symmetry in Hreads.
  eapply decl_unique in Hreads as (-> & -> & -> & -> & -> & ->); done.
Qed.

(** The scan reaches every declaration that stands at the start of a
    line. *)
Lemma decl_scan_reaches (short sp1 sp2 sp3 sp4 tail : string) :
  short <> "" -> word_chars short ->
  sp1 <> "" -> spaces sp1 -> spaces sp2 -> spaces sp3 -> spaces sp4 ->
  forall fuel p x,
    String.length
      (x +:+ decl_text prefix short sp1 sp2 sp3 +:+ sp4 +:+ "{" +:+ tail) < fuel ->
    line_start p x ->
    exists t m,
      Matched t m
        ∈ pieces_from R fuel p
            (x +:+ decl_text prefix short sp1 sp2 sp3 +:+ sp4 +:+ "{" +:+ tail)
      /\ groups m = recorded (decl_text prefix short sp1 sp2 sp3) short.
Proof.
  intros Hne Hw Hne1 Hs1 Hs2 Hs3 Hs4.
  remember (decl_text prefix short sp1 sp2 sp3 +:+ sp4 +:+ "{" +:+ tail)
    as dt eqn:Hdt.
  assert (Hdt2 : exists y0, dt = "void" +:+ sp1 +:+ prefix +:+ y0).
  { eexists. rewrite Hdt. unfold decl_text.
    rewrite !StrFacts.app_assoc. reflexivity. }
  destruct Hdt2 as [y0 Hdt2].
  induction fuel as [|fuel IH]; intros p x Hlen Hstart; [lia|].
  cbn [pieces_from].
  set (st := {| prev := p; rest := x +:+ dt; groups := [] |}).
  destruct x as [|c x'].
  - rewrite StrFacts.app_nil_l in *.
    destruct (decl_first short sp1 sp2 sp3 sp4 tail st)
      as (m & Hhd & Hrest & Hgroups); try done.
    destruct (run R st) as [|m' l] eqn:E; [done|].
    injection Hhd as ->.
    assert (Hlt : String.length (rest m) < String.length dt).
    { rewrite Hrest, Hdt. unfold decl_text.
      rewrite !StrFacts.length_app. simpl. lia. }
    apply Nat.ltb_lt in Hlt. rewrite Hlt.
    eexists _, m. split; [left|]. by rewrite Hgroups, app_nil_r.
  - rewrite StrFacts.app_cons.
    assert (Hnext : line_start (Some c) x').
    { unfold line_start in *. destruct x' as [|c' x'']; [|done].
      simpl in Hstart. injection Hstart as ->. done. }
    destruct (run R st) as [|m l] eqn:E.
    + destruct (IH (Some c) x') as (t & m & Hin & Hg); [|done|].
      { rewrite StrFacts.app_cons in Hlen. simpl in Hlen. lia. }
      exists t, m. split; [by right|done].
    + assert (Hm : matches R st m) by (apply run_sound; rewrite E; left).
      destruct (R_sound st m Hm)
        as (short' & a1 & a2 & a3 & a4 & [_ Hw'] & [_ Ha1] & Ha2 & Ha3 & Ha4
            & _ & Hreads & _).
      unfold reads in Hreads. simpl rest in Hreads.
      rewrite Hdt2 in Hreads. symmetry in Hreads.
      eapply decl_no_overlap in Hreads as (e' & He & Hne' & Hlast' & Hrm);
        try done.
      rewrite <- Hdt2 in Hrm.
      assert (Hlt : String.length (rest m)
                    < String.length (String c (x' +:+ dt))).
      { rewrite <- StrFacts.app_cons, He, Hrm, !StrFacts.length_app.
        unfold decl_text. rewrite !StrFacts.length_app. simpl. lia. }
      apply Nat.ltb_lt in Hlt as Hlt'. rewrite Hlt', Hrm.
      destruct (IH (prev m) e') as (t & m2 & Hin & Hg).
      { rewrite <- Hrm. rewrite StrFacts.app_cons in Hlen. lia. }
      { unfold line_start. by destruct e'. }
      exists t, m2. split; [by right|done].
Qed.

(** [findall] returns every declaration that stands at the start of a
    line. *)
Lemma decl_found (before short sp1 sp2 sp3 sp4 after : string) :
  short <> "" -> word_chars short ->
  sp1 <> "" -> spaces sp1 -> spaces sp2 -> spaces sp3 -> spaces sp4 ->
  line_start None before ->
  exists m,
    m ∈ findall R (before +:+ decl_text prefix short sp1 sp2 sp3 +:+ sp4
                   +:+ "{" +:+ after)
    /\ groups m = recorded (decl_text prefix short sp1 sp2 sp3) short.
Proof.
  intros Hne Hw Hne1 Hs1 Hs2 Hs3 Hs4 Hstart.
  destruct (decl_scan_reaches short sp1 sp2 sp3 sp4 after
              Hne Hw Hne1 Hs1 Hs2 Hs3 Hs4
              (S (String.length
                    (before +:+ decl_text prefix short sp1 sp2 sp3 +:+ sp4
                     +:+ "{" +:+ after))) None before)
    as (t & m & Hin & Hg); [lia|done|].
  exists m. split; [|done].
  unfold findall. apply list_elem_of_omap. by exists (Matched t m).
Qed.

End declaration_scan.

(** ** The test-function pattern of a plain suite name *)

Lemma test_prefix_no_newline (n : string) :
  no_newline n -> no_newline (test_prefix n).
Proof.
  unfold no_newline, test_prefix. intros H.
  rewrite !StrFacts.app_cons, StrFacts.app_nil_l. cbn [all_in].
  assert (G : forall a b, all_in (fun c => negb (Ascii.eqb c Str.newline)) a = true ->
                          all_in (fun c => negb (Ascii.eqb c Str.newline)) b = true ->
                          all_in (fun c => negb (Ascii.eqb c Str.newline)) (a +:+ b)
                          = true).
  { induction a as [|c a IH]; intros b Ha Hb; [by rewrite StrFacts.app_nil_l|].
    rewrite StrFacts.app_cons. cbn [all_in] in *.
    apply andb_prop in Ha as [-> Ha]. by apply IH. }
  rewrite G; done.
Qed.

Lemma test_regex_sound_plain (n : string) (st m : mstate) :
  plain_name n ->
  matches (TEST_FUNC_REGEX (lit n)) st m ->
  exists short ws1 ws2 ws3 ws4,
    (short <> "" /\ word_chars short)
    /\ (ws1 <> "" /\ spaces ws1) /\ spaces ws2 /\ spaces ws3 /\ spaces ws4
    /\ at_bol st = true
    /\ reads (decl_text (test_prefix n) short ws1 ws2 ws3 +:+ ws4 +:+ "{") st m
    /\ groups m
       = test_groups n (decl_text (test_prefix n) short ws1 ws2 ws3) short
         ++ groups st.
Proof.
  intros Hplain M.
  destruct (test_regex_sound n _ _ _ (plain_name_pattern n Hplain) M)
    as (seg & short & a1 & a2 & a3 & a4 & Hfit & Hshort & Ha1 & Ha2 & Ha3
        & Ha4 & Hbol & Hreads & Hgroups).
  rewrite (fits_plain_name _ _ Hplain Hfit) in *.
  exists short, a1, a2, a3, a4. done.
Qed.

Lemma test_regex_can_read (n short sp1 sp2 sp3 sp4 tail : string) :
  short <> "" -> word_chars short ->
  sp1 <> "" -> spaces sp1 -> spaces sp2 -> spaces sp3 -> spaces sp4 ->
  can_read
    (cats [ Grp 1 (cats [ lit "void"; ws1;
                          Grp 2 (cats [ lit "test_"; lit n; lit "__";
                                        Grp 3 word1 ]);
                          Chr "("; ws0; lit "void"; ws0; Chr ")" ]);
            ws0; Chr "{" ])
    (test_decl n short sp1 sp2 sp3 +:+ sp4 +:+ "{" +:+ tail) tail.
Proof.
  intros Hne Hw Hne1 Hs1 Hs2 Hs3 Hs4.
  unfold test_decl, decl_text, test_prefix, cats. cbn [foldr].
  rewrite !StrFacts.app_assoc. read_chain.
Qed.

Lemma test_regex_complete (n short sp1 sp2 sp3 sp4 tail : string) (st : mstate) :
  short <> "" -> word_chars short ->
  sp1 <> "" -> spaces sp1 -> spaces sp2 -> spaces sp3 -> spaces sp4 ->
  at_bol st = true ->
  rest st = decl_text (test_prefix n) short sp1 sp2 sp3 +:+ sp4 +:+ "{" +:+ tail ->
  exists m, matches (TEST_FUNC_REGEX (lit n)) st m.
Proof.
  intros Hne Hw Hne1 Hs1 Hs2 Hs3 Hs4 Hbol Hrest.
  destruct (test_regex_can_read n short sp1 sp2 sp3 sp4 tail
              Hne Hw Hne1 Hs1 Hs2 Hs3 Hs4 st Hrest) as (st1 & M1 & _).
  exists st1. unfold TEST_FUNC_REGEX, cats. cbn [foldr].
  econstructor; [by constructor|]. exact M1.
Qed.

(** The scan of a plain suite name returns every definition of its shape
    that stands at the start of a line. *)
Lemma scan_tests_complete (n before short sp1 sp2 sp3 sp4 after : string) :
  plain_name n -> no_newline n ->
  short <> "" -> word_chars short ->
  sp1 <> "" -> spaces sp1 -> spaces sp2 -> spaces sp3 -> spaces sp4 ->
  line_start None before ->
  exists m,
    m ∈ findall (TEST_FUNC_REGEX (lit n))
          (before +:+ test_decl n short sp1 sp2 sp3 +:+ sp4 +:+ "{" +:+ after)
    /\ groups m = test_groups n (test_decl n short sp1 sp2 sp3) short.
Proof.
  intros Hplain Hnl Hne Hw Hne1 Hs1 Hs2 Hs3 Hs4 Hstart.
  unfold test_decl.
  eapply (decl_found (TEST_FUNC_REGEX (lit n)) (test_prefix n) "t" _
            (test_groups n)); try done.
  - apply test_prefix_no_newline, Hnl.
  - intros st m M. by apply test_regex_sound_plain.
  - intros short' a1 a2 a3 a4 tail st. apply test_regex_complete.
Qed.

(** ** The event pattern *)

Lemma event_regex_sound (st m : mstate) :
  matches EVENT_CB_REGEX st m ->
  exists event ws1 ws2 ws3 ws4,
    (event <> "" /\ word_chars event)
    /\ (ws1 <> "" /\ spaces ws1) /\ spaces ws2 /\ spaces ws3 /\ spaces ws4
    /\ at_bol st = true
    /\ reads (decl_text "clar_on_" event ws1 ws2 ws3 +:+ ws4 +:+ "{") st m
    /\ groups m
       = event_groups (decl_text "clar_on_" event ws1 ws2 ws3) event
         ++ groups st.
Proof.
  intros H. unfold EVENT_CB_REGEX, cats in H. cbn [foldr] in H.
  apply matches_Cat_inv in H as (s0 & Hbol & H).
  apply matches_Bol_inv in Hbol as [-> Hbol].
  apply matches_Cat_inv in H as (s1 & H1 & H).
  apply matches_Cat_inv in H as (s2 & Hws4 & H).
  apply matches_Cat_inv in H as (s3 & Hbrace & H).
  apply matches_Eps_inv in H as ->.
  apply matches_Star_Cls_inv in Hws4 as (ws4 & Hs4 & Hr4 & Hg4).
  apply matches_Chr_inv in Hbrace as [Hrb Hgb].
  apply matches_Grp_inv in H1 as (t9 & H1 & Hrest1 & Hgrp1).
  apply matches_Cat_inv in H1 as (t1 & Hvoid & H1).
  apply matches_lit_inv in Hvoid as [Hr_void Hg_void].
  apply matches_Cat_inv in H1 as (t2 & Hws1 & H1).
  apply matches_Plus_Cls_inv in Hws1 as (ws1 & Hne1 & Hs1 & Hr_ws1 & Hg_ws1).
  apply matches_Cat_inv in H1 as (u3 & Hpre & H1).
  apply matches_lit_inv in Hpre as [Hr_pre Hg_pre].
  apply matches_Cat_inv in H1 as (t3 & H2 & H1).
  apply matches_Cat_inv in H1 as (t4 & Hpar & H1).
  apply matches_Chr_inv in Hpar as [Hr_par Hg_par].
  apply matches_Cat_inv in H1 as (t5 & Hws2 & H1).
  apply matches_Star_Cls_inv in Hws2 as (ws2 & Hs2 & Hr_ws2 & Hg_ws2).
  apply matches_Cat_inv in H1 as (t6 & Hvoid2 & H1).
  apply matches_lit_inv in Hvoid2 as [Hr_void2 Hg_void2].
  apply matches_Cat_inv in H1 as (t7 & Hws3 & H1).
  apply matches_Star_Cls_inv in Hws3 as (ws3 & Hs3 & Hr_ws3 & Hg_ws3).
  apply matches_Cat_inv in H1 as (t8 & Hclose & H1).
  apply matches_Chr_inv in Hclose as [Hr_close Hg_close].
  apply matches_Eps_inv in H1 as ->.
  apply matches_Grp_inv in H2 as (v9 & H2 & Hrest2 & Hgrp2).
  apply matches_Plus_Cls_inv in H2 as (event & Hne & Hw & Hr_event & Hg_event).
  assert (R2 : reads event u3 t3) by (unfold reads in *; congruence).
  assert (R1 : reads (decl_text "clar_on_" event ws1 ws2 ws3) st t8).
  { unfold decl_text.
    apply (reads_trans _ _ _ t1); [done|].
    apply (reads_trans _ _ _ t2); [done|].
    apply (reads_trans _ _ _ u3); [done|].
    apply (reads_trans _ _ _ t3); [done|].
    apply (reads_trans _ _ _ t4); [done|].
    apply (reads_trans _ _ _ t5); [done|].
    apply (reads_trans _ _ _ t6); [done|].
    apply (reads_trans _ _ _ t7); done. }
  exists event, ws1, ws2, ws3, ws4.
  repeat (split; [done|]). split.
  - apply (reads_trans _ _ _ s1); [unfold reads in *; congruence|].
    apply (reads_trans _ _ _ s2); done.
  - rewrite Hgb, Hg4, Hgrp1, (consumed_reads _ _ _ R1).
    rewrite Hg_close, Hg_ws3, Hg_void2, Hg_ws2, Hg_par, Hgrp2.
    assert (R2v : reads event u3 v9) by done.
    rewrite (consumed_reads _ _ _ R2v).
    by rewrite Hg_event, Hg_pre, Hg_ws1, Hg_void.
Qed.

Lemma event_regex_complete (event sp1 sp2 sp3 sp4 tail : string) (st : mstate) :
  event <> "" -> word_chars event ->
  sp1 <> "" -> spaces sp1 -> spaces sp2 -> spaces sp3 -> spaces sp4 ->
  at_bol st = true ->
  rest st = decl_text "clar_on_" event sp1 sp2 sp3 +:+ sp4 +:+ "{" +:+ tail ->
  exists m, matches EVENT_CB_REGEX st m.
Proof.
  intros Hne Hw Hne1 Hs1 Hs2 Hs3 Hs4 Hbol Hrest.
  assert (C : can_read
    (cats [ Grp 1 (cats [ lit "void"; ws1; lit "clar_on_"; Grp 2 word1;
                          Chr "("; ws0; lit "void"; ws0; Chr ")" ]);
            ws0; Chr "{" ])
    (decl_text "clar_on_" event sp1 sp2 sp3 +:+ sp4 +:+ "{" +:+ tail) tail).
  { unfold decl_text, cats. cbn [foldr]. rewrite !StrFacts.app_assoc.
    read_chain. }
  destruct (C st Hrest) as (st1 & M1 & _).
  exists st1. unfold EVENT_CB_REGEX, cats. cbn [foldr].
  econstructor; [by constructor|]. exact M1.
Qed.

(** The pairs [scan_events] returns are event definitions. *)
Lemma scan_events_sound (contents decl event : string) :
  (decl, event) ∈ scan_events contents ->
  (event <> "" /\ word_chars event)
  /\ exists sp1 sp2 sp3,
       (sp1 <> "" /\ spaces sp1) /\ spaces sp2 /\ spaces sp3
       /\ decl = event_decl event sp1 sp2 sp3.
Proof.
  unfold scan_events. intros (m & Heq & Hin)%list_elem_of_fmap.
  apply findall_matches in Hin as (st & Hg & Hm).
  destruct (event_regex_sound _ _ Hm)
    as (event' & a1 & a2 & a3 & a4 & Hev & Ha1 & Ha2 & Ha3 & _ & _ & _ & Hgroups).
  unfold group in Heq. rewrite Hgroups in Heq. simpl in Heq.
  injection Heq as -> ->. split; [done|]. by exists a1, a2, a3.
Qed.

(** [scan_events] returns every event definition that stands at the start
    of a line. *)
Lemma scan_events_complete (before event sp1 sp2 sp3 sp4 after : string) :
  event <> "" -> word_chars event ->
  sp1 <> "" -> spaces sp1 -> spaces sp2 -> spaces sp3 -> spaces sp4 ->
  line_start None before ->
  (event_decl event sp1 sp2 sp3, event)
    ∈ scan_events (before +:+ event_decl event sp1 sp2 sp3 +:+ sp4 +:+ "{"
                   +:+ after).
Proof.
  intros Hne Hw Hne1 Hs1 Hs2 Hs3 Hs4 Hstart.
  destruct (decl_found EVENT_CB_REGEX "clar_on_" "c" "lar_on_" event_groups
              eq_refl eq_refl eq_refl eq_refl eq_refl
              event_regex_sound event_regex_complete
              before event sp1 sp2 sp3 sp4 after) as (m & Hin & Hg); try done.
  unfold scan_events. apply list_elem_of_fmap. exists m. split; [|done].
  unfold group. by rewrite Hg.
Qed.

(** ** Event callbacks of one file *)

Lemma register_events_spec (found : list (string * string)) (self : ClarTestBuilder) :
  foldl register_event self found =
  {| declarations := declarations self ++ (recognised found).*1;
     suite_names := suite_names self;
     callback_data := callback_data self;
     suite_data := suite_data self;
     event_callbacks := event_callbacks self ++ (recognised found).*2;
     clar_path := clar_path self;
     path := path self;
     modules := modules self |}.
Proof.
  revert self. induction found as [|[decl event] found IH]; intros self.
  - simpl. rewrite !app_nil_r. by destruct self.
  - simpl. rewrite IH. unfold recognised, register_event.
    rewrite filter_cons. simpl. destruct (decide (event ∈ CLAR_EVENTS)).
    + simpl. by rewrite <- !app_assoc.
    + done.
Qed.

Lemma process_events_declarations (self : ClarTestBuilder) (contents : string) :
  declarations (_process_events self contents)
  = declarations self ++ (recognised (scan_events contents)).*1.
Proof. unfold _process_events. by rewrite register_events_spec. Qed.

Lemma process_events_event_callbacks (self : ClarTestBuilder) (contents : string) :
  event_callbacks (_process_events self contents)
  = event_callbacks self ++ (recognised (scan_events contents)).*2.
Proof. unfold _process_events. by rewrite register_events_spec. Qed.

Lemma process_events_suites (self : ClarTestBuilder) (contents : string) :
  suite_names (_process_events self contents) = suite_names self
  /\ callback_data (_process_events self contents) = callback_data self
  /\ suite_data (_process_events self contents) = suite_data self.
Proof. unfold _process_events. by rewrite register_events_spec. Qed.

(** ** Classification of the scanned test functions *)

Lemma classify_callbacks (v : locals) (m : string * string * string) :
  l_callbacks (classify v m)
  = l_callbacks v ++ (if chained m.2 then [] else [data_of m]).
Proof.
  destruct m as [[decl sym] short]. unfold classify, chained, data_of. simpl.
  destruct (String.eqb short "categorize"), (String.eqb short "initialize"),
    (String.eqb short "cleanup"); simpl; by rewrite ?app_nil_r.
Qed.

Lemma classify_all_callbacks_from (found : list (string * string * string))
    (v : locals) :
  l_callbacks (foldl classify v found)
  = l_callbacks v
    ++ (data_of <$> filter (fun m => chained m.2 = false) found).
Proof.
  revert v. induction found as [|m found IH]; intros v; simpl.
  - by rewrite app_nil_r.
  - rewrite IH, classify_callbacks, filter_cons.
    destruct (chained m.2); simpl.
    + by rewrite app_nil_r.
    + by rewrite <- app_assoc.
Qed.

Lemma classify_all_callbacks (found : list (string * string * string)) :
  l_callbacks (classify_all found)
  = data_of <$> filter (fun m => chained m.2 = false) found.
Proof. unfold classify_all. by rewrite classify_all_callbacks_from. Qed.

(** A function named [categorize] falls through to the [else] branch of the
    chain: it is stored in the role and appended to [callbacks] as well. *)
Lemma classify_categorize (v : locals) (decl sym : string) :
  let data := data_of (decl, sym, "categorize") in
  l_categorize (classify v (decl, sym, "categorize")) = Some data
  /\ l_callbacks (classify v (decl, sym, "categorize")) = l_callbacks v ++ [data].
Proof. done. Qed.

Lemma register_suite_no_callbacks (self : ClarTestBuilder) (suite_name : string)
    (v : locals) :
  l_callbacks v = [] -> register_suite self suite_name v = self.
Proof. intros H. unfold register_suite. by rewrite H. Qed.

Lemma register_suite_callbacks (self : ClarTestBuilder) (suite_name : string)
    (v : locals) :
  l_callbacks v <> [] ->
  register_suite self suite_name v =
  {| declarations :=
       declarations self ++ decl_of (l_categorize v)
         ++ decl_of (l_initialize v) ++ decl_of (l_cleanup v)
         ++ (declaration <$> l_callbacks v);
     suite_names := suite_names self ++ [suite_name];
     callback_data :=
       <[suite_name := sort_by short_name (l_callbacks v)]> (callback_data self);
     suite_data :=
       <[suite_name :=
           {| name := suite_name;
              categorize := l_categorize v;
              initialize := l_initialize v;
              cleanup := l_cleanup v;
              cb_count := length (l_callbacks v) |}]> (suite_data self);
     event_callbacks := event_callbacks self;
     clar_path := clar_path self;
     path := path self;
     modules := modules self |}.
Proof. intros H. unfold register_suite. by destruct (l_callbacks v). Qed.

Lemma process_test_file_unfold (self : ClarTestBuilder)
    (suite_name contents : string) :
  _process_test_file self suite_name contents =
  (found <- scan_tests suite_name (_skip_comments contents) ;;
   Ok (register_suite (_process_events self (_skip_comments contents))
         suite_name (classify_all found))).
Proof. reflexivity. Qed.

Lemma register_suite_declarations_prefix (self : ClarTestBuilder)
    (suite_name : string) (v : locals) :
  exists tail, declarations (register_suite self suite_name v)
               = declarations self ++ tail.
Proof.
  destruct (l_callbacks v) as [|cb cbs] eqn:E.
  - exists []. rewrite register_suite_no_callbacks by done. by rewrite app_nil_r.
  - rewrite register_suite_callbacks by (by rewrite E). simpl. eauto.
Qed.

Lemma register_suite_event_callbacks (self : ClarTestBuilder)
    (suite_name : string) (v : locals) :
  event_callbacks (register_suite self suite_name v) = event_callbacks self.
Proof. unfold register_suite. by destruct (l_callbacks v). Qed.

Lemma override_macro_inj (e1 e2 : string) :
  e1 ∈ CLAR_EVENTS -> e2 ∈ CLAR_EVENTS ->
  override_macro e1 = override_macro e2 -> e1 = e2.
Proof.
  unfold CLAR_EVENTS. rewrite !elem_of_cons, !elem_of_nil.
  intros [->|[->|[->|[->|[]]]]] [->|[->|[->|[->|[]]]]] H; try done;
    by vm_compute in H.
Qed.

Lemma elem_of_event_overrides (self : ClarTestBuilder) (event : string) :
  event ∈ CLAR_EVENTS ->
  override_macro event ∈ event_overrides self <-> event ∉ event_callbacks self.
Proof.
  intros Hev. unfold event_overrides. rewrite list_elem_of_fmap. split.
  - intros (e' & Heq & Hin). apply list_elem_of_filter in Hin as [Hnot Hin'].
    by rewrite (override_macro_inj _ _ Hev Hin' Heq).
  - intros Hnot. exists event. split; [done|]. by apply list_elem_of_filter.
Qed.

Lemma process_test_file_event_callbacks (self b : ClarTestBuilder)
    (suite_name contents : string) :
  _process_test_file self suite_name contents = Ok b ->
  event_callbacks b
  = event_callbacks self
    ++ (recognised (scan_events (_skip_comments contents))).*2.
Proof.
  rewrite process_test_file_unfold. intros H.
  destruct (scan_tests suite_name (_skip_comments contents)); [|done].
  simpl in H. injection H as <-.
  by rewrite register_suite_event_callbacks, process_events_event_callbacks.
Qed.

(** ** The walk as one loop over the test files *)

Lemma load_directory_tests (fs : gmap string string) (self_path : string)
    (self : ClarTestBuilder) (walk : list (string * list string)) :
  foldM (load_directory fs self_path) self walk
  = foldM (load_test fs) self (walk_tests self_path walk).
Proof.
  revert self. induction walk as [|[root files] walk IH]; intros self; [done|].
  unfold walk_tests. simpl flat_map. rewrite foldM_app, foldM_fmap. simpl.
  fold (walk_tests self_path walk).
  match goal with
  | |- bind ?x _ = bind ?y _ => replace y with x; [destruct x|]
  end; simpl; [apply IH|done|done].
Qed.

Lemma init_unfold (e : env) (fs : gmap string string) (path : string)
    (clar_path : option string) (print_mode : string) :
  __init__ e fs path clar_path print_mode =
  (self <- foldM (load_test fs) (new_builder e path clar_path print_mode)
             (run_tests e path) ;;
   if decide (suite_data self = ∅) then
     Err (RuntimeError ("No tests found under " +:+ dq +:+ path +:+ dq))
   else Ok self).
Proof. unfold __init__. by rewrite load_directory_tests. Qed.

(** A property of builders that every file preserves holds after the walk. *)
Lemma foldM_load_invariant (P : ClarTestBuilder -> Prop) (fs : gmap string string)
    (tests : list (string * string)) (b b' : ClarTestBuilder) :
  (forall b1 b2 suite_name contents,
      P b1 -> _process_test_file b1 suite_name contents = Ok b2 -> P b2) ->
  P b -> foldM (load_test fs) b tests = Ok b' -> P b'.
Proof.
  intros Hstep. revert b. induction tests as [|t tests IH]; intros b Hb H.
  - simpl in H. by injection H as <-.
  - simpl in H. destruct (load_test fs b t) as [b1|] eqn:E; [|done].
    simpl in H. apply (IH b1); [|done].
    unfold load_test in E. destruct (read_file fs t.2) as [c|]; [|done].
    simpl in E. eauto.
Qed.

Lemma init_invariant (P : ClarTestBuilder -> Prop) (e : env)
    (fs : gmap string string) (path : string) (clar_path : option string)
    (print_mode : string) (b : ClarTestBuilder) :
  (forall b1 b2 suite_name contents,
      P b1 -> _process_test_file b1 suite_name contents = Ok b2 -> P b2) ->
  P (new_builder e path clar_path print_mode) ->
  __init__ e fs path clar_path print_mode = Ok b -> P b.
Proof.
  intros Hstep H0. rewrite init_unfold. intros H.
  destruct (foldM _ _ _) as [b1|] eqn:E; [|done]. simpl in H.
  destruct (decide (suite_data b1 = ∅)); [done|]. injection H as <-.
  eapply foldM_load_invariant; eauto.
Qed.

(** ** C1, C3: a [categorize] function is also an ordinary test *)

Lemma classify_categorize_kept (v : locals) (m : string * string * string) :
  is_Some (l_categorize v) -> is_Some (l_categorize (classify v m)).
Proof.
  destruct m as [[decl sym] short]. unfold classify.
  destruct (String.eqb short "categorize"), (String.eqb short "initialize"),
    (String.eqb short "cleanup"); simpl; eauto.
Qed.

Lemma classify_all_categorize (found : list (string * string * string))
    (v : locals) (decl sym : string) :
  (decl, sym, "categorize") ∈ found ->
  is_Some (l_categorize (foldl classify v found)).
Proof.
  assert (Hkept : forall l v', is_Some (l_categorize v') ->
                    is_Some (l_categorize (foldl classify v' l))).
  { induction l as [|m l IH]; intros v' Hv'; [done|].
    simpl. by apply IH, classify_categorize_kept. }
  revert v. induction found as [|m found IH]; intros v Hin.
  - by apply elem_of_nil in Hin.
  - apply elem_of_cons in Hin as [<-|Hin]; [|by apply IH].
    simpl. apply Hkept. by eexists.
Qed.

(** C1. Every scanned function named [categorize] is stored in its role
    and is placed in the callback list of the suite as well, where it is
    counted by [cb_count]: the claim that a function with a reserved name
    never reaches the ordinary list fails for [categorize]. Functions named
    [initialize] or [cleanup] are kept out of the list. *)
Theorem C1_categorize_in_callback_list (self : ClarTestBuilder)
    (suite_name contents : string) (found : list (string * string * string))
    (decl sym : string) :
  scan_tests suite_name contents = Ok found ->
  (decl, sym, "categorize") ∈ found ->
  exists b s cbs,
    _process_declarations self suite_name contents = Ok b
    /\ suite_data b !! suite_name = Some s
    /\ callback_data b !! suite_name = Some cbs
    /\ is_Some (categorize s)
    /\ {| short_name := "categorize"; declaration := decl; symbol := sym |} ∈ cbs
    /\ cb_count s = length cbs
    /\ (forall cb, cb ∈ cbs ->
          short_name cb <> "initialize" /\ short_name cb <> "cleanup").
Proof.
  intros Hscan Hin. unfold _process_declarations. rewrite Hscan. simpl bind.
  assert (Hcb : data_of (decl, sym, "categorize") ∈ l_callbacks (classify_all found)).
  { rewrite classify_all_callbacks. apply list_elem_of_fmap.
    exists (decl, sym, "categorize"). split; [done|].
    by apply list_elem_of_filter. }
  assert (Hne : l_callbacks (classify_all found) <> []).
  { intros E. rewrite E in Hcb. by apply elem_of_nil in Hcb. }
  rewrite register_suite_callbacks by done.
  eexists _, _, _. split; [reflexivity|].
  simpl suite_data. simpl callback_data. rewrite !lookup_insert_eq.
  split; [reflexivity|]. split; [reflexivity|]. simpl.
  split; [by eapply classify_all_categorize|].
  split; [by rewrite sort_by_Permutation|].
  split; [by rewrite sort_by_Permutation|].
  intros cb. rewrite sort_by_Permutation, classify_all_callbacks.
  intros (m & -> & [Hm _]%list_elem_of_filter)%list_elem_of_fmap.
  unfold chained in Hm. apply orb_false_elim in Hm as [H1 H2].
  apply String.eqb_neq in H1, H2. done.
Qed.

Lemma C1_categorize_in_callback_list_witness :
  let cat := {| short_name := "categorize";
                declaration := "void test_s__categorize(void)";
                symbol := "test_s__categorize" |} in
  exists b s cbs,
    _process_declarations (new_builder one_file_env "/t" None "default")
      "s" categorize_file = Ok b
    /\ suite_data b !! "s" = Some s
    /\ callback_data b !! "s" = Some cbs
    /\ categorize s = Some cat
    /\ cat ∈ cbs
    /\ cb_count s = 2.
Proof.
  intros cat.
  destruct (C1_categorize_in_callback_list
              (new_builder one_file_env "/t" None "default") "s" categorize_file
              [ ("void test_s__categorize(void)", "test_s__categorize",
                 "categorize");
                ("void test_s__one(void)", "test_s__one", "one") ]
              "void test_s__categorize(void)" "test_s__categorize")
    as (b & s & cbs & Hb & Hs & Hcbs & _ & Hin & Hcount & _).
  { by vm_compute. }
  { left. }
  exists b, s, cbs. split; [exact Hb|]. split; [exact Hs|]. split; [exact Hcbs|].
  vm_compute in Hb. injection Hb as <-.
  vm_compute in Hs. injection Hs as <-.
  vm_compute in Hcbs. injection Hcbs as <-.
  split; [reflexivity|]. split; [exact Hin|]. reflexivity.
Defined.

(** C3. For a tree that holds one file with a [categorize] function and one
    test, the callback total given to the main template is 2, although the
    suite has one ordinary callback: the callback in the [categorize] role
    is counted. The main file has a callback array of one entry and the
    total 2. *)
Theorem C3_callback_count_includes_categorize :
  let one := {| short_name := "one";
                declaration := "void test_s__one(void)";
                symbol := "test_s__one" |} in
  exists b,
    __init__ one_file_env categorize_fs "/t" (Some "/c") "default" = Ok b
    /\ callback_count b = 2
    /\ ordinary_count b = 1
    /\ _render_main one_file_env categorize_fs b
       = Ok (callbacks_text "s" [one] +:+ nl +:+ "1 2" +:+ nl).
Proof.
  intros one. eexists. split; [by vm_compute|].
  split; [by vm_compute|]. split; by vm_compute.
Qed.

(** ** C2: the text normalizer *)



(** ** C4: a file without tests *)

(** A file with one event callback and one [initialize] function has no
    ordinary test, and processing it adds a declaration to the global list. *)
Lemma C4_counterexample :
  let self := new_builder one_file_env "/t" None "default" in
  exists found b,
    scan_tests "s" (_skip_comments events_only_file) = Ok found
    /\ Forall (fun m => reserved m.2 = true) found
    /\ _process_test_file self "s" events_only_file = Ok b
    /\ suite_data b = suite_data self
    /\ declarations b <> declarations self.
Proof.
  eexists _, _. split; [by vm_compute|].
  split; [by repeat constructor|].
  split; [by vm_compute|].
  split; by vm_compute.
Qed.

(** C4 (amended). When every scanned test function of a file is named
    [initialize] or [cleanup], processing the file creates no suite: the
    suite map, the callback map and the list of suite names are unchanged,
    the scanned functions add nothing to the declaration list, and the only
    declarations the file adds are those of its recognised event callbacks. *)
Theorem C4_no_tests_no_suite (self : ClarTestBuilder)
    (suite_name contents : string) (found : list (string * string * string)) :
  scan_tests suite_name (_skip_comments contents) = Ok found ->
  Forall (fun m => chained m.2 = true) found ->
  exists b,
    _process_test_file self suite_name contents = Ok b
    /\ suite_data b = suite_data self
    /\ callback_data b = callback_data self
    /\ suite_names b = suite_names self
    /\ declarations b
       = declarations self
         ++ (recognised (scan_events (_skip_comments contents))).*1.
Proof.
  intros Hscan Hall. rewrite process_test_file_unfold, Hscan. simpl bind.
  eexists. split; [reflexivity|].
  assert (Hnone : l_callbacks (classify_all found) = []).
  { rewrite classify_all_callbacks.
    clear Hscan. induction Hall as [|m found Hm _ IH]; [done|].
    rewrite filter_cons_False; [done|]. by rewrite Hm. }
  rewrite register_suite_no_callbacks by done.
  destruct (process_events_suites self (_skip_comments contents)) as (? & ? & ?).
  by rewrite process_events_declarations.
Qed.

Lemma C4_no_tests_no_suite_witness :
  exists b,
    _process_test_file (new_builder one_file_env "/t" None "default")
      "s" events_only_file = Ok b
    /\ suite_data b = ∅
    /\ callback_data b = ∅
    /\ suite_names b = []
    /\ declarations b = [ "void clar_on_init(void)" ].
Proof.
  assert (Hscan : scan_tests "s" (_skip_comments events_only_file)
                  = Ok [ ("void test_s__initialize(void)", "test_s__initialize",
                          "initialize") ]) by (vm_compute; reflexivity).
  assert (Hall : Forall (fun m : string * string * string => chained m.2 = true)
                   [ ("void test_s__initialize(void)", "test_s__initialize",
                      "initialize") ]) by (repeat constructor).
  destruct (C4_no_tests_no_suite (new_builder one_file_env "/t" None "default")
              "s" events_only_file _ Hscan Hall) as (b & Hb & H1 & H2 & H3 & H4).
  exists b. repeat split; assumption.
Defined.

(** ** C5: the suite name inside the pattern *)




(** ** C6: the override block *)

Lemma foldM_load_events (fs : gmap string string) (tests : list (string * string))
    (b b' : ClarTestBuilder) :
  foldM (load_test fs) b tests = Ok b' ->
  forall event, event ∈ CLAR_EVENTS ->
    event ∈ event_callbacks b'
    <-> event ∈ event_callbacks b \/ event ∈ events_in_tree fs tests.
Proof.
  revert b. induction tests as [|t tests IH]; intros b H event Hev.
  - simpl in H. injection H as <-. unfold events_in_tree. simpl.
    rewrite elem_of_nil. tauto.
  - simpl in H. destruct (load_test fs b t) as [b1|] eqn:E; [|done].
    simpl in H. rewrite (IH b1 H event Hev). clear IH H.
    unfold load_test, read_file in E.
    unfold events_in_tree. simpl flat_map. fold (events_in_tree fs tests).
    destruct (fs !! t.2) as [c|]; [|done]. simpl in E.
    rewrite (process_test_file_event_callbacks b b1 t.1 c E).
    rewrite !elem_of_app, !list_elem_of_fmap.
    split.
    + intros [[?|(p & -> & Hp)]|?]; [tauto| |tauto].
      right. left. exists p. split; [done|].
      unfold recognised in Hp. by apply list_elem_of_filter in Hp as [_ ?].
    + intros [?|[(p & -> & Hp)|?]]; [tauto| |tauto].
      left. right. exists p. split; [done|].
      unfold recognised. by apply list_elem_of_filter.
Qed.

Global Instance override_macro_Inj : Inj (=) (=) override_macro.
Proof.
  intros e1 e2 H. unfold override_macro in H.
  apply (inj (String.app _)) in H. by apply app_inv_tail in H.
Qed.

Lemma event_overrides_found (fs : gmap string string)
    (tests : list (string * string)) (b0 b : ClarTestBuilder) :
  event_callbacks b0 = [] ->
  foldM (load_test fs) b0 tests = Ok b ->
  event_overrides b
  = override_macro
      <$> filter (fun event => event ∉ events_in_tree fs tests) CLAR_EVENTS.
Proof.
  intros H0 H. unfold event_overrides. f_equal.
  apply filter_ext_elem_of. intros event Hev.
  rewrite (foldM_load_events fs tests b0 b H event Hev), H0, elem_of_nil. tauto.
Qed.

Lemma init_foldM (e : env) (fs : gmap string string) (path : string)
    (clar_path : option string) (print_mode : string) (b : ClarTestBuilder) :
  __init__ e fs path clar_path print_mode = Ok b ->
  foldM (load_test fs) (new_builder e path clar_path print_mode)
    (run_tests e path) = Ok b
  /\ suite_data b <> ∅.
Proof.
  rewrite init_unfold. intros H.
  destruct (foldM _ _ _) as [b1|]; [|done]. simpl in H.
  destruct (decide (suite_data b1 = ∅)); [done|]. by injection H as <-.
Qed.



(** ** C7: no tests found, and the two output files *)

Lemma os_path_join_inj (a b1 b2 : string) :
  Str.startswith "/" b1 = false -> Str.startswith "/" b2 = false ->
  os_path_join a b1 = os_path_join a b2 -> b1 = b2.
Proof.
  unfold os_path_join. intros -> ->.
  destruct (decide (a = "")); [done|].
  destruct (Str.endswith "/" a); intros H.
  - by apply (inj (String.app a)) in H.
  - apply (inj (String.app a)) in H. by apply (inj (String.app "/")) in H.
Qed.

Lemma main_header_distinct (self : ClarTestBuilder) :
  main_file self <> header_file self.
Proof.
  intros H. by apply os_path_join_inj in H.
Qed.

(** With [--clar-path /c] where [/c] has no [clar.h], the run fails while it
    renders the header: by then [clar_main.c] holds its full text, and
    [clar.h], which did not exist, is left empty. *)
Lemma C7_counterexample :
  let r := generate one_file_env no_header_fs "/t" (Some "/c") "default" in
  r.2 = Err (IOError "/c/clar.h")
  /\ no_header_fs !! "/t/clar_main.c" = None
  /\ no_header_fs !! "/t/clar.h" = None
  /\ (exists text, r.1 !! "/t/clar_main.c" = Some text /\ text <> "")
  /\ r.1 !! "/t/clar.h" = Some "".
Proof.
  repeat split; try (by vm_compute).
  eexists. split; [by vm_compute|]. by vm_compute.
Qed.

Lemma generate_unfold (e : env) (fs : gmap string string) (folder : string)
    (clar_path : option string) (print_mode : string) :
  generate e fs folder clar_path print_mode =
  match foldM (load_test fs) (new_builder e folder clar_path print_mode)
          (run_tests e folder) with
  | Err x => (fs, Err x)
  | Ok b =>
      if decide (suite_data b = ∅)
      then (fs, Err (RuntimeError (no_tests_message folder)))
      else render e fs b
  end.
Proof.
  unfold generate. rewrite init_unfold.
  destruct (foldM _ _ _) as [b|x]; [|done]. simpl.
  by destruct (decide (suite_data b = ∅)).
Qed.

(** C7 (amended). If the walk produces no suite, the generator raises the
    error [No tests found under "<path>"], with the path it was given, and
    writes nothing. When there is a suite this error is not raised and
    [render] runs: it writes [clar_main.c] first and [clar.h] second, each
    file being emptied before its text is rendered. So when both texts
    render both files are written; when the main text fails [clar_main.c]
    is left empty and [clar.h] is untouched; when the header text fails
    [clar_main.c] holds its text and [clar.h] is left empty. No other file
    is changed. *)
Theorem C7_no_tests_error_and_outputs (e : env) (fs : gmap string string)
    (folder : string) (clar_path : option string) (print_mode : string)
    (b : ClarTestBuilder) :
  foldM (load_test fs) (new_builder e folder clar_path print_mode)
    (run_tests e folder) = Ok b ->
  let r := generate e fs folder clar_path print_mode in
  let fs1 := <[main_file b := ""]> fs in
  (suite_data b = ∅ ->
   r = (fs, Err (RuntimeError (no_tests_message folder))))
  /\ (suite_data b <> ∅ ->
      __init__ e fs folder clar_path print_mode = Ok b
      /\ (forall file, file <> main_file b -> file <> header_file b ->
            r.1 !! file = fs !! file)
      /\ match _render_main e fs1 b with
         | Err x =>
             r.2 = Err x
             /\ r.1 !! main_file b = Some ""
             /\ r.1 !! header_file b = fs !! header_file b
         | Ok text =>
             let fs3 := <[header_file b := ""]> (<[main_file b := text]> fs1) in
             r.1 !! main_file b = Some text
             /\ match _render_header e fs3 b with
                | Err x => r.2 = Err x /\ r.1 !! header_file b = Some ""
                | Ok header =>
                    r.2 = Ok () /\ r.1 !! header_file b = Some header
                end
         end).
Proof.
  intros Hwalk r fs1. unfold r. rewrite generate_unfold, Hwalk.
  pose proof (main_header_distinct b) as Hne.
  split.
  - intros Hempty. by destruct (decide (suite_data b = ∅)).
  - intros Hsome. destruct (decide (suite_data b = ∅)); [done|].
    split.
    { rewrite init_unfold, Hwalk. simpl.
      by destruct (decide (suite_data b = ∅)). }
    unfold render. fold fs1.
    destruct (_render_main e fs1 b) as [text|x].
    + destruct (_render_header e _ b) as [header|x]; simpl.
      * split.
        { intros file H1 H2. unfold fs1. by rewrite !lookup_insert_ne. }
        split.
        { rewrite !(lookup_insert_ne _ (header_file b)) by done.
          by rewrite lookup_insert_eq. }
        split; [done|]. by rewrite lookup_insert_eq.
      * split.
        { intros file H1 H2. unfold fs1. by rewrite !lookup_insert_ne. }
        split.
        { rewrite !(lookup_insert_ne _ (header_file b)) by done.
          by rewrite lookup_insert_eq. }
        split; [done|]. by rewrite lookup_insert_eq.
    + simpl. split.
      { intros file H1 H2. unfold fs1. by rewrite !lookup_insert_ne. }
      split; [done|]. unfold fs1. split; [by rewrite lookup_insert_eq|].
      by rewrite lookup_insert_ne.
Qed.

Lemma C7_no_tests_error_and_outputs_witness :
  generate one_file_env no_test_fs "/t" None "default"
  = (no_test_fs, Err (RuntimeError (no_tests_message "/t")))
  /\ (let r := generate one_file_env with_header_fs "/t" (Some "/c") "default" in
      r.2 = Ok () /\ is_Some (r.1 !! "/t/clar_main.c")
      /\ is_Some (r.1 !! "/t/clar.h")).
Proof.
  split.
  - destruct (foldM (load_test no_test_fs)
                (new_builder one_file_env "/t" None "default")
                (run_tests one_file_env "/t")) as [b|x] eqn:E;
      [|by vm_compute in E].
    apply (C7_no_tests_error_and_outputs _ _ _ _ _ b E).
    assert (Hb : Ok b = foldM (load_test no_test_fs)
                          (new_builder one_file_env "/t" None "default")
                          (run_tests one_file_env "/t")) by (by rewrite E).
    vm_compute in Hb. by injection Hb as ->.
  - vm_compute. repeat split; eexists; reflexivity.
Defined.

(** ** C8: the suite descriptors *)

Lemma process_test_file_registered (b1 b2 : ClarTestBuilder)
    (suite_name contents : string) :
  suites_registered b1 ->
  _process_test_file b1 suite_name contents = Ok b2 ->
  suites_registered b2.
Proof.
  intros Hinv. rewrite process_test_file_unfold. intros H.
  destruct (scan_tests suite_name (_skip_comments contents)) as [found|]; [|done].
  simpl in H. injection H as <-.
  destruct (process_events_suites b1 (_skip_comments contents)) as (E1 & E2 & E3).
  destruct (l_callbacks (classify_all found)) as [|cb cbs] eqn:E.
  - rewrite register_suite_no_callbacks by done.
    intros s. rewrite E1, E2, E3. apply Hinv.
  - rewrite register_suite_callbacks by (by rewrite E).
    intros s. simpl. rewrite E1, E2, E3, elem_of_app, list_elem_of_singleton.
    destruct (decide (s = suite_name)) as [->|Hne].
    + intros _. rewrite !lookup_insert_eq. eauto.
    + intros [Hs|?]; [|done]. rewrite !lookup_insert_ne by done. by apply Hinv.
Qed.

Lemma init_registered (e : env) (fs : gmap string string) (path : string)
    (clar_path : option string) (print_mode : string) (b : ClarTestBuilder) :
  __init__ e fs path clar_path print_mode = Ok b -> suites_registered b.
Proof.
  apply init_invariant.
  - apply process_test_file_registered.
  - intros s Hs. by apply elem_of_nil in Hs.
Qed.

(** C8. After a run, the list of rendered suite descriptors follows the
    suite names in lexicographic order, whatever the order in which the
    suites were discovered, and the descriptor at position [i] is the text
    of the suite with the [i]-th smallest name, carrying the index [i]. *)
Theorem C8_suite_descriptors (e : env) (fs : gmap string string) (path : string)
    (clar_path : option string) (print_mode : string) (b : ClarTestBuilder) :
  __init__ e fs path clar_path print_mode = Ok b ->
  exists ds,
    suite_descriptors b = Ok ds
    /\ length ds = length (suite_names b)
    /\ Sorted String.le (sorted (suite_names b))
    /\ sorted (suite_names b) ≡ₚ suite_names b
    /\ (forall i s,
          sorted (suite_names b) !! i = Some s ->
          exists d,
            suite_data b !! s = Some d /\ name d = s
            /\ ds !! i = Some (descriptor_text d i))
    /\ (forall discovered,
          discovered ≡ₚ suite_names b ->
          sorted discovered = sorted (suite_names b)).
Proof.
  intros H. apply init_registered in H.
  assert (Hreg : forall s, s ∈ sorted (suite_names b) ->
                   exists d, suite_data b !! s = Some d /\ name d = s).
  { intros s Hs. rewrite sorted_Permutation in Hs. by apply H. }
  destruct (mapM_exists
              (fun '(i, s) => d <- item (suite_data b) s ;; _render_suite d i)
              (enumerate (sorted (suite_names b)))) as [ds Hds].
  { intros [i s] Hin. unfold enumerate in Hin.
    apply list_elem_of_lookup in Hin as [j Hj].
    apply list_lookup_imap_Some in Hj as (s' & Hs' & [= -> ->]).
    destruct (Hreg s') as (d & Hd & _); [by eapply list_elem_of_lookup_2|].
    unfold item. rewrite Hd. simpl. rewrite render_suite_text. eauto. }
  exists ds. split; [done|].
  apply mapM_lookup in Hds as [Hlen Hds].
  split; [|split; [|split; [|split]]].
  - unfold enumerate in Hlen.
    by rewrite Hlen, length_imap, sorted_Permutation.
  - apply sorted_Sorted.
  - apply sorted_Permutation.
  - intros i s Hs.
    destruct (Hreg s) as (d & Hd & Hname); [by eapply list_elem_of_lookup_2|].
    exists d. split; [done|]. split; [done|].
    destruct (Hds i (i, s)) as (y & Hy & Hrender).
    { unfold enumerate. rewrite list_lookup_imap, Hs. done. }
    unfold item in Hrender. rewrite Hd in Hrender. simpl in Hrender.
    rewrite render_suite_text in Hrender. by injection Hrender as <-.
  - intros discovered. apply sorted_perm.
Qed.

Lemma C8_suite_descriptors_witness :
  exists b ds,
    __init__ two_file_env two_file_fs "/t" None "default" = Ok b
    /\ suite_names b = [ "b"; "a" ]
    /\ suite_descriptors b = Ok ds
    /\ ds = [ descriptor_text
                {| name := "a"; categorize := None; initialize := None;
                   cleanup := None; cb_count := 1 |} 0;
              descriptor_text
                {| name := "b"; categorize := None; initialize := None;
                   cleanup := None; cb_count := 1 |} 1 ].
Proof.
  destruct (__init__ two_file_env two_file_fs "/t" None "default")
    as [b|err] eqn:E; [|by vm_compute in E].
  destruct (C8_suite_descriptors _ _ _ _ _ _ E)
    as (ds & Hds & Hlen & _ & _ & Hnth & _).
  exists b, ds. split; [reflexivity|].
  assert (Hb : Ok b = __init__ two_file_env two_file_fs "/t" None "default")
    by (by rewrite E).
  vm_compute in Hb. injection Hb as ->.
  split; [reflexivity|]. split; [exact Hds|].
  vm_compute in Hds. injection Hds as <-. vm_compute. reflexivity.
Defined.

(** ** C9: the callback array of a suite *)

(** The entries of a sorted callback list are determined by the sorted short
    names when every symbol is built from the short name. *)
Lemma callback_entries_keys (suite_name : string) (l : list callback) :
  (forall cb, cb ∈ l -> symbol cb = test_symbol suite_name (short_name cb)) ->
  callback_entries (sort_by short_name l)
  = entry_of suite_name
      <$> filter (fun k => reserved k = false) (sorted (short_name <$> l)).
Proof.
  intros Hsym. unfold callback_entries.
  rewrite <- sort_by_keys, filter_fmap, <- list_fmap_compose.
  apply fmap_ext_elem_of. intros cb Hcb.
  apply list_elem_of_filter in Hcb as [_ Hcb].
  rewrite sort_by_Permutation in Hcb.
  unfold _render_cb, entry_of. simpl. by rewrite (Hsym cb Hcb).
Qed.

Lemma scanned_callbacks_symbol (suite_name contents : string)
    (found : list (string * string * string)) (cb : callback) :
  plain_name suite_name ->
  scan_tests suite_name contents = Ok found ->
  cb ∈ l_callbacks (classify_all found) ->
  symbol cb = test_symbol suite_name (short_name cb).
Proof.
  intros Hplain Hscan. rewrite classify_all_callbacks, list_elem_of_fmap.
  intros ([[decl sym] short] & -> & Hin).
  apply list_elem_of_filter in Hin as [_ Hin].
  destruct (scan_tests_sound _ _ _ _ _ _ Hscan Hin)
    as (seg & ws1 & ws2 & ws3 & Hfit & _ & _ & _ & _ & _ & ->).
  simpl. by rewrite (fits_plain_name _ _ Hplain Hfit).
Qed.

Lemma sorted_callbacks_Sorted (l : list callback) :
  Sorted String.le
    (short_name
       <$> filter (fun cb => reserved (short_name cb) = false)
                  (sort_by short_name l)).
Proof.
  apply StronglySorted_Sorted.
  apply (StronglySorted_fmap short_name (key_le short_name)); [done|].
  apply StronglySorted_filter, Sorted_StronglySorted; [apply _|].
  apply sort_by_Sorted.
Qed.




(** ** C10: event callbacks are registered for every file *)

Lemma CLAR_EVENTS_words (event : string) :
  event ∈ CLAR_EVENTS -> event <> "" /\ word_chars event.
Proof.
  unfold CLAR_EVENTS. rewrite !elem_of_cons, elem_of_nil.
  intros [->|[->|[->|[->|[]]]]]; by vm_compute.
Qed.



(** * Further properties *)

(** ** The normalizer as a scan from left to right *)

Lemma tokenized_unique (s : string) (t1 t2 : list token) :
  tokenized s t1 -> tokenized s t2 -> t1 = t2.
Proof.
  intros H1. revert t2.
  induction H1 as [|s k t r toks Hspan _ IH|c s toks Hnone _ IH]; intros t2 H2.
  - by inversion H2.
  - inversion H2; simplify_eq. f_equal. by apply IH.
  - inversion H2; simplify_eq. f_equal. by apply IH.
Qed.

Lemma skip_comments_tokens (s : string) (toks : list token) :
  tokenized s toks ->
  _skip_comments s = concat_strings (token_kept <$> toks).
Proof.
  intros Htok.
  destruct (skip_pieces (S (String.length s)) None s) as (toks' & Htok' & H);
    [lia|].
  by rewrite (tokenized_unique _ _ _ Htok Htok').
Qed.

Lemma tokenized_exists (s : string) : exists toks, tokenized s toks.
Proof.
  destruct (skip_pieces (S (String.length s)) None s) as (toks & Htok & _);
    [lia|]. eauto.
Qed.

Lemma skip_comments_step (s : string) :
  _skip_comments s =
  match span_at s with
  | Some (k, t, r) => (if is_comment k then "" else t) +:+ _skip_comments r
  | None =>
      match s with
      | "" => ""
      | String c s' => String c (_skip_comments s')
      end
  end.
Proof.
  destruct (span_at s) as [[[k t] r]|] eqn:Hspan.
  - destruct (tokenized_exists r) as [toks Htok].
    rewrite (skip_comments_tokens s (Span k t :: toks))
      by (by econstructor).
    by rewrite (skip_comments_tokens r toks), fmap_cons, concat_strings_cons.
  - destruct s as [|c s]; [by vm_compute|].
    destruct (tokenized_exists s) as [toks Htok].
    rewrite (skip_comments_tokens (String c s) (Char c :: toks))
      by (by constructor).
    by rewrite (skip_comments_tokens s toks), fmap_cons, concat_strings_cons.
Qed.

(** The normalizer works from left to right: where a comment or a literal
    starts, the comment is dropped or the literal kept, and the scan goes
    on after it; any other character is kept and the scan goes on with the
    next one. *)
Theorem skip_comments_scan (s : string) :
  _skip_comments s =
  match span_at s with
  | Some (k, t, r) => (if is_comment k then "" else t) +:+ _skip_comments r
  | None =>
      match s with
      | "" => ""
      | String c s' => String c (_skip_comments s')
      end
  end.
Proof. apply skip_comments_step. Qed.

Lemma all_in_app (p : ascii -> bool) (a b : string) :
  all_in p (a +:+ b) = all_in p a && all_in p b.
Proof.
  induction a as [|c a IH]; [by rewrite StrFacts.app_nil_l|].
  rewrite StrFacts.app_cons. simpl. by rewrite IH, andb_assoc.
Qed.

(** A property of texts that holds for the empty text and is kept by both
    steps of the scan holds for every text. *)
Lemma span_scan_ind (P : string -> Prop) :
  P "" ->
  (forall k t r, t <> "" -> span_at (t +:+ r) = Some (k, t, r) -> P r ->
                 P (t +:+ r)) ->
  (forall c s, span_at (String c s) = None -> P s -> P (String c s)) ->
  forall s, P s.
Proof.
  intros Hnil Hspan Hchar s.
  destruct (tokenized_exists s) as [toks Htok].
  induction Htok as [|s k t r toks Hs _ IH|c s toks Hs _ IH]; [done| |by auto].
  destruct (span_at_text _ _ _ _ Hs) as (-> & Hne & _). by apply (Hspan k).
Qed.

(** The normalizer never makes a text longer. *)
Theorem skip_comments_length (s : string) :
  String.length (_skip_comments s) <= String.length s.
Proof.
  pattern s. apply span_scan_ind; clear s;
    [|intros k t r Hne Hs IH|intros c s Hs IH].
  - by vm_compute.
  - rewrite skip_comments_step, Hs, !StrFacts.length_app.
    destruct (is_comment k); simpl; lia.
  - rewrite skip_comments_step, Hs. simpl. lia.
Qed.

(** A text without a slash has no comment, and the normalizer returns it
    as it is, its literals included. *)
Theorem skip_comments_without_slash (s : string) :
  without "/" s -> _skip_comments s = s.
Proof.
  unfold without. pattern s. apply span_scan_ind; clear s;
    [|intros k t r Hne Hs IH|intros c s Hs IH]; intros H.
  - by vm_compute.
  - rewrite all_in_app in H. apply andb_prop in H as [Ht Hr].
    rewrite skip_comments_step, Hs, (IH Hr).
    destruct (span_at_text _ _ _ _ Hs) as (_ & _ & Hstart).
    destruct (is_comment k); [|done].
    destruct t as [|a t]; [done|]. cbn [Str.startswith all_in] in Hstart, Ht.
    apply andb_prop in Hstart as [Ha _]. apply Ascii.eqb_eq in Ha as <-.
    done.
  - simpl in H. apply andb_prop in H as [_ H].
    by rewrite skip_comments_step, Hs, (IH H).
Qed.

Lemma skip_comments_without_slash_witness :
  _skip_comments ("char c = 'x';" +:+ nl) = "char c = 'x';" +:+ nl.
Proof. apply skip_comments_without_slash. reflexivity. Defined.

(** ** Comments and literals at the head of a text *)

Lemma quoted_end_plain (q : ascii) (body r : string) :
  without q body -> without "\" body ->
  quoted_end q (body +:+ String q r) = Some (body, r).
Proof.
  unfold without. induction body as [|c body IH]; intros Hq Hb.
  - rewrite StrFacts.app_nil_l. simpl. by rewrite Ascii.eqb_refl.
  - rewrite StrFacts.app_cons. simpl in *.
    apply andb_prop in Hq as [Hc Hq]. apply andb_prop in Hb as [Hc' Hb].
    apply negb_true_iff in Hc, Hc'. rewrite Hc, Hc'. by rewrite IH.
Qed.

(** A character or string literal without a backslash is kept as it is,
    whatever it holds (comment marks too), and the scan goes on after its
    closing quote. *)
Theorem skip_comments_literal (q : ascii) (body r : string) :
  q = "'"%char \/ q = Str.dquote ->
  without q body -> without "\" body ->
  _skip_comments (String q body +:+ String q r)
  = String q body +:+ String q (_skip_comments r).
Proof.
  intros Hq Hbody Hback. rewrite skip_comments_step.
  assert (Hspan : exists k,
            span_at (String q body +:+ String q r)
            = Some (k, String q body +:+ String q "", r) /\ is_comment k = false).
  { rewrite StrFacts.app_cons. unfold span_at, quoted_span.
    destruct Hq as [->| ->]; cbn [Ascii.eqb Bool.eqb]; simpl;
      rewrite quoted_end_plain by done; eauto. }
  destruct Hspan as (k & -> & ->).
  by rewrite !StrFacts.app_assoc.
Qed.

Lemma skip_comments_literal_witness :
  _skip_comments (dq +:+ "http://x /* y */" +:+ dq +:+ "; // z")
  = dq +:+ "http://x /* y */" +:+ dq +:+ "; ".
Proof.
  pose proof (skip_comments_literal Str.dquote "http://x /* y */" "; // z"
                (or_intror eq_refl) eq_refl eq_refl) as H.
  vm_compute in H. vm_compute. exact H.
Defined.

Lemma line_end_plain (c r : string) :
  without Str.newline c ->
  line_end (c +:+ String Str.newline r) = (c, String Str.newline r)
  /\ line_end c = (c, "").
Proof.
  unfold without. induction c as [|a c IH]; intros H.
  - rewrite StrFacts.app_nil_l. done.
  - rewrite StrFacts.app_cons. simpl in *. apply andb_prop in H as [Ha H].
    apply negb_true_iff in Ha. rewrite Ha.
    destruct (IH H) as [-> ->]. done.
Qed.

(** A line comment is dropped up to the end of its line: the newline that
    ends the line is kept, and a comment on the last line, which has no
    newline, is dropped whole. *)
Theorem skip_comments_line_comment (c r : string) :
  without Str.newline c ->
  _skip_comments ("//" +:+ c +:+ String Str.newline r)
  = String Str.newline (_skip_comments r)
  /\ _skip_comments ("//" +:+ c) = "".
Proof.
  intros Hc. destruct (line_end_plain c r Hc) as [H1 H2]. split.
  - rewrite skip_comments_step.
    rewrite !StrFacts.app_cons, StrFacts.app_nil_l. cbn [span_at Ascii.eqb Bool.eqb].
    simpl. rewrite H1. simpl. rewrite StrFacts.app_nil_l.
    by rewrite skip_comments_step.
  - rewrite skip_comments_step.
    rewrite !StrFacts.app_cons, StrFacts.app_nil_l. cbn [span_at Ascii.eqb Bool.eqb].
    simpl. rewrite H2. simpl. by vm_compute.
Qed.

Lemma skip_comments_line_comment_witness :
  _skip_comments ("// setup" +:+ nl +:+ "int x;") = nl +:+ "int x;".
Proof.
  destruct (skip_comments_line_comment " setup" "int x;" eq_refl) as [H _].
  vm_compute in H. vm_compute. exact H.
Defined.

Lemma block_end_cons (a d : ascii) (x : string) :
  block_end (String a (String d x))
  = if Ascii.eqb a "*" && Ascii.eqb d "/" then Some ("", x)
    else match block_end (String d x) with
         | Some (b, r) => Some (String a b, r)
         | None => None
         end.
Proof. reflexivity. Qed.

Lemma block_end_plain (c r : string) :
  no_block_close c ->
  block_end (c +:+ "*/" +:+ r) = Some (c, r).
Proof.
  unfold no_block_close. induction c as [|a c IH]; intros H.
  - by rewrite StrFacts.app_nil_l.
  - destruct c as [|d c'].
    + rewrite !StrFacts.app_cons, !StrFacts.app_nil_l in *.
      rewrite block_end_cons, (IH eq_refl).
      replace (Ascii.eqb "*" "/") with false by done.
      by rewrite andb_false_r.
    + rewrite !StrFacts.app_cons in *. rewrite block_end_cons in *.
      destruct (Ascii.eqb a "*" && Ascii.eqb d "/"); [done|].
      destruct (block_end (String d c')) as [[b r']|] eqn:E; [done|].
      by rewrite (IH eq_refl).
Qed.

(** A block comment is dropped up to its first closing mark, newlines
    included; an opening mark with no closing mark after it opens no
    comment: its slash is kept and the scan goes on behind it. *)
Theorem skip_comments_block_comment (c r : string) :
  no_block_close c ->
  _skip_comments ("/*" +:+ c +:+ "*/" +:+ r) = _skip_comments r
  /\ _skip_comments ("/*" +:+ c) = "/" +:+ _skip_comments ("*" +:+ c).
Proof.
  intros Hc. split.
  - rewrite skip_comments_step.
    rewrite !(StrFacts.app_cons _ _ (c +:+ _)), StrFacts.app_nil_l.
    cbn [span_at Ascii.eqb Bool.eqb]. simpl.
    rewrite (block_end_plain c r Hc). simpl. by rewrite StrFacts.app_nil_l.
  - rewrite skip_comments_step.
    rewrite !(StrFacts.app_cons _ _ c), StrFacts.app_nil_l.
    cbn [span_at Ascii.eqb Bool.eqb]. simpl.
    unfold no_block_close in Hc. by rewrite Hc.
Qed.

Lemma skip_comments_block_comment_witness :
  _skip_comments ("/* a" +:+ nl +:+ " * b */int x;") = "int x;"
  /\ _skip_comments "/* open" = "/* open".
Proof.
  split.
  - destruct (skip_comments_block_comment (" a" +:+ nl +:+ " * b ") "int x;"
                eq_refl) as [H _].
    vm_compute in H. vm_compute. exact H.
  - destruct (skip_comments_block_comment " open" "" eq_refl) as [_ H].
    vm_compute in H. vm_compute. exact H.
Defined.

(** ** What holds of a builder after the walk *)

Lemma process_test_file_cases (b1 b2 : ClarTestBuilder)
    (suite_name contents : string) :
  _process_test_file b1 suite_name contents = Ok b2 ->
  let b := _process_events b1 (_skip_comments contents) in
  exists found,
    scan_tests suite_name (_skip_comments contents) = Ok found
    /\ ((l_callbacks (classify_all found) = [] /\ b2 = b)
        \/ (l_callbacks (classify_all found) <> []
            /\ b2 = register_suite b suite_name (classify_all found))).
Proof.
  rewrite process_test_file_unfold. intros H b.
  destruct (scan_tests suite_name (_skip_comments contents)) as [found|]; [|done].
  simpl in H. injection H as <-. exists found. split; [done|].
  destruct (l_callbacks (classify_all found)) as [|cb l] eqn:E.
  - left. split; [done|]. by rewrite register_suite_no_callbacks.
  - right. split; [done|]. done.
Qed.

Lemma suites_consistent_after_init (e : env) (fs : gmap string string)
    (path : string) (clar_path : option string) (print_mode : string)
    (b : ClarTestBuilder) :
  __init__ e fs path clar_path print_mode = Ok b ->
  forall s,
    (s ∈ suite_names b <-> is_Some (suite_data b !! s))
    /\ (is_Some (suite_data b !! s) <-> is_Some (callback_data b !! s))
    /\ forall d cbs,
         suite_data b !! s = Some d -> callback_data b !! s = Some cbs ->
         name d = s /\ cb_count d = length cbs /\ 0 < length cbs
         /\ Sorted (key_le short_name) cbs.
Proof.
  apply (init_invariant (fun b => forall s,
    (s ∈ suite_names b <-> is_Some (suite_data b !! s))
    /\ (is_Some (suite_data b !! s) <-> is_Some (callback_data b !! s))
    /\ forall d cbs,
         suite_data b !! s = Some d -> callback_data b !! s = Some cbs ->
         name d = s /\ cb_count d = length cbs /\ 0 < length cbs
         /\ Sorted (key_le short_name) cbs)).
  - intros b1 b2 suite_name contents Hinv H s.
    apply process_test_file_cases in H as (found & _ & [[_ ->]|[Hne ->]]);
      destruct (process_events_suites b1 (_skip_comments contents))
        as (E1 & E2 & E3).
    + rewrite E1, E2, E3. apply Hinv.
    + rewrite register_suite_callbacks by done. simpl.
      rewrite E1, E2, E3. destruct (decide (suite_name = s)) as [->|Hs].
      * rewrite !lookup_insert_eq. split; [|split].
        -- split; [eauto|]. intros _. apply elem_of_app. right. left.
        -- split; eauto.
        -- intros d cbs [= <-] [= <-]. simpl.
           assert (Hlen : length (sort_by short_name (l_callbacks (classify_all found)))
                          = length (l_callbacks (classify_all found)))
             by (by rewrite sort_by_Permutation).
           split; [done|]. split; [done|]. split.
           { rewrite Hlen. destruct (l_callbacks (classify_all found)); [done|].
             simpl. lia. }
           apply sort_by_Sorted.
      * rewrite !lookup_insert_ne by done.
        destruct (Hinv s) as (H1 & H2 & H3). split; [|done].
        rewrite elem_of_app, list_elem_of_singleton. rewrite <- H1.
        split; [intros [?|?]; [done|congruence]|by left].
  - intros s. simpl. rewrite !lookup_empty. split; [|split].
    + split; [by intros ?%elem_of_nil|by intros [? ?]].
    + done.
    + done.
Qed.

(** After the walk the three registries of suites agree: a name is listed
    exactly when it has a suite record, exactly when it has a callback
    list; the record carries the name it is stored under, its [cb_count] is
    the length of the callback list, which is not empty and is sorted by
    short name. *)
Theorem init_suites_consistent (e : env) (fs : gmap string string)
    (path : string) (clar_path : option string) (print_mode : string)
    (b : ClarTestBuilder) :
  __init__ e fs path clar_path print_mode = Ok b ->
  forall s,
    (s ∈ suite_names b <-> is_Some (suite_data b !! s))
    /\ (is_Some (suite_data b !! s) <-> is_Some (callback_data b !! s))
    /\ forall d cbs,
         suite_data b !! s = Some d -> callback_data b !! s = Some cbs ->
         name d = s /\ cb_count d = length cbs /\ 0 < length cbs
         /\ Sorted (key_le short_name) cbs.
Proof. apply suites_consistent_after_init. Qed.

Lemma init_suites_consistent_witness :
  exists b d cbs,
    __init__ one_file_env (one_file_fs init_event_file) "/t" None "default" = Ok b
    /\ suite_data b !! "s" = Some d /\ callback_data b !! "s" = Some cbs
    /\ "s" ∈ suite_names b /\ name d = "s" /\ cb_count d = length cbs.
Proof.
  destruct (__init__ one_file_env (one_file_fs init_event_file) "/t" None
              "default") as [b|err] eqn:E; [|by vm_compute in E].
  destruct (init_suites_consistent _ _ _ _ _ _ E "s") as (H1 & H2 & H3).
  assert (Hb : Ok b = __init__ one_file_env (one_file_fs init_event_file) "/t"
                        None "default") by (by rewrite E).
  vm_compute in Hb. injection Hb as Hb.
  assert (Hd : is_Some (suite_data b !! "s")) by (rewrite Hb; by eexists).
  destruct Hd as [d Hd]. destruct (proj1 H2 (ex_intro _ d Hd)) as [cbs Hcbs].
  exists b, d, cbs. split; [reflexivity|]. split; [done|]. split; [done|].
  split; [apply H1; by eexists|].
  destruct (H3 d cbs Hd Hcbs) as (? & ? & _). done.
Defined.

(** The callback total given to the main template is the sum of the
    [cb_count] fields of the suite records. *)
Theorem init_callback_total (e : env) (fs : gmap string string)
    (path : string) (clar_path : option string) (print_mode : string)
    (b : ClarTestBuilder) :
  __init__ e fs path clar_path print_mode = Ok b ->
  callback_count b = suite_cb_total b.
Proof.
  intros H. pose proof (suites_consistent_after_init _ _ _ _ _ _ H) as Hinv.
  assert (Heq : length <$> callback_data b = cb_count <$> suite_data b).
  { apply map_eq. intros s. rewrite !lookup_fmap.
    destruct (Hinv s) as (_ & H2 & H3).
    destruct (suite_data b !! s) as [d|] eqn:Ed,
             (callback_data b !! s) as [cbs|] eqn:Ec; simpl.
    - destruct (H3 d cbs eq_refl eq_refl) as (_ & -> & _). done.
    - destruct (proj1 H2 (ex_intro _ d eq_refl)) as [? ?]. done.
    - destruct (proj2 H2 (ex_intro _ cbs eq_refl)) as [? ?]. done.
    - done. }
  unfold callback_count, suite_cb_total.
  change (map_fold (fun _ cbs acc => length cbs + acc) 0 (callback_data b))
    with (map_fold (fun (_ : string) => (fun n acc => n + acc) ∘ length) 0
            (callback_data b)).
  change (map_fold (fun _ d acc => cb_count d + acc) 0 (suite_data b))
    with (map_fold (fun (_ : string) => (fun n acc => n + acc) ∘ cb_count) 0
            (suite_data b)).
  by rewrite <- !(map_fold_fmap (fun _ n acc => n + acc)), Heq.
Qed.

Lemma init_callback_total_witness :
  exists b,
    __init__ two_file_env two_file_fs "/t" None "default" = Ok b
    /\ callback_count b = suite_cb_total b /\ callback_count b = 2.
Proof.
  destruct (__init__ two_file_env two_file_fs "/t" None "default")
    as [b|err] eqn:E; [|by vm_compute in E].
  exists b. split; [reflexivity|].
  split; [by apply (init_callback_total _ _ _ _ _ _ E)|].
  assert (Hb : Ok b = __init__ two_file_env two_file_fs "/t" None "default")
    by (by rewrite E).
  vm_compute in Hb. injection Hb as ->. by vm_compute.
Defined.

Lemma process_test_file_declarations (b1 b2 : ClarTestBuilder)
    (suite_name contents : string) :
  _process_test_file b1 suite_name contents = Ok b2 ->
  exists tail,
    declarations b2
    = declarations b1
      ++ (recognised (scan_events (_skip_comments contents))).*1 ++ tail.
Proof.
  rewrite process_test_file_unfold. intros H.
  destruct (scan_tests suite_name (_skip_comments contents)) as [found|]; [|done].
  simpl in H. injection H as <-.
  destruct (register_suite_declarations_prefix
              (_process_events b1 (_skip_comments contents)) suite_name
              (classify_all found)) as [tail Htail].
  exists tail. by rewrite Htail, process_events_declarations, <- app_assoc.
Qed.

(** After the walk every registered event is one of [init], [shutdown],
    [test], [suite], and the declaration of its callback, of the shape
    [void clar_on_<event>(void)], is in the declaration list: an event
    callback with another name is never registered. *)
Theorem init_events_recognised (e : env) (fs : gmap string string)
    (path : string) (clar_path : option string) (print_mode : string)
    (b : ClarTestBuilder) :
  __init__ e fs path clar_path print_mode = Ok b ->
  forall event,
    event ∈ event_callbacks b ->
    event ∈ CLAR_EVENTS
    /\ exists sp1 sp2 sp3,
         (sp1 <> "" /\ spaces sp1) /\ spaces sp2 /\ spaces sp3
         /\ event_decl event sp1 sp2 sp3 ∈ declarations b.
Proof.
  apply (init_invariant (fun b => forall event,
    event ∈ event_callbacks b ->
    event ∈ CLAR_EVENTS
    /\ exists sp1 sp2 sp3,
         (sp1 <> "" /\ spaces sp1) /\ spaces sp2 /\ spaces sp3
         /\ event_decl event sp1 sp2 sp3 ∈ declarations b)).
  - intros b1 b2 suite_name contents Hinv H event.
    rewrite (process_test_file_event_callbacks _ _ _ _ H).
    destruct (process_test_file_declarations _ _ _ _ H) as [tail ->].
    rewrite elem_of_app. intros [Hold|Hnew].
    + destruct (Hinv event Hold) as (Hrec & sp1 & sp2 & sp3 & ? & ? & ? & Hin).
      split; [done|]. exists sp1, sp2, sp3. repeat (split; [done|]).
      rewrite elem_of_app. by left.
    + apply list_elem_of_fmap in Hnew as ([decl ev] & -> & Hin).
      apply list_elem_of_filter in Hin as [Hrec Hin]. simpl in *.
      split; [done|].
      destruct (scan_events_sound _ _ _ Hin)
        as (_ & sp1 & sp2 & sp3 & ? & ? & ? & ->).
      exists sp1, sp2, sp3. repeat (split; [done|]).
      rewrite !elem_of_app. right. left.
      apply list_elem_of_fmap. exists (event_decl ev sp1 sp2 sp3, ev).
      split; [done|]. by apply list_elem_of_filter.
  - intros event Hin. by apply elem_of_nil in Hin.
Qed.

Lemma init_events_recognised_witness :
  exists b,
    __init__ one_file_env (one_file_fs init_event_file) "/t" None "default" = Ok b
    /\ "init" ∈ event_callbacks b /\ "init" ∈ CLAR_EVENTS.
Proof.
  destruct (__init__ one_file_env (one_file_fs init_event_file) "/t" None
              "default") as [b|err] eqn:E; [|by vm_compute in E].
  exists b. split; [reflexivity|].
  assert (Hin : "init" ∈ event_callbacks b).
  { assert (Hb : Ok b = __init__ one_file_env (one_file_fs init_event_file)
                          "/t" None "default") by (by rewrite E).
    vm_compute in Hb. injection Hb as ->. left. }
  split; [done|].
  by destruct (init_events_recognised _ _ _ _ _ _ E "init" Hin) as [? _].
Defined.

Lemma elem_of_roles (d : suite) (cb : callback) :
  cb ∈ roles d
  <-> categorize d = Some cb \/ initialize d = Some cb \/ cleanup d = Some cb.
Proof.
  unfold roles. rewrite list_elem_of_omap. split.
  - intros (o & Ho & Hcb). destruct o as [x|]; [|done]. simpl in Hcb.
    injection Hcb as ->.
    rewrite !elem_of_cons, elem_of_nil in Ho.
    destruct Ho as [<-|[<-|[<-|[]]]]; auto.
  - intros H. exists (Some cb). split; [|done].
    destruct H as [<-|[<-|<-]]; [left|right; left|right; right; left].
Qed.

Lemma callbacks_declared_after_init (e : env) (fs : gmap string string)
    (path : string) (clar_path : option string) (print_mode : string)
    (b : ClarTestBuilder) :
  __init__ e fs path clar_path print_mode = Ok b ->
  (forall s cbs cb,
      callback_data b !! s = Some cbs -> cb ∈ cbs ->
      declaration cb ∈ declarations b)
  /\ (forall s d cb,
        suite_data b !! s = Some d -> cb ∈ roles d ->
        declaration cb ∈ declarations b).
Proof.
  apply (init_invariant (fun b =>
    (forall s cbs cb,
        callback_data b !! s = Some cbs -> cb ∈ cbs ->
        declaration cb ∈ declarations b)
    /\ (forall s d cb,
          suite_data b !! s = Some d -> cb ∈ roles d ->
          declaration cb ∈ declarations b))).
  - intros b1 b2 suite_name contents [Hc Hr] H.
    apply process_test_file_cases in H as (found & _ & [[_ ->]|[Hne ->]]);
      destruct (process_events_suites b1 (_skip_comments contents))
        as (E1 & E2 & E3).
    + rewrite E2, E3, process_events_declarations. split.
      * intros s cbs cb Hs Hin. rewrite elem_of_app. left. eauto.
      * intros s d cb Hs Hin. rewrite elem_of_app. left. eauto.
    + rewrite register_suite_callbacks by done. simpl.
      rewrite E2, E3, process_events_declarations. split.
      * intros s cbs cb Hs Hin. destruct (decide (suite_name = s)) as [->|Hn].
        -- rewrite lookup_insert_eq in Hs. injection Hs as <-.
           rewrite sort_by_Permutation in Hin.
           rewrite !elem_of_app. do 4 right.
           apply list_elem_of_fmap. eauto.
        -- rewrite lookup_insert_ne in Hs by done.
           rewrite !elem_of_app. left. left. eauto.
      * intros s d cb Hs Hin. destruct (decide (suite_name = s)) as [->|Hn].
        -- rewrite lookup_insert_eq in Hs. injection Hs as <-.
           apply elem_of_roles in Hin. simpl in Hin.
           rewrite !elem_of_app.
           destruct Hin as [Hx|[Hx|Hx]]; rewrite Hx; simpl.
           ++ right. left. left.
           ++ right. right. left. left.
           ++ right. right. right. left. left.
        -- rewrite lookup_insert_ne in Hs by done.
           rewrite !elem_of_app. left. left. eauto.
  - split; intros s ? cb Hs; simpl in Hs; by rewrite lookup_empty in Hs.
Qed.

(** After the walk the header declares every function the main file refers
    to: each callback of a callback list and each callback in a role of a
    suite record has its [extern] line among the lines of the header. *)
Theorem init_callbacks_declared (e : env) (fs : gmap string string)
    (path : string) (clar_path : option string) (print_mode : string)
    (b : ClarTestBuilder) :
  __init__ e fs path clar_path print_mode = Ok b ->
  (forall s cbs cb,
      callback_data b !! s = Some cbs -> cb ∈ cbs ->
      "extern " +:+ declaration cb +:+ ";" ∈ extern_lines b)
  /\ (forall s d cb,
        suite_data b !! s = Some d -> cb ∈ roles d ->
        "extern " +:+ declaration cb +:+ ";" ∈ extern_lines b).
Proof.
  intros H. destruct (callbacks_declared_after_init _ _ _ _ _ _ H) as [Hc Hr].
  assert (Hline : forall decl, decl ∈ declarations b ->
            "extern " +:+ decl +:+ ";" ∈ extern_lines b).
  { intros decl Hin. unfold extern_lines. apply list_elem_of_fmap.
    exists decl. split; [done|]. by rewrite sorted_Permutation. }
  split; eauto.
Qed.

Lemma init_callbacks_declared_witness :
  exists b,
    __init__ one_file_env (one_file_fs init_event_file) "/t" None "default" = Ok b
    /\ "extern void test_s__one(void);" ∈ extern_lines b.
Proof.
  destruct (__init__ one_file_env (one_file_fs init_event_file) "/t" None
              "default") as [b|err] eqn:E; [|by vm_compute in E].
  exists b. split; [reflexivity|].
  destruct (init_callbacks_declared _ _ _ _ _ _ E) as [Hc _].
  assert (Hb : Ok b = __init__ one_file_env (one_file_fs init_event_file)
                        "/t" None "default") by (by rewrite E).
  vm_compute in Hb. injection Hb as Hb.
  apply (Hc "s" [ {| short_name := "one"; declaration := "void test_s__one(void)";
                     symbol := "test_s__one" |} ]
            {| short_name := "one"; declaration := "void test_s__one(void)";
               symbol := "test_s__one" |}); [by rewrite Hb|left].
Defined.

(** ** The header *)

Lemma subst_plain (kw : list (string * string)) (pre t : string) :
  without "$" pre ->
  Template.subst kw Template.Text (pre +:+ t)
  = (r <- Template.subst kw Template.Text t ;; Ok (pre +:+ r)).
Proof.
  unfold without. induction pre as [|c pre IH]; intros H.
  - rewrite StrFacts.app_nil_l. by destruct (Template.subst kw Template.Text t).
  - rewrite StrFacts.app_cons. cbn [Template.subst all_in] in *.
    apply andb_prop in H as [Hc H]. apply negb_true_iff in Hc. rewrite Hc.
    rewrite (IH H). by destruct (Template.subst kw Template.Text t).
Qed.

Lemma subst_plain_all (kw : list (string * string)) (t : string) :
  without "$" t -> Template.subst kw Template.Text t = Ok t.
Proof.
  intros H. rewrite <- (StrFacts.app_nil_r t) at 1.
  rewrite subst_plain by done. simpl. by rewrite StrFacts.app_nil_r.
Qed.

Lemma subst_braced (kw : list (string * string)) (acc w t : string) :
  all_in Template.id_char w = true ->
  Template.subst kw (Template.Braced acc) (w +:+ "}" +:+ t)
  = (v <- Template.value kw (acc +:+ w) ;;
     r <- Template.subst kw Template.Text t ;; Ok (v +:+ r)).
Proof.
  revert acc. induction w as [|c w IH]; intros acc H.
  - rewrite StrFacts.app_nil_l, StrFacts.app_nil_r. done.
  - rewrite StrFacts.app_cons. cbn [Template.subst all_in] in *.
    apply andb_prop in H as [-> H]. rewrite (IH _ H).
    unfold Template.snoc. by rewrite StrFacts.app_assoc.
Qed.

Lemma subst_placeholder (kw : list (string * string)) (c : ascii) (w t : string) :
  Template.id_start c = true -> all_in Template.id_char w = true ->
  Template.subst kw Template.Text ("${" +:+ String c w +:+ "}" +:+ t)
  = (v <- Template.value kw (String c w) ;;
     r <- Template.subst kw Template.Text t ;; Ok (v +:+ r)).
Proof.
  intros Hc Hw.
  change ("${" +:+ String c w +:+ "}" +:+ t)
    with (String "$" (String "{" (String c (w +:+ "}" +:+ t)))).
  cbn [Template.subst]. replace (Ascii.eqb "$" "$") with true by done.
  replace (Ascii.eqb "{" "$") with false by done.
  replace (Template.id_start "{") with false by done.
  replace (Ascii.eqb "{" "{") with true by done.
  rewrite Hc. by rewrite subst_braced.
Qed.

(** The header follows the sorted declarations only: two builders that
    registered the same declarations in different orders, and load the
    same template, render the same header. *)
Theorem render_header_order (e : env) (fs : gmap string string)
    (b b' : ClarTestBuilder) :
  declarations b' ≡ₚ declarations b ->
  clar_path b' = clar_path b ->
  _render_header e fs b' = _render_header e fs b.
Proof.
  intros Hperm Hpath. unfold _render_header, _load_file. rewrite Hpath.
  by rewrite (sorted_perm _ _ Hperm).
Qed.

Lemma render_header_order_witness :
  let b := new_builder one_file_env "/t" (Some "/c") "default" in
  _render_header one_file_env with_header_fs
    {| declarations := [ "void b(void)"; "void a(void)" ];
       suite_names := suite_names b; callback_data := callback_data b;
       suite_data := suite_data b; event_callbacks := event_callbacks b;
       clar_path := clar_path b; path := path b; modules := modules b |}
  = _render_header one_file_env with_header_fs
    {| declarations := [ "void a(void)"; "void b(void)" ];
       suite_names := suite_names b; callback_data := callback_data b;
       suite_data := suite_data b; event_callbacks := event_callbacks b;
       clar_path := clar_path b; path := path b; modules := modules b |}.
Proof.
  intros b. apply render_header_order; [apply Permutation_swap|reflexivity].
Defined.

(** For a header template with the one placeholder
    [${extern_declarations}], the header is the template with the
    placeholder replaced by the [extern] lines, one for each registered
    declaration (a declaration registered twice has two lines), in sorted
    order and joined by newlines. *)
Theorem render_header_text (e : env) (fs : gmap string string)
    (b : ClarTestBuilder) (pre post : string) :
  _load_file e fs b "clar.h" = Ok (pre +:+ "${extern_declarations}" +:+ post) ->
  without "$" pre -> without "$" post ->
  _render_header e fs b = Ok (pre +:+ Str.join nl (extern_lines b) +:+ post)
  /\ length (extern_lines b) = length (declarations b)
  /\ Sorted String.le (sorted (declarations b)).
Proof.
  intros Hload Hpre Hpost. split; [|split].
  - unfold _render_header. rewrite Hload. simpl bind.
    unfold Template.substitute. rewrite subst_plain by done.
    change ("${extern_declarations}" +:+ post)
      with ("${" +:+ String "e" "xtern_declarations" +:+ "}" +:+ post).
    rewrite subst_placeholder by done.
    rewrite (subst_plain_all _ post Hpost).
    cbn [Template.value]. rewrite String.eqb_refl. done.
  - unfold extern_lines. by rewrite length_fmap, sorted_Permutation.
  - apply sorted_Sorted.
Qed.

Lemma render_header_text_witness :
  exists b,
    __init__ one_file_env with_header_fs "/t" (Some "/c") "default" = Ok b
    /\ _render_header one_file_env with_header_fs b
       = Ok ("extern void clar_on_init(void);" +:+ nl
             +:+ "extern void test_s__one(void);" +:+ nl).
Proof.
  destruct (__init__ one_file_env with_header_fs "/t" (Some "/c") "default")
    as [b|err] eqn:E; [|by vm_compute in E].
  exists b. split; [reflexivity|].
  assert (Hb : Ok b = __init__ one_file_env with_header_fs "/t" (Some "/c")
                        "default") by (by rewrite E).
  vm_compute in Hb. injection Hb as Hb.
  destruct (render_header_text one_file_env with_header_fs b "" nl) as [H _].
  - rewrite Hb. by vm_compute.
  - reflexivity.
  - reflexivity.
  - rewrite H. rewrite Hb. by vm_compute.
Defined.

(** ** The main file *)

Lemma arrays_after_init (e : env) (fs : gmap string string) (path : string)
    (clar_path : option string) (print_mode : string) (b : ClarTestBuilder) :
  __init__ e fs path clar_path print_mode = Ok b ->
  exists arrays,
    callback_arrays b = Ok arrays
    /\ length arrays = length (suite_names b)
    /\ forall i s,
         sorted (suite_names b) !! i = Some s ->
         exists cbs,
           callback_data b !! s = Some cbs
           /\ arrays !! i = Some (callbacks_text s cbs).
Proof.
  intros H. apply init_registered in H.
  assert (Hreg : forall s, s ∈ sorted (suite_names b) ->
                   is_Some (callback_data b !! s)).
  { intros s Hs. rewrite sorted_Permutation in Hs. by apply H. }
  destruct (mapM_exists
              (fun s => cbs <- item (callback_data b) s ;; _render_callbacks s cbs)
              (sorted (suite_names b))) as [arrays Harrays].
  { intros s Hin. destruct (Hreg s Hin) as [cbs Hcbs].
    unfold item. rewrite Hcbs. simpl. rewrite render_callbacks_text. eauto. }
  exists arrays. split; [done|].
  apply mapM_lookup in Harrays as [Hlen Hnth]. split.
  - by rewrite Hlen, sorted_Permutation.
  - intros i s Hs.
    destruct (Hreg s) as [cbs Hcbs]; [by eapply list_elem_of_lookup_2|].
    exists cbs. split; [done|].
    destruct (Hnth i s Hs) as (y & Hy & Hrender).
    unfold item in Hrender. rewrite Hcbs in Hrender. simpl in Hrender.
    rewrite render_callbacks_text in Hrender. by injection Hrender as <-.
Qed.

(** After the walk the callback arrays of the main file render without a
    failed lookup: there is one array for each listed suite name, in sorted
    order like the suite descriptors, and the array at position [i] is the
    text of the callback list stored for the [i]-th smallest name. *)
Theorem init_callback_arrays (e : env) (fs : gmap string string) (path : string)
    (clar_path : option string) (print_mode : string) (b : ClarTestBuilder) :
  __init__ e fs path clar_path print_mode = Ok b ->
  exists arrays,
    callback_arrays b = Ok arrays
    /\ length arrays = length (suite_names b)
    /\ forall i s,
         sorted (suite_names b) !! i = Some s ->
         exists cbs,
           callback_data b !! s = Some cbs
           /\ arrays !! i = Some (callbacks_text s cbs).
Proof. apply arrays_after_init. Qed.

Lemma init_callback_arrays_witness :
  exists b arrays,
    __init__ two_file_env two_file_fs "/t" None "default" = Ok b
    /\ callback_arrays b = Ok arrays
    /\ length arrays = 2.
Proof.
  destruct (__init__ two_file_env two_file_fs "/t" None "default")
    as [b|err] eqn:E; [|by vm_compute in E].
  destruct (init_callback_arrays _ _ _ _ _ _ E) as (arrays & Ha & Hlen & _).
  exists b, arrays. split; [reflexivity|]. split; [done|].
  rewrite Hlen.
  assert (Hb : Ok b = __init__ two_file_env two_file_fs "/t" None "default")
    by (by rewrite E).
  vm_compute in Hb. by injection Hb as ->.
Defined.

Lemma descriptors_after_init (e : env) (fs : gmap string string) (path : string)
    (clar_path : option string) (print_mode : string) (b : ClarTestBuilder) :
  __init__ e fs path clar_path print_mode = Ok b ->
  exists ds, suite_descriptors b = Ok ds /\ length ds = length (suite_names b).
Proof.
  intros H. apply init_registered in H.
  destruct (mapM_exists
              (fun '(i, s) => d <- item (suite_data b) s ;; _render_suite d i)
              (enumerate (sorted (suite_names b)))) as [ds Hds].
  { intros [i s] Hin. unfold enumerate in Hin.
    apply list_elem_of_lookup in Hin as [j Hj].
    apply list_lookup_imap_Some in Hj as (s' & Hs' & [= -> ->]).
    destruct (H s') as [(d & Hd & _) _].
    { rewrite <- (sorted_Permutation (suite_names b)).
      by eapply list_elem_of_lookup_2. }
    unfold item. rewrite Hd. simpl. rewrite render_suite_text. eauto. }
  exists ds. split; [done|].
  apply mapM_lookup in Hds as [Hlen _]. unfold enumerate in Hlen.
  by rewrite Hlen, length_imap, sorted_Permutation.
Qed.

(** After the walk [_render_main] can fail only while it loads the main
    template or a module, or while it substitutes into the template: the
    suite descriptors and the callback arrays always render, and the number
    of suites given to the template is the length of the list of suite
    names (a name listed twice is counted twice). *)
Theorem render_main_after_init (e : env) (fs : gmap string string)
    (path : string) (clar_path : option string) (print_mode : string)
    (b : ClarTestBuilder) :
  __init__ e fs path clar_path print_mode = Ok b ->
  exists ds arrays,
    suite_descriptors b = Ok ds /\ callback_arrays b = Ok arrays
    /\ forall e' fs',
         _render_main e' fs' b
         = (template <- _load_file e' fs' b "clar.c" ;;
            clar_modules <- _get_modules e' fs' b ;;
            Template.substitute template
              [ ("clar_modules", clar_modules);
                ("clar_callbacks", Str.join nl arrays);
                ("clar_suites", Str.join ("," +:+ nl +:+ tab) ds);
                ("clar_suite_count", str (length (suite_names b)));
                ("clar_callback_count", str (callback_count b));
                ("clar_event_overrides", _render_event_overrides b) ]).
Proof.
  intros H.
  destruct (descriptors_after_init _ _ _ _ _ _ H) as (ds & Hds & Hlen).
  destruct (arrays_after_init _ _ _ _ _ _ H) as (arrays & Harrays & _).
  exists ds, arrays. split; [done|]. split; [done|].
  intros e' fs'. unfold _render_main. rewrite Hds, Harrays. simpl.
  by rewrite Hlen.
Qed.

Lemma render_main_after_init_witness :
  exists b text,
    __init__ one_file_env categorize_fs "/t" (Some "/c") "default" = Ok b
    /\ _render_main one_file_env categorize_fs b = Ok text.
Proof.
  destruct (__init__ one_file_env categorize_fs "/t" (Some "/c") "default")
    as [b|err] eqn:E; [|by vm_compute in E].
  destruct (render_main_after_init _ _ _ _ _ _ E)
    as (ds & arrays & Hds & Harrays & Hmain).
  assert (Hb : Ok b = __init__ one_file_env categorize_fs "/t" (Some "/c")
                        "default") by (by rewrite E).
  vm_compute in Hb. injection Hb as Hb.
  exists b. eexists. split; [reflexivity|].
  rewrite Hmain. rewrite Hb in Hds, Harrays |- *.
  vm_compute in Hds. injection Hds as <-.
  vm_compute in Harrays. injection Harrays as <-.
  vm_compute. reflexivity.
Defined.

(** ** Settings and modules *)

Lemma process_events_settings (self : ClarTestBuilder) (contents : string) :
  clar_path (_process_events self contents) = clar_path self
  /\ path (_process_events self contents) = path self
  /\ modules (_process_events self contents) = modules self.
Proof. unfold _process_events. by rewrite register_events_spec. Qed.

Lemma settings_after_init (e : env) (fs : gmap string string) (folder : string)
    (cp : option string) (print_mode : string) (b : ClarTestBuilder) :
  __init__ e fs folder cp print_mode = Ok b ->
  clar_path b = clar_path (new_builder e folder cp print_mode)
  /\ path b = abspath e folder
  /\ modules b = modules (new_builder e folder cp print_mode).
Proof.
  apply (init_invariant (fun b =>
    clar_path b = clar_path (new_builder e folder cp print_mode)
    /\ path b = abspath e folder
    /\ modules b = modules (new_builder e folder cp print_mode))); [|done].
  intros b1 b2 suite_name contents (H1 & H2 & H3) H.
  destruct (process_events_settings b1 (_skip_comments contents))
    as (E1 & E2 & E3).
  apply process_test_file_cases in H as (found & _ & [[_ ->]|[Hne ->]]).
  - by rewrite E1, E2, E3.
  - rewrite register_suite_callbacks by done. simpl. by rewrite E1, E2, E3.
Qed.

Lemma mapM_Forall2 {A B : Type} (f : A -> result B) (l : list A) (ys : list B) :
  Forall2 (fun x y => f x = Ok y) l ys -> mapM f l = Ok ys.
Proof.
  induction 1 as [|x y l ys Hx _ IH]; [done|]. simpl. by rewrite Hx, IH.
Qed.

Lemma mapM_first_error {A B : Type} (f : A -> result B) (l1 l2 : list A)
    (y : A) (x : error) :
  Forall (fun z => exists v, f z = Ok v) l1 -> f y = Err x ->
  mapM f (l1 ++ y :: l2) = Err x.
Proof.
  induction 1 as [|z l1 [v Hz] _ IH]; intros Hy; simpl.
  - by rewrite Hy.
  - by rewrite Hz, IH.
Qed.

(** The modules of a run are the four fixed modules and the printer module
    of the report mode, in this order. [_get_modules] joins their texts by
    newlines when all five load; when the four fixed modules load and the
    printer module does not (a report mode without a module), it fails
    with the error of loading [clar_print_<mode>.c]. *)
Theorem get_modules_of_run (e : env) (fs : gmap string string) (folder : string)
    (cp : option string) (print_mode : string) (b : ClarTestBuilder) :
  __init__ e fs folder cp print_mode = Ok b ->
  let fixed := [ "clar_sandbox.c"; "clar_fixtures.c"; "clar_fs.c";
                 "clar_categorize.c" ] in
  let printer := "clar_print_" +:+ print_mode +:+ ".c" in
  modules b = fixed ++ [ printer ]
  /\ forall e' fs' texts,
       Forall2 (fun m t => _load_file e' fs' b m = Ok t) fixed texts ->
       (forall t, _load_file e' fs' b printer = Ok t ->
                  _get_modules e' fs' b = Ok (Str.join nl (texts ++ [t])))
       /\ (forall x, _load_file e' fs' b printer = Err x ->
                     _get_modules e' fs' b = Err x).
Proof.
  intros H fixed printer.
  destruct (settings_after_init _ _ _ _ _ _ H) as (_ & _ & Hm).
  split; [done|]. intros e' fs' texts Hfixed. split.
  - intros t Ht. unfold _get_modules. rewrite Hm.
    change (modules (new_builder e folder cp print_mode))
      with (fixed ++ [printer]).
    rewrite (mapM_Forall2 _ _ (texts ++ [t])); [done|].
    apply Forall2_app; [done|]. by repeat constructor.
  - intros x Hx. unfold _get_modules. rewrite Hm.
    change (modules (new_builder e folder cp print_mode))
      with (fixed ++ printer :: []).
    rewrite (mapM_first_error _ fixed [] printer x); [done| |done].
    clear -Hfixed. induction Hfixed; constructor; eauto.
Qed.

Lemma get_modules_of_run_witness :
  exists b,
    __init__ one_file_env no_header_fs "/t" (Some "/c") "tap" = Ok b
    /\ _get_modules one_file_env no_header_fs b
       = Err (IOError "/c/clar_print_tap.c").
Proof.
  destruct (__init__ one_file_env no_header_fs "/t" (Some "/c") "tap")
    as [b|err] eqn:E; [|by vm_compute in E].
  exists b. split; [reflexivity|].
  destruct (get_modules_of_run _ _ _ _ _ _ E) as [_ Hmod].
  assert (Hb : Ok b = __init__ one_file_env no_header_fs "/t" (Some "/c") "tap")
    by (by rewrite E).
  vm_compute in Hb. injection Hb as Hb.
  destruct (Hmod one_file_env no_header_fs [ ""; ""; ""; "" ]) as [_ Herr].
  - rewrite Hb. repeat constructor.
  - apply Herr. rewrite Hb. by vm_compute.
Defined.

(** ** Several folders *)


Lemma generate_frame (e : env) (fs : gmap string string) (folder : string)
    (cp : option string) (print_mode : string) (file : string) :
  file <> os_path_join (abspath e folder) "clar_main.c" ->
  file <> os_path_join (abspath e folder) "clar.h" ->
  (generate e fs folder cp print_mode).1 !! file = fs !! file.
Proof.
  intros H1 H2. unfold generate.
  destruct (__init__ e fs folder cp print_mode) as [b|x] eqn:E; [|done].
  destruct (settings_after_init _ _ _ _ _ _ E) as (_ & Hpath & _).
  unfold render, main_file, header_file. rewrite Hpath.
  destruct (_render_main _ _ _) as [text|x]; simpl.
  - destruct (_render_header _ _ _) as [header|x]; simpl;
      by rewrite !lookup_insert_ne.
  - by rewrite lookup_insert_ne.
Qed.

(** A run writes no file but [clar_main.c] and [clar.h] of its folders:
    every other file, the test files among them, is left as it was,
    whether the run succeeds or fails. *)
Theorem main_loop_frame (e : env) (fs : gmap string string)
    (folders : list string) (cp : option string) (print_mode : string)
    (file : string) :
  (forall folder, folder ∈ folders ->
     file <> os_path_join (abspath e folder) "clar_main.c"
     /\ file <> os_path_join (abspath e folder) "clar.h") ->
  (main_loop e fs folders cp print_mode).1 !! file = fs !! file.
Proof.
  revert fs. induction folders as [|folder folders IH]; intros fs H; [done|].
  simpl.
  pose proof (generate_frame e fs folder cp print_mode file) as Hg.
  destruct (generate e fs folder cp print_mode) as [fs' [[]|x]]; simpl in *.
  - rewrite IH; [|intros f Hf; apply H; by right].
    apply Hg; apply H; left.
  - apply Hg; apply H; left.
Qed.

Lemma main_loop_frame_witness :
  (main_loop one_file_env with_header_fs [ "/t" ] (Some "/c") "default").1
    !! "/t/s.c"
  = Some init_event_file.
Proof.
  rewrite main_loop_frame; [reflexivity|].
  intros folder [->|[]%elem_of_nil]%elem_of_cons. by vm_compute.
Defined.

(** ** The suite name of a test file *)

Lemma drop_app_length (a b : string) : Str.drop (String.length a) (a +:+ b) = b.
Proof.
  induction a as [|x a IH]; [done|]. rewrite StrFacts.app_cons. simpl. by rewrite IH.
Qed.

Lemma split_char_plain (sep : ascii) (d : string) :
  without sep d -> Str.split_char sep d = [d].
Proof.
  unfold without. induction d as [|c d IH]; intros H; [done|].
  simpl in *. apply andb_prop in H as [Hc H]. apply negb_true_iff in Hc.
  by rewrite Hc, (IH H).
Qed.

Lemma split_char_sep (sep : ascii) (d y : string) :
  without sep d ->
  Str.split_char sep (d +:+ String sep y) = d :: Str.split_char sep y.
Proof.
  unfold without. induction d as [|c d IH]; intros H.
  - rewrite StrFacts.app_nil_l. simpl. by rewrite Ascii.eqb_refl.
  - rewrite StrFacts.app_cons. simpl in *.
    apply andb_prop in H as [Hc H]. apply negb_true_iff in Hc.
    by rewrite Hc, (IH H).
Qed.

Lemma split_char_dirs (sep : ascii) (d : string) (dirs : list string) :
  without sep d -> Forall (fun d' => d' <> "" /\ without sep d') dirs ->
  Str.split_char sep (d +:+ concat_strings (String sep <$> dirs)) = d :: dirs.
Proof.
  intros Hd Hdirs. revert d Hd.
  induction Hdirs as [|d' dirs [_ Hd'] _ IH]; intros d Hd.
  - simpl. rewrite StrFacts.app_nil_r. by apply split_char_plain.
  - rewrite fmap_cons, concat_strings_cons, StrFacts.app_cons.
    rewrite split_char_sep by done. by rewrite IH.
Qed.

(** The suite name of a test file is made of the directories between the
    scanned folder and the file and of the file name without its [.c],
    joined by underscores. So the file [b.c] in the directory [a] and the
    file [a_b.c] next to that directory get the same suite name. *)
Theorem load_test_file_name (fs : gmap string string) (self_path : string)
    (dirs : list string) (stem : string) (self : ClarTestBuilder) :
  Forall (fun d => d <> "" /\ without "/" d) dirs ->
  let root := self_path +:+ concat_strings (String "/" <$> dirs) in
  load_test_file fs self_path root self (stem +:+ ".c")
  = (contents <- read_file fs (os_path_join root (stem +:+ ".c")) ;;
     _process_test_file self (Str.join "_" (dirs ++ [stem])) contents).
Proof.
  intros Hdirs root. unfold load_test_file, root.
  rewrite drop_app_length.
  rewrite <- (StrFacts.app_nil_l (concat_strings (String "/" <$> dirs))).
  rewrite (split_char_dirs "/" "" dirs eq_refl Hdirs).
  rewrite filter_cons_False by (intros H; by apply H).
  assert (Hfilter : filter (fun c : string => c ≠ "") dirs = dirs).
  { clear root. induction Hdirs as [|d dirs [Hne _] _ IH]; [done|].
    by rewrite filter_cons_True, IH. }
  rewrite Hfilter, StrFacts.length_app.
  replace (String.length stem + String.length ".c" - 2) with (String.length stem)
    by (simpl; lia).
  by rewrite StrFacts.take_app_length.
Qed.

Lemma load_test_file_name_witness :
  let self := new_builder one_file_env "/t" None "default" in
  load_test_file {[ "/t/a/b.c" := "" ]} "/t" "/t/a" self "b.c"
  = _process_test_file self "a_b" ""
  /\ load_test_file {[ "/t/a_b.c" := "" ]} "/t" "/t" self "a_b.c"
     = _process_test_file self "a_b" "".
Proof.
  intros self.
  assert (Hdirs : Forall (fun d => d <> "" /\ without "/" d) [ "a" ])
    by (by repeat constructor).
  split.
  - etrans;
      [exact (load_test_file_name {[ "/t/a/b.c" := "" ]} "/t" [ "a" ] "b" self
                Hdirs)|].
    by vm_compute.
  - etrans;
      [exact (load_test_file_name {[ "/t/a_b.c" := "" ]} "/t" [] "a_b" self
                (Forall_nil_2 _))|].
    by vm_compute.
Defined.

(** ** Distinct suite names *)

Lemma process_test_file_suite_names (b1 b2 : ClarTestBuilder)
    (suite_name contents : string) :
  _process_test_file b1 suite_name contents = Ok b2 ->
  suite_names b2 = suite_names b1 \/ suite_names b2 = suite_names b1 ++ [suite_name].
Proof.
  intros H.
  destruct (process_events_suites b1 (_skip_comments contents)) as (E1 & _ & _).
  apply process_test_file_cases in H as (found & _ & [[_ ->]|[Hne ->]]).
  - by left.
  - right. rewrite register_suite_callbacks by done. simpl. by rewrite E1.
Qed.

Lemma foldM_load_suite_names (fs : gmap string string)
    (tests : list (string * string)) (b b' : ClarTestBuilder) :
  foldM (load_test fs) b tests = Ok b' ->
  exists l, l `sublist_of` tests.*1 /\ suite_names b' = suite_names b ++ l.
Proof.
  revert b. induction tests as [|t tests IH]; intros b H.
  - simpl in H. injection H as <-. exists []. by rewrite app_nil_r.
  - simpl in H. destruct (load_test fs b t) as [b1|] eqn:E; [|done].
    simpl in H. destruct (IH b1 H) as (l & Hl & ->).
    unfold load_test in E. destruct (read_file fs t.2) as [c|]; [|done].
    simpl in E. apply process_test_file_suite_names in E as [->| ->].
    + exists l. split; [|done]. rewrite fmap_cons. by apply sublist_cons.
    + exists (t.1 :: l). split; [|by rewrite <- app_assoc].
      rewrite fmap_cons. by apply sublist_skip.
Qed.

(** When the test files of the walk have different suite names, no suite
    name is listed twice, and the number of suites given to the main
    template (the length of the list) is the number of suite records. *)
Theorem init_suite_names_distinct (e : env) (fs : gmap string string)
    (path : string) (clar_path : option string) (print_mode : string)
    (b : ClarTestBuilder) :
  __init__ e fs path clar_path print_mode = Ok b ->
  NoDup (run_tests e path).*1 ->
  NoDup (suite_names b) /\ length (suite_names b) = size (suite_data b).
Proof.
  intros H Hnodup.
  pose proof (suites_consistent_after_init _ _ _ _ _ _ H) as Hinv.
  apply init_foldM in H as [H _].
  apply foldM_load_suite_names in H as (l & Hl & Hnames). simpl in Hnames.
  assert (Hnd : NoDup (suite_names b)).
  { rewrite Hnames. by eapply sublist_NoDup. }
  split; [done|].
  rewrite <- (size_dom (D := gset string)).
  assert (Hdom : dom (suite_data b) = list_to_set (suite_names b)).
  { apply set_eq. intros s. rewrite elem_of_dom, elem_of_list_to_set.
    destruct (Hinv s) as [-> _]. done. }
  by rewrite Hdom, size_list_to_set.
Qed.

Lemma init_suite_names_distinct_witness :
  exists b,
    __init__ two_file_env two_file_fs "/t" None "default" = Ok b
    /\ NoDup (suite_names b) /\ length (suite_names b) = size (suite_data b).
Proof.
  destruct (__init__ two_file_env two_file_fs "/t" None "default")
    as [b|err] eqn:E; [|by vm_compute in E].
  exists b. split; [reflexivity|].
  apply (init_suite_names_distinct _ _ _ _ _ _ E).
  vm_compute. apply NoDup_cons. split.
  - intros [H|H]%elem_of_cons; [discriminate H|by apply elem_of_nil in H].
  - apply NoDup_singleton.
Defined.

(** ** Suite names with dots *)

(** Whatever the suite name (with dots or without), every function the
    scan returns is a definition [void test_<segment>__<short_name>(void)]
    whose segment has the length of the suite name and agrees with it at
    every place but those where the name has a dot, where the segment has
    any character but a newline; the symbol is [test_<segment>__<short_name>]
    and the short name is a non-empty word. *)
Theorem scan_tests_fits (suite_name contents : string)
    (found : list (string * string * string)) (decl sym short : string) :
  scan_tests suite_name contents = Ok found ->
  (decl, sym, short) ∈ found ->
  exists seg sp1 sp2 sp3,
    fits_name suite_name seg
    /\ String.length seg = String.length suite_name
    /\ (short <> "" /\ word_chars short)
    /\ (sp1 <> "" /\ spaces sp1) /\ spaces sp2 /\ spaces sp3
    /\ decl = test_decl seg short sp1 sp2 sp3
    /\ sym = test_symbol seg short.
Proof.
  intros Hscan Hin.
  destruct (scan_tests_sound _ _ _ _ _ _ Hscan Hin)
    as (seg & sp1 & sp2 & sp3 & Hfit & ? & ? & ? & ? & ? & ?).
  exists seg, sp1, sp2, sp3. split; [done|]. split; [|done].
  clear -Hfit. revert seg Hfit.
  induction suite_name as [|c n IH]; intros [|a seg] Hfit; try done.
  simpl in *. destruct Hfit as [_ Hfit]. by rewrite (IH seg Hfit).
Qed.

Lemma scan_tests_fits_witness :
  exists seg,
    fits_name "a.b" seg /\ "test_axb__t" = test_symbol seg "t".
Proof.
  destruct (scan_tests_fits "a.b" "void test_axb__t(void) {"
              [ ("void test_axb__t(void)", "test_axb__t", "t") ]
              "void test_axb__t(void)" "test_axb__t" "t")
    as (seg & sp1 & sp2 & sp3 & Hfit & _ & _ & _ & _ & _ & _ & Hsym).
  - by vm_compute.
  - left.
  - by exists seg.
Defined.

(** ** The files the walk reads *)

Lemma take_drop (n : nat) (s : string) : Str.take n s +:+ Str.drop n s = s.
Proof.
  revert s. induction n as [|n IH]; intros [|c s]; try done.
  simpl. by rewrite StrFacts.app_cons, IH.
Qed.

Lemma endswith_iff (p s : string) :
  Str.endswith p s = true <-> exists a, s = a +:+ p.
Proof.
  unfold Str.endswith. split.
  - destruct (decide _) as [H|]; [|done]. intros _.
    exists (Str.take (String.length s - String.length p) s).
    pose proof (take_drop (String.length s - String.length p) s) as E.
    by rewrite H in E.
  - intros [a ->]. rewrite StrFacts.length_app.
    replace (String.length a + String.length p - String.length p)
      with (String.length a) by lia.
    rewrite drop_app_length. destruct (decide (p = p)); [|done].
    apply Nat.leb_le. lia.
Qed.

Lemma endswith_os_path_join (p a f : string) :
  Str.endswith p f = true -> Str.endswith p (os_path_join a f) = true.
Proof.
  rewrite !endswith_iff. intros [x ->]. unfold os_path_join.
  destruct (Str.startswith "/" (x +:+ p)); [by exists x|].
  destruct (decide (a = "")); [by exists x|].
  destruct (Str.endswith "/" a).
  - exists (a +:+ x). by rewrite StrFacts.app_assoc.
  - exists (a +:+ "/" +:+ x). by rewrite !StrFacts.app_assoc.
Qed.

Lemma run_tests_c_files (e : env) (path : string) (t : string * string) :
  t ∈ run_tests e path -> Str.endswith ".c" t.2 = true.
Proof.
  unfold run_tests, walk_tests. rewrite elem_of_flat_map.
  intros ([root files] & _ & Hin). simpl in Hin.
  apply list_elem_of_fmap in Hin as (f & -> & Hf).
  apply list_elem_of_filter in Hf as [Hf _]. simpl.
  by apply endswith_os_path_join.
Qed.

Lemma foldM_load_ext (fs fs' : gmap string string)
    (tests : list (string * string)) (b : ClarTestBuilder) :
  (forall t, t ∈ tests -> fs !! t.2 = fs' !! t.2) ->
  foldM (load_test fs) b tests = foldM (load_test fs') b tests.
Proof.
  revert b. induction tests as [|t tests IH]; intros b H; [done|].
  simpl. unfold load_test at 1 3, read_file. rewrite (H t) by left.
  destruct (fs' !! t.2) as [c|]; [|done]. simpl.
  destruct (_process_test_file b t.1 c) as [b1|]; [|done]. simpl.
  apply IH. intros t' Ht'. apply H. by right.
Qed.

(** The walk reads only files whose name ends in [.c]: two file stores that
    agree on these files give the same builder, or the same error. *)
Theorem init_reads_c_files (e : env) (fs fs' : gmap string string)
    (path : string) (clar_path : option string) (print_mode : string) :
  (forall file, Str.endswith ".c" file = true -> fs !! file = fs' !! file) ->
  __init__ e fs path clar_path print_mode
  = __init__ e fs' path clar_path print_mode.
Proof.
  intros H. rewrite !init_unfold.
  rewrite (foldM_load_ext fs fs'); [done|].
  intros t Ht. by apply H, run_tests_c_files with e path.
Qed.

Lemma init_reads_c_files_witness :
  __init__ one_file_env (one_file_fs init_event_file) "/t" None "default"
  = __init__ one_file_env (<[ "/t/notes.txt" := "x" ]> (one_file_fs init_event_file))
      "/t" None "default".
Proof.
  apply init_reads_c_files. intros file Hfile.
  rewrite lookup_insert_ne; [done|]. intros <-. by vm_compute in Hfile.
Defined.

(** ** The roles of a suite *)

Lemma named_snoc (short : string) (found : list (string * string * string))
    (m : string * string * string) :
  named short (found ++ [m])
  = named short found ++ (if String.eqb m.2 short then [data_of m] else []).
Proof.
  unfold named. rewrite filter_app, fmap_app. f_equal.
  destruct (String.eqb_spec m.2 short) as [H|H].
  - by rewrite filter_cons_True.
  - by rewrite filter_cons_False.
Qed.

Lemma classify_all_roles (found : list (string * string * string)) :
  l_categorize (classify_all found) = last (named "categorize" found)
  /\ l_initialize (classify_all found) = last (named "initialize" found)
  /\ l_cleanup (classify_all found) = last (named "cleanup" found).
Proof.
  unfold classify_all.
  induction found as [|m found (IH1 & IH2 & IH3)] using rev_ind; [done|].
  rewrite foldl_app, !named_snoc. cbn [foldl].
  destruct m as [[decl sym] short]. unfold classify. cbn [snd].
  destruct (String.eqb_spec short "categorize") as [E1|H1],
           (String.eqb_spec short "initialize") as [E2|H2],
           (String.eqb_spec short "cleanup") as [E3|H3];
    try congruence;
    cbn [l_categorize l_initialize l_cleanup];
    rewrite ?last_snoc, ?app_nil_r; done.
Qed.

(** When a file has a function that is not named [initialize] or [cleanup],
    its suite record is stored under the suite name, replacing a record
    stored before, and each role of the record holds the last scanned
    function with the name of the role, or nothing when there is none: of
    two functions named [initialize] the later one is kept. *)
Theorem process_declarations_roles (self : ClarTestBuilder)
    (suite_name contents : string) (found : list (string * string * string))
    (m : string * string * string) :
  scan_tests suite_name contents = Ok found ->
  m ∈ found -> chained m.2 = false ->
  exists b d,
    _process_declarations self suite_name contents = Ok b
    /\ suite_data b !! suite_name = Some d
    /\ name d = suite_name
    /\ categorize d = last (named "categorize" found)
    /\ initialize d = last (named "initialize" found)
    /\ cleanup d = last (named "cleanup" found).
Proof.
  intros Hscan Hin Hm. unfold _process_declarations. rewrite Hscan. simpl bind.
  assert (Hne : l_callbacks (classify_all found) <> []).
  { rewrite classify_all_callbacks. intros E.
    assert (Hd : data_of m ∈ data_of <$> filter (fun m => chained m.2 = false) found).
    { apply list_elem_of_fmap. exists m. split; [done|].
      by apply list_elem_of_filter. }
    rewrite E in Hd. by apply elem_of_nil in Hd. }
  rewrite register_suite_callbacks by done.
  eexists _, _. split; [reflexivity|]. simpl suite_data.
  rewrite lookup_insert_eq. split; [reflexivity|]. simpl.
  destruct (classify_all_roles found) as (-> & -> & ->). done.
Qed.

Lemma process_declarations_roles_witness :
  let found :=
    [ ("void test_s__initialize(void)", "test_s__initialize", "initialize");
      ("void test_s__one(void)", "test_s__one", "one");
      ("void  test_s__initialize(void)", "test_s__initialize", "initialize") ] in
  exists b d,
    _process_declarations (new_builder one_file_env "/t" None "default") "s"
      ("void test_s__initialize(void) {" +:+ nl +:+ "void test_s__one(void) {"
       +:+ nl +:+ "void  test_s__initialize(void) {") = Ok b
    /\ suite_data b !! "s" = Some d
    /\ initialize d
       = Some {| short_name := "initialize";
                 declaration := "void  test_s__initialize(void)";
                 symbol := "test_s__initialize" |}.
Proof.
  intros found.
  destruct (process_declarations_roles
              (new_builder one_file_env "/t" None "default") "s"
              ("void test_s__initialize(void) {" +:+ nl
               +:+ "void test_s__one(void) {" +:+ nl
               +:+ "void  test_s__initialize(void) {")
              found ("void test_s__one(void)", "test_s__one", "one"))
    as (b & d & Hb & Hd & _ & _ & Hinit & _).
  - by vm_compute.
  - right. left.
  - reflexivity.
  - exists b, d. split; [done|]. split; [done|]. by rewrite Hinit.
Defined.

(** ** The displayed name of a suite *)

Lemma replace_char_app (a : ascii) (b x y : string) :
  Str.replace_char a b (x +:+ y)
  = Str.replace_char a b x +:+ Str.replace_char a b y.
Proof.
  induction x as [|c x IH]; [by rewrite !StrFacts.app_nil_l|].
  rewrite StrFacts.app_cons. simpl. rewrite IH.
  destruct (Ascii.eqb c a); [by rewrite StrFacts.app_assoc|].
  by rewrite StrFacts.app_cons.
Qed.

Lemma replace_char_without (a : ascii) (b x : string) :
  without a x -> Str.replace_char a b x = x.
Proof.
  unfold without. induction x as [|c x IH]; intros H; [done|].
  simpl in *. apply andb_prop in H as [Hc H]. apply negb_true_iff in Hc.
  by rewrite Hc, (IH H).
Qed.

Lemma replace_char_join (parts : list string) :
  Forall (without "_") parts ->
  Str.replace_char "_" "::" (Str.join "_" parts) = Str.join "::" parts.
Proof.
  unfold Str.join. induction 1 as [|x parts Hx Hparts IH]; [done|].
  destruct parts as [|y parts]; [by apply replace_char_without|].
  cbn [String.concat] in *.
  change (x ++ "_" ++ String.concat "_" (y :: parts))%string
    with (x +:+ "_" +:+ String.concat "_" (y :: parts)).
  rewrite !replace_char_app, IH, (replace_char_without _ _ x Hx). done.
Qed.

(** The descriptor of a suite shows the suite name with every underscore
    replaced by [::]: for a test file in directories, whose suite name is
    its path parts joined by underscores, the parts (when they have no
    underscore of their own) are shown joined by [::]. The descriptor never
    fails to render. *)
Theorem render_suite_clean_name (parts : list string) (d : suite) (index : nat) :
  Forall (without "_") parts ->
  name d = Str.join "_" parts ->
  _render_suite d index
  = Ok (("{" +:+ nl +:+
         "        " +:+ str index +:+ "," +:+ nl +:+
         "        " +:+ dq +:+ Str.join "::" parts +:+ dq +:+ "," +:+ nl +:+
         "        " +:+ render_role (categorize d) +:+ "," +:+ nl +:+
         "        " +:+ render_role (initialize d) +:+ "," +:+ nl +:+
         "        " +:+ render_role (cleanup d) +:+ "," +:+ nl +:+
         "        " +:+ "_clar_cb_" +:+ Str.join "_" parts +:+ ", "
         +:+ str (cb_count d))
        +:+ (nl +:+ "    }")).
Proof.
  intros Hparts Hname. rewrite render_suite_text. unfold descriptor_text.
  by rewrite Hname, replace_char_join.
Qed.

Lemma render_suite_clean_name_witness :
  let d := {| name := "a_b"; categorize := None; initialize := None;
              cleanup := None; cb_count := 1 |} in
  _render_suite d 0
  = Ok (("{" +:+ nl +:+
         "        " +:+ str 0 +:+ "," +:+ nl +:+
         "        " +:+ dq +:+ Str.join "::" [ "a"; "b" ] +:+ dq +:+ "," +:+ nl +:+
         "        " +:+ render_role (categorize d) +:+ "," +:+ nl +:+
         "        " +:+ render_role (initialize d) +:+ "," +:+ nl +:+
         "        " +:+ render_role (cleanup d) +:+ "," +:+ nl +:+
         "        " +:+ "_clar_cb_" +:+ Str.join "_" [ "a"; "b" ] +:+ ", "
         +:+ str (cb_count d))
        +:+ (nl +:+ "    }")).
Proof.
  intros d. apply (render_suite_clean_name [ "a"; "b" ] d 0); [|reflexivity].
  by repeat constructor.
Defined.

(** ** A header template with other dollar signs *)

(** A header template whose first placeholder is not
    [${extern_declarations}] makes [_render_header] fail with a [KeyError]
    for the name of the placeholder, and one whose first dollar sign is
    followed by neither a dollar sign, a brace nor the start of a name
    makes it fail with a [ValueError]. *)
Theorem render_header_errors (e : env) (fs : gmap string string)
    (b : ClarTestBuilder) (pre post : string) (c : ascii) (w : string) :
  without "$" pre ->
  (_load_file e fs b "clar.h" = Ok (pre +:+ "${" +:+ String c w +:+ "}" +:+ post) ->
   Template.id_start c = true -> all_in Template.id_char w = true ->
   String c w <> "extern_declarations" ->
   _render_header e fs b = Err (KeyError (String c w)))
  /\ (_load_file e fs b "clar.h" = Ok (pre +:+ "$" +:+ String c post) ->
      Template.id_start c = false -> c <> "$"%char -> c <> "{"%char ->
      _render_header e fs b = Err ValueError).
Proof.
  intros Hpre. split.
  - intros Hload Hc Hw Hid. unfold _render_header. rewrite Hload. simpl bind.
    unfold Template.substitute. rewrite subst_plain by done.
    rewrite subst_placeholder by done. cbn [Template.value].
    apply String.eqb_neq in Hid. rewrite String.eqb_sym in Hid.
    by rewrite Hid.
  - intros Hload Hc H1 H2. unfold _render_header. rewrite Hload. simpl bind.
    unfold Template.substitute. rewrite subst_plain by done.
    change ("$" +:+ String c post) with (String "$" (String c post)).
    cbn [Template.subst]. replace (Ascii.eqb "$" "$") with true by done.
    apply Ascii.eqb_neq in H1, H2. by rewrite H1, H2, Hc.
Qed.

Lemma render_header_errors_witness :
  let b := new_builder one_file_env "/t" (Some "/c") "default" in
  _render_header one_file_env {[ "/c/clar.h" := "/* ${version} */" ]} b
  = Err (KeyError "version")
  /\ _render_header one_file_env {[ "/c/clar.h" := "cost: $5" ]} b
     = Err ValueError.
Proof.
  intros b. split.
  - by apply (render_header_errors one_file_env {[ "/c/clar.h" := "/* ${version} */" ]}
                b "/* " " */" "v" "ersion" eq_refl).
  - by apply (render_header_errors one_file_env {[ "/c/clar.h" := "cost: $5" ]}
                b "cost: " "" "5" "" eq_refl).
Defined.
